(** * Command history and change synchronisation of the App Builder editor

    A shallow embedding of two classes of the editor:

    - [UndoRedoManager]: the undo/redo history with command factories,
      command fusion, batches and snapshots;
    - [CollaborationManager] with its helper [OperationalTransform]
      (file ComponentCommunicationManager.js): the outbound change buffer,
      the handling of inbound [change] messages and the transform step.

    JavaScript objects that the code mutates in place (history entries, the
    array captured by a batch command, the state object captured by a
    command's closures) are modelled by value: a method that mutates an
    object returns the new value of that object, and the history stores it
    back at the same index. *)

From stdpp Require Import gmap strings list.
From Stdlib Require Import ZArith Lia.

Local Open Scope Z_scope.

(** ** JavaScript values and the document *)

(** The values that occur in command state objects.  [VElem] is a reference
    to a DOM element, [VObj] a reference to any other object (opaque). *)
Inductive jsval : Type :=
  | VUndef
  | VNull
  | VNum (n : Z)
  | VStr (s : string)
  | VElem (e : nat)
  | VObj (o : nat).

#[global] Instance jsval_eq_dec : EqDecision jsval.
Proof. solve_decision. Defined.

(** A plain object used as a record of named fields. *)
Abbreviation jsobj := (gmap string jsval).

(** Property read [o.k]: a missing property reads as [undefined]. *)
Definition get (o : jsobj) (k : string) : jsval := default VUndef (o !! k).

(** Strict equality [===] on the values above (no NaN among them). *)
Definition strict_eq (a b : jsval) : bool := bool_decide (a = b).

(** The numeric subtraction [a - b] followed by [< bound], for the operands
    the code produces (timestamps written by [Date.now()]).  [undefined]
    makes the difference NaN, so the comparison is false; [null] counts as
    0.  Operands that are strings or objects are not produced by the code
    and are treated like [undefined]. *)
Definition to_number (v : jsval) : option Z :=
  match v with
  | VNum n => Some n
  | VNull => Some 0
  | _ => None
  end.

Definition diff_lt (a b : jsval) (bound : Z) : bool :=
  match to_number a, to_number b with
  | Some x, Some y => x - y <? bound
  | _, _ => false
  end.

(** The part of the DOM that the text commands touch: the [textContent] of
    each element, by element reference. *)
Abbreviation document := (gmap nat string).

(** Conversion applied by the [textContent] setter (a nullable DOMString):
    [null] and [undefined] give the empty string. Numbers and object
    references never reach the setter in the commands modelled below; they
    are mapped to the empty string as well. *)
Definition to_text (v : jsval) : string :=
  match v with
  | VStr s => s
  | _ => EmptyString
  end.

Definition textContent (d : document) (e : nat) : string :=
  default EmptyString (d !! e).

(** How a call ends: it returns a value or it throws. *)
Inductive completion (A : Type) : Type :=
  | Normal (a : A)
  | Throw.
Arguments Normal {A} a.
Arguments Throw {A}.

(** ** Commands *)

(** The type of a factory routine [(state) => ...]: it reads and may mutate
    the state object it is given and the document, and returns a truth
    value or throws. *)
Definition routine : Type :=
  jsobj -> document -> completion bool * jsobj * document.

(** A command factory as registered with [registerCommand]; [combine] is
    optional. *)
Record factory : Type := Factory {
  f_execute : routine;
  f_undo : routine;
  f_combine : option (jsobj -> jsobj -> option jsobj)
}.

(** A command object.

    [Command] is what [createCommand] returns: [state] is the copy with the
    timestamp, [captured] the state object the closures [execute] and
    [undo] were created over (they call the factory on it, not on [state]).

    [BatchCommand] is what [createBatchCommand] returns: [operations] is the
    array captured by its closures (the same array as [state.operations]). *)
#[warnings="-register-all"]
Inductive command : Type :=
  | Command (type : string) (state : jsobj) (captured : jsobj) (fac : factory)
  | BatchCommand (timestamp : Z) (operations : list command).

Definition type_of (c : command) : string :=
  match c with
  | Command t _ _ _ => t
  | BatchCommand _ _ => "batch"
  end.

(** The [state] property; the array of a batch is an opaque reference. *)
Definition state_of (c : command) : jsobj :=
  match c with
  | Command _ st _ _ => st
  | BatchCommand ts _ => <["operations" := VObj 0]> {["timestamp" := VNum ts]}
  end.

(** The [combine] property: [factory.combine] for a created command,
    absent for a batch. *)
Definition combine_of (c : command) : option (jsobj -> jsobj -> option jsobj) :=
  match c with
  | Command _ _ _ f => f_combine f
  | BatchCommand _ _ => None
  end.

(** [prevCommand.state = combinedState]. *)
Definition set_state (c : command) (st : jsobj) : command :=
  match c with
  | Command t _ cap f => Command t st cap f
  | BatchCommand ts ops => BatchCommand ts ops
  end.

(** [Array.prototype.every] over an array of commands, for a callback [f]
    that runs one command: left to right, stopping at the first command
    whose run is falsy or throws.  The commands already visited are
    returned as the callback left them. *)
Fixpoint every (f : command -> document -> completion bool * command * document)
    (ops : list command) (d : document)
    : completion bool * list command * document :=
  match ops with
  | [] => (Normal true, [], d)
  | op :: rest =>
      match f op d with
      | (Normal true, op', d') =>
          match every f rest d' with
          | (r, rest', d'') => (r, op' :: rest', d'')
          end
      | (r, op', d') => (r, op' :: rest, d')
      end
  end.

(** [command.execute()].  For a batch: [operations.every(op => op.execute())]. *)
Fixpoint run_execute (c : command) (d : document)
    : completion bool * command * document :=
  match c with
  | Command t st cap f =>
      match f_execute f cap d with
      | (r, cap', d') => (r, Command t st cap' f, d')
      end
  | BatchCommand ts ops =>
      let fix go (l : list command) (d : document) :=
        match l with
        | [] => (Normal true, [], d)
        | op :: rest =>
            match run_execute op d with
            | (Normal true, op', d') =>
                match go rest d' with
                | (r, rest', d'') => (r, op' :: rest', d'')
                end
            | (r, op', d') => (r, op' :: rest, d')
            end
        end in
      match go ops d with
      | (r, ops', d') => (r, BatchCommand ts ops', d')
      end
  end.

(** [command.undo()].  For a batch:
    [operations.reverse().every(op => op.undo())]; [reverse] reverses the
    captured array in place, so the array stays reversed afterwards.

    The recursion visits the array from its last element to its first and
    collects the visited commands in array order; the array left behind is
    the reverse of that (lemma [run_undo_batch] states this with [every]
    and [rev]). *)
Fixpoint run_undo (c : command) (d : document)
    : completion bool * command * document :=
  match c with
  | Command t st cap f =>
      match f_undo f cap d with
      | (r, cap', d') => (r, Command t st cap' f, d')
      end
  | BatchCommand ts ops =>
      let fix go (l : list command) (d : document) :=
        match l with
        | [] => (Normal true, [], d)
        | op :: rest =>
            match go rest d with
            | (Normal true, rest', d') =>
                match run_undo op d' with
                | (r, op', d'') => (r, op' :: rest', d'')
                end
            | (r, rest', d') => (r, op :: rest', d')
            end
        end in
      match go ops d with
      | (r, ops', d') => (r, BatchCommand ts (rev ops'), d')
      end
  end.

(** ** The undo/redo manager

    [setupKeyboardShortcuts], [setupStateTracking] and [handleMutation]
    connect the keyboard and the mutation observer to the methods below;
    they are not modelled. *)

(** Detail of a [historychange] event dispatched on the window. *)
Record historychange : Type := HistoryChange {
  ev_canUndo : bool;
  ev_canRedo : bool;
  ev_historySize : Z;
  ev_currentIndex : Z
}.

(** An open batch in [batchOperations]. *)
Record batch : Type := Batch {
  b_type : string;
  b_operations : list command;
  b_timestamp : Z
}.

Record snapshot : Type := Snapshot {
  historyIndex : Z;
  s_timestamp : Z
}.

(** The fields of an [UndoRedoManager] instance. *)
Record manager : Type := Manager {
  history : list command;
  currentIndex : Z;
  maxHistorySize : Z;
  batchOperations : gmap string batch;
  isRecording : bool;
  snapshots : gmap string snapshot;
  commandFactories : gmap string factory
}.

(** What the methods act on: the manager, the document and the events
    dispatched on the window so far. *)
Record world : Type := World {
  this : manager;
  dom : document;
  events : list historychange
}.

Definition set_history (h : list command) (m : manager) : manager :=
  Manager h (currentIndex m) (maxHistorySize m) (batchOperations m)
    (isRecording m) (snapshots m) (commandFactories m).

Definition set_currentIndex (i : Z) (m : manager) : manager :=
  Manager (history m) i (maxHistorySize m) (batchOperations m)
    (isRecording m) (snapshots m) (commandFactories m).

Definition set_maxHistorySize (n : Z) (m : manager) : manager :=
  Manager (history m) (currentIndex m) n (batchOperations m)
    (isRecording m) (snapshots m) (commandFactories m).

Definition set_batchOperations (b : gmap string batch) (m : manager) : manager :=
  Manager (history m) (currentIndex m) (maxHistorySize m) b
    (isRecording m) (snapshots m) (commandFactories m).

Definition set_snapshots (s : gmap string snapshot) (m : manager) : manager :=
  Manager (history m) (currentIndex m) (maxHistorySize m) (batchOperations m)
    (isRecording m) s (commandFactories m).

Definition set_commandFactories (f : gmap string factory) (m : manager) : manager :=
  Manager (history m) (currentIndex m) (maxHistorySize m) (batchOperations m)
    (isRecording m) (snapshots m) f.

Definition set_isRecording (b : bool) (m : manager) : manager :=
  Manager (history m) (currentIndex m) (maxHistorySize m) (batchOperations m)
    b (snapshots m) (commandFactories m).

(** [history.length] as a number. *)
Definition hlen (m : manager) : Z := Z.of_nat (length (history m)).

(** Array read [a[i]]: [undefined] outside the array, also for a negative
    index. *)
Definition at_index {A : Type} (a : list A) (i : Z) : option A :=
  if i <? 0 then None else a !! Z.to_nat i.

(** [a.splice(start)]: removes everything from [start] on; a negative
    [start] counts from the end of the array. *)
Definition splice_from {A : Type} (a : list A) (start : Z) : list A :=
  let len := Z.of_nat (length a) in
  let actual := if start <? 0 then Z.max (len + start) 0 else Z.min start len in
  take (Z.to_nat actual) a.

(** [a.shift()]: removes the first element; nothing happens on an empty
    array. *)
Definition shift {A : Type} (a : list A) : list A := drop 1 a.

Definition canUndo (m : manager) : bool := 0 <=? currentIndex m.

Definition canRedo (m : manager) : bool := currentIndex m <? hlen m - 1.

Definition notifyHistoryChange (w : world) : world :=
  let m := this w in
  World m (dom w)
    (events w ++ [HistoryChange (canUndo m) (canRedo m) (hlen m) (currentIndex m)]).

(** *** The command factories of [setupCommandFactories]

    Only [textEdit] is given in full: the other four factories
    ([styleChange], [elementAdd], [elementRemove], [attributeChange]) act on
    parts of the DOM (styles, the tree, attributes) that are not part of
    [document]; any of them is an instance of [factory]. *)

(** [element.textContent = v]: in strict code the assignment throws unless
    [element] is an object; on an object that is not an element it sets a
    plain property and the document is untouched. *)
Definition set_textContent (element v : jsval) (d : document)
    : completion unit * document :=
  match element with
  | VElem e => (Normal tt, <[e := to_text v]> d)
  | VObj _ => (Normal tt, d)
  | _ => (Throw, d)
  end.

Definition textEdit_execute : routine := fun state d =>
  match set_textContent (get state "element") (get state "newText") d with
  | (Normal _, d') => (Normal true, state, d')
  | (Throw, d') => (Throw, state, d')
  end.

Definition textEdit_undo : routine := fun state d =>
  match set_textContent (get state "element") (get state "oldText") d with
  | (Normal _, d') => (Normal true, state, d')
  | (Throw, d') => (Throw, state, d')
  end.

(** Combine consecutive text edits within 1 second:
    [{...newState, oldText: oldState.oldText}]. *)
Definition textEdit_combine (oldState newState : jsobj) : option jsobj :=
  if diff_lt (get newState "timestamp") (get oldState "timestamp") 1000
     && strict_eq (get oldState "element") (get newState "element")
  then Some (<["oldText" := get oldState "oldText"]> newState)
  else None.

Definition textEdit : factory :=
  Factory textEdit_execute textEdit_undo (Some textEdit_combine).

Definition registerCommand (type : string) (f : factory) (m : manager) : manager :=
  set_commandFactories (<[type := f]> (commandFactories m)) m.

(** The manager as the constructor leaves it, as far as the history is
    concerned ([setupCommandFactories] registers [textEdit]; see above for
    the other factories). *)
Definition constructor : manager :=
  registerCommand "textEdit" textEdit
    (Manager [] (-1) 100 ∅ false ∅ ∅).

(** [createCommand(type, state)]; [now] is the value of [Date.now()]. *)
Definition createCommand (type : string) (state : jsobj) (now : Z) (m : manager)
    : completion command :=
  match commandFactories m !! type with
  | None => Throw
  | Some f => Normal (Command type (<["timestamp" := VNum now]> state) state f)
  end.

(** The fusion test at the top of [execute]: [prevCommand] exists, has the
    type of [command], has a [combine], and [combine] returns an object. *)
Definition try_combine (prevCommand : option command) (c : command)
    : option (command * jsobj) :=
  match prevCommand with
  | None => None
  | Some prev =>
      if bool_decide (type_of prev = type_of c) then
        match combine_of prev with
        | None => None
        | Some combine =>
            match combine (state_of prev) (state_of c) with
            | Some combinedState => Some (prev, combinedState)
            | None => None
            end
        end
      else None
  end.

(** The three array manipulations of [execute], in the order in which the
    method has them. *)

(** Clear redo history when new command is executed. *)
Definition clear_redo (m : manager) : manager :=
  if currentIndex m <? hlen m - 1
  then set_history (splice_from (history m) (currentIndex m + 1)) m
  else m.

(** [this.history.push(command); this.currentIndex++]. *)
Definition push (c : command) (m : manager) : manager :=
  set_currentIndex (currentIndex m + 1) (set_history (history m ++ [c]) m).

(** Limit history size. *)
Definition limit_size (m : manager) : manager :=
  if maxHistorySize m <? hlen m
  then set_currentIndex (currentIndex m - 1) (set_history (shift (history m)) m)
  else m.

(** [execute(command)]. *)
Definition execute (c : command) (w : world) : completion unit * world :=
  let m1 := clear_redo (this w) in
  (* Try to combine with previous command *)
  match try_combine (at_index (history m1) (currentIndex m1)) c with
  | Some (prev, combinedState) =>
      let m2 :=
        set_history
          (<[Z.to_nat (currentIndex m1) := set_state prev combinedState]> (history m1))
          m1 in
      match run_execute c (dom w) with
      | (Normal _, _, d') => (Normal tt, World m2 d' (events w))
      | (Throw, _, d') => (Throw, World m2 d' (events w))
      end
  | None =>
      (* Execute and add to history *)
      match run_execute c (dom w) with
      | (Normal true, c', d') =>
          (Normal tt,
           notifyHistoryChange (World (limit_size (push c' m1)) d' (events w)))
      | (Normal false, _, d') => (Normal tt, World m1 d' (events w))
      | (Throw, _, d') => (Throw, World m1 d' (events w))
      end
  end.

(** [undo()].  The entry at the cursor is stored back as its [undo] routine
    left it, whatever the routine returned. *)
Definition undo (w : world) : completion bool * world :=
  let m := this w in
  if negb (canUndo m) then (Normal false, w)
  else
    match at_index (history m) (currentIndex m) with
    | None => (Throw, w)
    | Some c =>
        match run_undo c (dom w) with
        | (r, c', d') =>
            let m1 := set_history (<[Z.to_nat (currentIndex m) := c']> (history m)) m in
            match r with
            | Normal true =>
                (Normal true,
                 notifyHistoryChange
                   (World (set_currentIndex (currentIndex m - 1) m1) d' (events w)))
            | Normal false => (Normal false, World m1 d' (events w))
            | Throw => (Throw, World m1 d' (events w))
            end
        end
    end.

(** [redo()]. *)
Definition redo (w : world) : completion bool * world :=
  let m := this w in
  if negb (canRedo m) then (Normal false, w)
  else
    match at_index (history m) (currentIndex m + 1) with
    | None => (Throw, w)
    | Some c =>
        match run_execute c (dom w) with
        | (r, c', d') =>
            let m1 := set_history (<[Z.to_nat (currentIndex m + 1) := c']> (history m)) m in
            match r with
            | Normal true =>
                (Normal true,
                 notifyHistoryChange
                   (World (set_currentIndex (currentIndex m + 1) m1) d' (events w)))
            | Normal false => (Normal false, World m1 d' (events w))
            | Throw => (Throw, World m1 d' (events w))
            end
        end
    end.

(** *** Batches *)

(** [startBatch(batchId, type)]; [now] is the value of [Date.now()]. *)
Definition startBatch (batchId type : string) (now : Z) (m : manager) : manager :=
  set_batchOperations (<[batchId := Batch type [] now]> (batchOperations m)) m.

(** [addToBatch(batchId, command)]. *)
Definition addToBatch (batchId : string) (c : command) (m : manager) : manager :=
  match batchOperations m !! batchId with
  | Some b =>
      set_batchOperations
        (<[batchId := Batch (b_type b) (b_operations b ++ [c]) (b_timestamp b)]>
           (batchOperations m)) m
  | None => m
  end.

(** The table [batchTypes] of [setupBatchOperations], with the fallback
    [|| this.batchTypes.default] of [endBatch]: [drag] and [resize] keep the
    last operation only, every other type keeps the array as it is.  (Type
    names that are properties of [Object.prototype] are not modelled.) *)
Definition combiner (type : string) (operations : list command) : list command :=
  if bool_decide (type = "drag") || bool_decide (type = "resize")
  then match last operations with
       | Some op => [op]
       | None => []
       end
  else operations.

(** [createBatchCommand(operations)]; [now] is the value of [Date.now()]. *)
Definition createBatchCommand (operations : list command) (now : Z) : command :=
  BatchCommand now operations.

(** [endBatch(batchId)]. *)
Definition endBatch (batchId : string) (now : Z) (w : world) : completion unit * world :=
  match batchOperations (this w) !! batchId with
  | None => (Normal tt, w)
  | Some b =>
      let operations := combiner (b_type b) (b_operations b) in
      let forget (w' : world) :=
        World (set_batchOperations (delete batchId (batchOperations (this w'))) (this w'))
              (dom w') (events w') in
      if 0 <? Z.of_nat (length operations) then
        match execute (createBatchCommand operations now) w with
        | (Normal _, w') => (Normal tt, forget w')
        | (Throw, w') => (Throw, w')
        end
      else (Normal tt, forget w)
  end.

(** *** Snapshots *)

(** [createSnapshot()]; [snapshotId] is the identifier that
    [generateSnapshotId] makes from the clock and a random number. *)
Definition createSnapshot (snapshotId : string) (now : Z) (m : manager) : manager :=
  set_snapshots (<[snapshotId := Snapshot (currentIndex m) now]> (snapshots m)) m.

(** The two loops of [restoreSnapshot].  A loop that has not left after
    [fuel] iterations gives [None]. *)
Fixpoint undo_while (fuel : nat) (target : Z) (w : world)
    : option (completion unit * world) :=
  match fuel with
  | O => None
  | S fuel' =>
      if target <? currentIndex (this w) then
        match undo w with
        | (Normal _, w') => undo_while fuel' target w'
        | (Throw, w') => Some (Throw, w')
        end
      else Some (Normal tt, w)
  end.

Fixpoint redo_while (fuel : nat) (target : Z) (w : world)
    : option (completion unit * world) :=
  match fuel with
  | O => None
  | S fuel' =>
      if currentIndex (this w) <? target then
        match redo w with
        | (Normal _, w') => redo_while fuel' target w'
        | (Throw, w') => Some (Throw, w')
        end
      else Some (Normal tt, w)
  end.

(** [restoreSnapshot(snapshotId)]. *)
Definition restoreSnapshot (fuel : nat) (snapshotId : string) (w : world)
    : option (completion bool * world) :=
  match snapshots (this w) !! snapshotId with
  | None => Some (Normal false, w)
  | Some s =>
      match undo_while fuel (historyIndex s) w with
      | None => None
      | Some (Throw, w1) => Some (Throw, w1)
      | Some (Normal _, w1) =>
          match redo_while fuel (historyIndex s) w1 with
          | None => None
          | Some (Throw, w2) => Some (Throw, w2)
          | Some (Normal _, w2) => Some (Normal true, w2)
          end
      end
  end.

(** *** History maintenance *)

(** [a.slice(0, e)]: the elements before index [e]; a negative [e] counts
    from the end of the array. *)
Definition slice_to {A : Type} (a : list A) (e : Z) : list A :=
  let len := Z.of_nat (length a) in
  let final := if e <? 0 then Z.max (len + e) 0 else Z.min e len in
  take (Z.to_nat final) a.

(** [getHistory()]. *)
Definition getHistory (m : manager) : list command :=
  slice_to (history m) (currentIndex m + 1).

(** [clearHistory()]. *)
Definition clearHistory (w : world) : world :=
  notifyHistoryChange
    (World (set_currentIndex (-1) (set_history [] (this w))) (dom w) (events w)).

(** The loop of [setMaxHistorySize]; [None] when it has not left after
    [fuel] iterations. *)
Fixpoint shift_while (fuel : nat) (size : Z) (m : manager) : option manager :=
  match fuel with
  | O => None
  | S fuel' =>
      if size <? hlen m then
        shift_while fuel' size
          (set_currentIndex (currentIndex m - 1) (set_history (shift (history m)) m))
      else Some m
  end.

(** [setMaxHistorySize(size)]. *)
Definition setMaxHistorySize (fuel : nat) (size : Z) (m : manager) : option manager :=
  shift_while fuel size (set_maxHistorySize size m).

Definition startRecording (m : manager) : manager := set_isRecording true m.
Definition stopRecording (m : manager) : manager := set_isRecording false m.

(** ** The cursor of the history *)

(** The cursor lies inside the history or one place before its start. *)
Definition cursor_ok (m : manager) : Prop :=
  -1 <= currentIndex m < hlen m.

(** The cursor as the data model words it: inside the history, or [-1] and
    then exactly when there are no entries. *)
Definition cursor_strict (m : manager) : Prop :=
  (0 <= currentIndex m < hlen m) \/ (currentIndex m = -1 /\ history m = []).

(** *** Reachable states *)

Section Reachable.

(** Which calls [setMaxHistorySize(size)] are considered, given the
    manager they are made on. *)
Variable allowed : Z -> manager -> Prop.

(** One method call on the manager.  A call that throws still leaves the
    manager behind in the state it had reached. *)
Inductive step : world -> world -> Prop :=
  | step_execute c w r w' :
      execute c w = (r, w') -> step w w'
  | step_undo w r w' :
      undo w = (r, w') -> step w w'
  | step_redo w r w' :
      redo w = (r, w') -> step w w'
  | step_startBatch batchId type now w :
      step w (World (startBatch batchId type now (this w)) (dom w) (events w))
  | step_addToBatch batchId c w :
      step w (World (addToBatch batchId c (this w)) (dom w) (events w))
  | step_endBatch batchId now w r w' :
      endBatch batchId now w = (r, w') -> step w w'
  | step_clearHistory w :
      step w (clearHistory w)
  | step_setMaxHistorySize fuel size w m' :
      allowed size (this w) ->
      setMaxHistorySize fuel size (this w) = Some m' ->
      step w (World m' (dom w) (events w)).

(** A state reached from a freshly constructed manager, on any document. *)
Definition reachable (w : world) : Prop :=
  exists d, rtc step (World constructor d []) w.

End Reachable.

(** Every size. *)
Definition any_size : Z -> manager -> Prop := fun _ _ => True.

(** The sizes for which [setMaxHistorySize] drops applied entries only: the
    number of entries to drop is at most the number of entries up to the
    cursor. *)
Definition keeps_cursor : Z -> manager -> Prop :=
  fun size m => hlen m - size <= currentIndex m + 1.

(** ** Commands and states of the examples *)

(** The state object that [handleMutation] passes to [createCommand] for a
    change of the text of element [e]. *)
Definition text_state (e : nat) (old new : string) : jsobj :=
  <["element" := VElem e]> (<["newText" := VStr new]> {["oldText" := VStr old]}).

(** The [textEdit] command that [createCommand] builds from it at time
    [now]. *)
Definition textEditCommand (e : nat) (old new : string) (now : Z) : command :=
  Command "textEdit" (<["timestamp" := VNum now]> (text_state e old new))
    (text_state e old new) textEdit.

(** A text edit on element 0. *)
Definition edit (old new : string) (now : Z) : command :=
  textEditCommand 0 old new now.

(** The world after one edit has been executed and undone again. *)
Definition edited_and_undone : world :=
  snd (undo (snd (execute (edit "a" "b" 5) (World constructor {[0%nat := "a"]} [])))).

(** A custom factory whose [undo] refuses: [execute] does nothing and
    returns true, [undo] does nothing and returns false. *)
Definition stubborn : factory :=
  Factory (fun st d => (Normal true, st, d)) (fun st d => (Normal false, st, d)) None.

(** A custom factory whose [execute] works once: it succeeds while element
    1 has no text and marks the element, and returns false afterwards;
    [undo] returns true and leaves the mark. *)
Definition fragile : factory :=
  Factory
    (fun st d =>
       if bool_decide (textContent d 1 = "")
       then (Normal true, st, <[1%nat := "done"]> d)
       else (Normal false, st, d))
    (fun st d => (Normal true, st, d))
    None.

(** A world whose entry at the cursor refuses to be undone. *)
Definition stuck_undo : world :=
  snd (execute (Command "custom" ∅ ∅ stubborn) (World constructor ∅ [])).

(** A world whose entry after the cursor refuses to be executed again. *)
Definition stuck_redo : world :=
  snd (undo (snd (execute (Command "custom" ∅ ∅ fragile) (World constructor ∅ [])))).

(** The manager after [startBatch("g"); addToBatch("g", c1);
    addToBatch("g", c2)]. *)
Definition batch_of_two (c1 c2 : command) : manager :=
  addToBatch "g" c2 (addToBatch "g" c1 (startBatch "g" "default" 1 constructor)).

(** A batch of a command that cannot be undone and a text edit, closed. *)
Definition guarded_batch : world :=
  snd (endBatch "g" 3
         (World (batch_of_two (Command "custom" ∅ ∅ stubborn) (edit "a" "b" 2))
                {[0%nat := "a"]} [])).

(** A batch of a command that executes only once and a text edit, closed
    and undone. *)
Definition fragile_batch_undone : world :=
  snd (undo
    (snd (endBatch "g" 3
            (World (batch_of_two (Command "custom" ∅ ∅ fragile) (edit "a" "b" 2))
                   {[0%nat := "a"]} [])))).

(** A batch of two text edits on the same element, closed. *)
Definition two_edits_batch : world :=
  snd (endBatch "g" 3
         (World (batch_of_two (edit "" "a" 1) (edit "a" "b" 2)) ∅ [])).

(** The world after [n] calls of [undo()], and after [n] calls of
    [redo()]. *)
Fixpoint undo_times (n : nat) (w : world) : world :=
  match n with
  | O => w
  | S n' => undo_times n' (snd (undo w))
  end.

Fixpoint redo_times (n : nat) (w : world) : world :=
  match n with
  | O => w
  | S n' => redo_times n' (snd (redo w))
  end.

(** A manager with two entries and a snapshot taken after the first. *)
Definition snapshot_world : world :=
  let w1 := snd (execute (edit "a" "b" 5) (World constructor {[0%nat := "a"]} [])) in
  let w2 := World (createSnapshot "s" 6 (this w1)) (dom w1) (events w1) in
  snd (execute (edit "b" "c" 5000) w2).

(** A manager with a snapshot of an entry that a later [execute] has cut
    off: the recorded index lies beyond the history. *)
Definition stale_snapshot_world : world :=
  let w1 := snd (execute (edit "a" "b" 5) (World constructor {[0%nat := "a"]} [])) in
  let w2 := snd (execute (edit "b" "c" 5000) w1) in
  let w3 := World (createSnapshot "s" 5001 (this w2)) (dom w2) (events w2) in
  snd (execute (Command "custom" ∅ ∅ stubborn) (snd (undo (snd (undo w3))))).

(** A custom factory whose [undo] refuses once: while element 1 has no
    text it marks the element and returns false, afterwards it returns
    true; [execute] does nothing and returns true. *)
Definition reluctant : factory :=
  Factory
    (fun st d => (Normal true, st, d))
    (fun st d =>
       if bool_decide (textContent d 1 = "")
       then (Normal false, st, <[1%nat := "asked"]> d)
       else (Normal true, st, d))
    None.

(** A new manager with a snapshot of its empty history, and then one
    entry whose [undo] refuses once. *)
Definition reluctant_world : world :=
  snd (execute (Command "custom" ∅ ∅ reluctant)
         (World (createSnapshot "s" 1 constructor) ∅ [])).

(** ** The change synchronisation channel

    [CollaborationManager] and [OperationalTransform].  The methods
    [applyInsert], [applyDelete], [applyUpdate], [applyAttributeChange],
    [notifyChangeApplied], [requestResync] and [createChange] are called by
    the class but are not part of the sources. *)

(** One step of a path into the document tree: a child index or a key. *)
Inductive segment : Type :=
  | Index (i : Z)
  | Key (k : string).

#[global] Instance segment_eq_dec : EqDecision segment.
Proof. solve_decision. Defined.

(** A change (an operation on the document).  [applyChange] reads [type],
    [path], [value] and [attributes]; [author] and [localSeq] are the
    fields that the data model gives every operation, which no method of
    the class reads. *)
Record change : Type := Change {
  type : string;
  path : list segment;
  value : jsval;
  attributes : jsval;
  author : string;
  localSeq : Z
}.

(** An inbound [change] message [{change, author, version}]. *)
Record change_message : Type := ChangeMessage {
  m_change : change;
  m_author : string;
  version : Z
}.

(** The outbound message built by [sendChanges]. *)
Record change_set : Type := ChangeSet {
  cs_documentId : jsval;
  cs_changes : list change;
  cs_version : Z;
  cs_author : string
}.

(** [OperationalTransform.transform(change, pendingChanges)]. *)
Definition transform (c : change) (pendingChanges : list change) : change :=
  (* Implement OT logic here *)
  c.

(** [OperationalTransform.resolveTextConflict] and
    [resolveStructureConflict]. *)
Definition resolveTextConflict {A : Type} (local remote : A) : A := local.
Definition resolveStructureConflict {A : Type} (local remote : A) : A := local.

(** The methods that apply a change to a document of type [D]; they are
    taken as parameters, since the sources do not have them. *)
Record appliers (D : Type) : Type := Appliers {
  applyInsert : list segment -> jsval -> D -> completion unit * D;
  applyDelete : list segment -> D -> completion unit * D;
  applyUpdate : list segment -> jsval -> D -> completion unit * D;
  applyAttributeChange : list segment -> jsval -> D -> completion unit * D
}.
Arguments Appliers {D}.
Arguments applyInsert {D} _ _ _ _.
Arguments applyDelete {D} _ _ _.
Arguments applyUpdate {D} _ _ _ _.
Arguments applyAttributeChange {D} _ _ _ _.

(** The fields of a [CollaborationManager] that the change path uses, with
    the document and what has been handed to the outside.

    [pendingChanges] is a [Map] (its values are read in insertion order).
    [socketOpen] is [websocket.readyState === WebSocket.OPEN];
    [sent] the messages given to [websocket.send].

    Modelled from the spec: [requestResync] and [notifyChangeApplied] are
    not in the sources.  Of [requestResync] the spec says that a
    resynchronization is requested, and of the notification that the layer
    above is told of the applied change; here each call is recorded,
    [requestResync] with the outbound buffer as the call finds it. *)
Record client (D : Type) : Type := Client {
  changeBuffer : list change;
  lastSyncedVersion : Z;
  pendingChanges : list (Z * change);
  syncTimeout : bool;
  socketOpen : bool;
  documentId : jsval;
  currentUser : option string;
  sent : list change_set;
  doc : D;
  applied_notices : list change;
  resyncRequests : list (list change);
  consoleErrors : nat
}.
Arguments Client {D}.
Arguments changeBuffer {D}.
Arguments lastSyncedVersion {D}.
Arguments pendingChanges {D}.
Arguments syncTimeout {D}.
Arguments socketOpen {D}.
Arguments documentId {D}.
Arguments currentUser {D}.
Arguments sent {D}.
Arguments doc {D}.
Arguments applied_notices {D}.
Arguments resyncRequests {D}.
Arguments consoleErrors {D}.

Section SyncChannel.

Context {D : Type}.
Variable h : appliers D.

Definition set_changeBuffer (b : list change) (c : client D) : client D :=
  Client b (lastSyncedVersion c) (pendingChanges c) (syncTimeout c)
    (socketOpen c) (documentId c) (currentUser c) (sent c) (doc c)
    (applied_notices c) (resyncRequests c) (consoleErrors c).

Definition set_syncTimeout (t : bool) (c : client D) : client D :=
  Client (changeBuffer c) (lastSyncedVersion c) (pendingChanges c) t
    (socketOpen c) (documentId c) (currentUser c) (sent c) (doc c)
    (applied_notices c) (resyncRequests c) (consoleErrors c).

Definition set_socketOpen (o : bool) (c : client D) : client D :=
  Client (changeBuffer c) (lastSyncedVersion c) (pendingChanges c)
    (syncTimeout c) o (documentId c) (currentUser c) (sent c) (doc c)
    (applied_notices c) (resyncRequests c) (consoleErrors c).

(** [console.error(...)]. *)
Definition console_error (c : client D) : client D :=
  Client (changeBuffer c) (lastSyncedVersion c) (pendingChanges c)
    (syncTimeout c) (socketOpen c) (documentId c) (currentUser c) (sent c)
    (doc c) (applied_notices c) (resyncRequests c) (S (consoleErrors c)).

(** [requestResync()], recorded. *)
Definition requestResync (c : client D) : client D :=
  Client (changeBuffer c) (lastSyncedVersion c) (pendingChanges c)
    (syncTimeout c) (socketOpen c) (documentId c) (currentUser c) (sent c)
    (doc c) (applied_notices c) (resyncRequests c ++ [changeBuffer c])
    (consoleErrors c).

(** The state that [setupChangeTracking] and the constructor leave, on
    document [d]: the socket has been created and is not open yet. *)
Definition setupChangeTracking (d : D) : client D :=
  Client [] 0 [] false false VNull None [] d [] [] 0.

(** [connect(documentId, user)] once [initializeDocument] has fetched the
    document, whose version is [v]. *)
Definition connect (id : jsval) (user : string) (v : Z) (c : client D) : client D :=
  Client (changeBuffer c) v (pendingChanges c) (syncTimeout c)
    (socketOpen c) id (Some user) (sent c) (doc c)
    (applied_notices c) (resyncRequests c) (consoleErrors c).

(** [applyChange(change)]. *)
Definition applyChange (ch : change) (d : D) : completion unit * D :=
  if bool_decide (type ch = "insert") then applyInsert h (path ch) (value ch) d
  else if bool_decide (type ch = "delete") then applyDelete h (path ch) d
  else if bool_decide (type ch = "update") then applyUpdate h (path ch) (value ch) d
  else if bool_decide (type ch = "attribute")
       then applyAttributeChange h (path ch) (attributes ch) d
  else (Normal tt, d).

(** [handleRemoteChange(message)]. *)
Definition handleRemoteChange (message : change_message) (c : client D) : client D :=
  (* Transform change against any pending local changes *)
  let transformedChange :=
    transform (m_change message) (map snd (pendingChanges c)) in
  (* Apply the transformed change *)
  match applyChange transformedChange (doc c) with
  | (Normal _, d') =>
      (* Update version, notify listeners *)
      Client (changeBuffer c) (version message) (pendingChanges c)
        (syncTimeout c) (socketOpen c) (documentId c) (currentUser c) (sent c)
        d' (applied_notices c ++ [transformedChange]) (resyncRequests c)
        (consoleErrors c)
  | (Throw, d') =>
      requestResync
        (console_error
           (Client (changeBuffer c) (lastSyncedVersion c) (pendingChanges c)
              (syncTimeout c) (socketOpen c) (documentId c) (currentUser c)
              (sent c) d' (applied_notices c) (resyncRequests c)
              (consoleErrors c)))
  end.

(** [scheduleSyncChanges()]: arms the timer unless it is armed. *)
Definition scheduleSyncChanges (c : client D) : client D :=
  if syncTimeout c then c else set_syncTimeout true c.

(** [queueChanges(changes)]. *)
Definition queueChanges (changes : list change) (c : client D) : client D :=
  scheduleSyncChanges (set_changeBuffer (changeBuffer c ++ changes) c).

(** [sendMessage(message)]: the promise is resolved ([Normal]) or
    rejected ([Throw]). *)
Definition sendMessage (message : change_set) (c : client D)
    : completion unit * client D :=
  if socketOpen c then
    (Normal tt,
     Client (changeBuffer c) (lastSyncedVersion c) (pendingChanges c)
       (syncTimeout c) (socketOpen c) (documentId c) (currentUser c)
       (sent c ++ [message]) (doc c) (applied_notices c) (resyncRequests c)
       (consoleErrors c))
  else (Throw, c).

(** [sendChanges(changes)]; reading [this.currentUser.id] throws when
    there is no current user. *)
Definition sendChanges (changes : list change) (c : client D)
    : completion unit * client D :=
  match currentUser c with
  | None => (Throw, c)
  | Some user =>
      sendMessage (ChangeSet (documentId c) changes (lastSyncedVersion c) user) c
  end.

(** The calls [queueChanges(q)] made, one after the other, while
    [syncChanges] waits for [sendChanges]. *)
Definition queued_meanwhile (meantime : list (list change)) (c : client D) : client D :=
  foldl (fun c q => queueChanges q c) c meantime.

(** [syncChanges()].  The method waits for [sendChanges] before it
    handles a failure; [meantime] are the calls of [queueChanges] made
    while it waits. *)
Definition syncChanges (meantime : list (list change)) (c : client D) : client D :=
  match changeBuffer c with
  | [] => c
  | _ :: _ =>
      let changes := changeBuffer c in
      let c1 := set_changeBuffer [] c in
      match sendChanges changes c1 with
      | (Normal _, c2) => queued_meanwhile meantime c2
      | (Throw, c2) =>
          let c3 := console_error (queued_meanwhile meantime c2) in
          requestResync (set_changeBuffer (changes ++ changeBuffer c3) c3)
      end
  end.

(** The callback of the timer armed by [scheduleSyncChanges]:
    [this.syncChanges(); this.syncTimeout = null]. *)
Definition syncTimeout_fires (meantime : list (list change)) (c : client D) : client D :=
  syncChanges meantime (set_syncTimeout false c).

(** One event on the client. *)
Inductive sync_step : client D -> client D -> Prop :=
  | sync_connect id user v c :
      sync_step c (connect id user v c)
  | sync_socket o c :
      sync_step c (set_socketOpen o c)
  | sync_queueChanges changes c :
      sync_step c (queueChanges changes c)
  | sync_syncChanges meantime c :
      sync_step c (syncTimeout_fires meantime c)
  | sync_handleRemoteChange message c :
      sync_step c (handleRemoteChange message c).

Definition sync_reachable (c : client D) : Prop :=
  exists d, rtc sync_step (setupChangeTracking d) c.

End SyncChannel.

(** Appliers that record each call: the name of the method, the path and
    the value it was called with. *)
Definition recording : appliers (list (string * list segment * jsval)%type) :=
  Appliers
    (fun p v d => (Normal tt, d ++ [("applyInsert", p, v)]))
    (fun p d => (Normal tt, d ++ [("applyDelete", p, VUndef)]))
    (fun p v d => (Normal tt, d ++ [("applyUpdate", p, v)]))
    (fun p a d => (Normal tt, d ++ [("applyAttributeChange", p, a)])).

(** Modelled from the spec: [applyInsert], [applyDelete], [applyUpdate] and
    [applyAttributeChange] are not in the sources.  The document is the
    list of the children of the root and a path [[i]] names the child at
    index [i]: an insert puts the node at that index, a delete removes the
    child, an update replaces it, an attribute change leaves the list as it
    is; a path that names no such place makes the method throw. *)
Definition siblings : appliers (list jsval) :=
  Appliers
    (fun p v d =>
       match p with
       | [Index i] =>
           if (0 <=? i) && (i <=? Z.of_nat (length d))
           then (Normal tt, take (Z.to_nat i) d ++ v :: drop (Z.to_nat i) d)
           else (Throw, d)
       | _ => (Throw, d)
       end)
    (fun p d =>
       match p with
       | [Index i] =>
           if (0 <=? i) && (i <? Z.of_nat (length d))
           then (Normal tt, take (Z.to_nat i) d ++ drop (S (Z.to_nat i)) d)
           else (Throw, d)
       | _ => (Throw, d)
       end)
    (fun p v d =>
       match p with
       | [Index i] =>
           if (0 <=? i) && (i <? Z.of_nat (length d))
           then (Normal tt, <[Z.to_nat i := v]> d)
           else (Throw, d)
       | _ => (Throw, d)
       end)
    (fun p a d => (Normal tt, d)).

(** The three notions below word the transform rules of the
    specification; no method of the class computes them.

    The order on operations: by author, then by [localSeq]. *)
Definition key_lt (a b : change) : bool :=
  String.ltb (author a) (author b)
  || (String.eqb (author a) (author b) && (localSeq a <? localSeq b)).

(** A path whose last index is moved up by [k]. *)
Fixpoint shift_index (p : list segment) (k : Z) : list segment :=
  match p with
  | [] => []
  | [Index i] => [Index (i + k)]
  | s :: rest => s :: shift_index rest k
  end.

(** [a] is an ancestor of [b] or the same place. *)
Definition ancestor_or_equal (a b : list segment) : bool :=
  bool_decide (take (length a) b = a).

(** The operations of the two scenarios. *)
Definition insertX : change := Change "insert" [Index 0] (VStr "X") VUndef "A" 1.
Definition insertY : change := Change "insert" [Index 0] (VStr "Y") VUndef "B" 1.
Definition delete2 : change := Change "delete" [Index 2] VUndef VUndef "A" 1.
Definition updateColor : change :=
  Change "update" [Index 2; Key "attributes"; Key "color"] (VStr "red") VUndef "B" 1.

(** A client of user [user] on document [d], connected at version 0 with
    an open socket, that has made the local changes [local] and sent them. *)
Definition working_client {D : Type} (user : string) (d : D) (local : list change)
    : client D :=
  syncTimeout_fires []
    (queueChanges local
       (set_socketOpen true (connect (VStr "doc") user 0 (setupChangeTracking d)))).

(** The same client before its socket has opened. *)
Definition offline_client {D : Type} (user : string) (d : D) (local : list change)
    : client D :=
  queueChanges local (connect (VStr "doc") user 0 (setupChangeTracking d)).

(** A connected client with an open socket whose local changes [local] are
    still in the outbound buffer. *)
Definition online_client {D : Type} (user : string) (d : D) (local : list change)
    : client D :=
  queueChanges local
    (set_socketOpen true (connect (VStr "doc") user 0 (setupChangeTracking d))).

(** Two local operations of one client, numbered 4 and 5. *)
Definition update4 : change := Change "update" [Index 0] (VStr "four") VUndef "B" 4.
Definition update5 : change := Change "update" [Index 0] (VStr "five") VUndef "B" 5.

(** ** More states of the examples, and the bound on the history *)

(** The history holds at most [maxHistorySize] entries. *)
Definition history_bounded (m : manager) : Prop :=
  0 <= maxHistorySize m /\ hlen m <= maxHistorySize m.

(** A custom factory whose [execute] refuses: it does nothing and returns
    false. *)
Definition refusing : factory :=
  Factory (fun st d => (Normal false, st, d)) (fun st d => (Normal true, st, d)) None.

(** The world after one edit has been executed. *)
Definition edited : world :=
  snd (execute (edit "a" "b" 5) (World constructor {[0%nat := "a"]} [])).

(** The same world after [createSnapshot()] and then [clearHistory()]. *)
Definition cleared_after_snapshot : world :=
  clearHistory (World (createSnapshot "s" 6 (this edited)) (dom edited) (events edited)).

(** An open batch of type [drag] with two edits of element 0. *)
Definition drag_batch : world :=
  World
    (addToBatch "g" (edit "a" "c" 2)
       (addToBatch "g" (edit "a" "b" 1) (startBatch "g" "drag" 0 constructor)))
    {[0%nat := "a"]} [].

(** An open batch whose only command throws when it is executed: a text
    edit without an element. *)
Definition throwing_batch : world :=
  World
    (addToBatch "g" (Command "textEdit" ∅ ∅ textEdit)
       (startBatch "g" "default" 0 constructor))
    ∅ [].

(** A snapshot taken on the edit "a" to "b"; then that edit is undone and
    the edit "a" to "z" is executed in its place. *)
Definition replaced_after_snapshot : world :=
  let w1 := World (createSnapshot "s" 6 (this edited)) (dom edited) (events edited) in
  snd (execute (edit "a" "z" 9000) (snd (undo w1))).

(** ** Runs of the change synchronisation channel *)

(** What can happen to a client, as in [sync_step]. *)
Inductive sync_event : Type :=
  | Connected (id : jsval) (user : string) (v : Z)
  | SocketState (o : bool)
  | Queued (changes : list change)
  | TimerFired (meantime : list (list change))
  | Received (message : change_message).

(** The client after the events [es], with the changes that
    [queueChanges] was given on the way, in the order of the calls.  (The
    calls of [meantime] are made only when [syncChanges] has something to
    send and therefore waits.) *)
Fixpoint run_events {D : Type} (h : appliers D) (es : list sync_event) (c : client D)
    : client D * list change :=
  match es with
  | [] => (c, [])
  | e :: rest =>
      let '(c1, q1) :=
        match e with
        | Connected id user v => (connect id user v c, [])
        | SocketState o => (set_socketOpen o c, [])
        | Queued changes => (queueChanges changes c, changes)
        | TimerFired meantime =>
            (syncTimeout_fires meantime c,
             match changeBuffer c with
             | [] => []
             | _ :: _ => concat meantime
             end)
        | Received message => (handleRemoteChange h message c, [])
        end in
      let '(c2, q2) := run_events h rest c1 in
      (c2, q1 ++ q2)
  end.

(** The local changes on their way out: those of the messages sent,
    followed by those still in the buffer. *)
Definition outbound {D : Type} (c : client D) : list change :=
  concat (cs_changes <$> sent c) ++ changeBuffer c.

(** ** The state manager

    [StateManager] (file ComponentCommunicationManager.js): the registry of
    components with its history of snapshots.

    The component objects live in a store and the [Map] of components, like
    every snapshot made of it, holds references into that store: a snapshot
    is made with [Array.from(map.entries())], which copies the entries, not
    the objects.

    The callbacks registered with [addObserver] are code of the callers;
    each call of one is recorded, and a callback is taken to return and not
    to call the manager in turn.  [copy] and [paste] (which go through
    [JSON]), [persistState], [recoverState] and the two [handle...]
    methods, which call methods that the sources do not have, are not
    modelled. *)
Module StateManager.

(** A [Map] from values to references, as the list of its entries in
    insertion order. *)
Abbreviation entries := (list (jsval * nat)).

(** [map.get(k)]. *)
Fixpoint map_get (k : jsval) (m : entries) : option nat :=
  match m with
  | [] => None
  | (k', v) :: rest => if bool_decide (k' = k) then Some v else map_get k rest
  end.

(** [map.set(k, v)]: a key already there keeps its place. *)
Fixpoint map_set (k : jsval) (v : nat) (m : entries) : entries :=
  match m with
  | [] => [(k, v)]
  | (k', v') :: rest =>
      if bool_decide (k' = k) then (k, v) :: rest else (k', v') :: map_set k v rest
  end.

(** [map.delete(k)]. *)
Fixpoint map_delete (k : jsval) (m : entries) : entries :=
  match m with
  | [] => []
  | (k', v') :: rest =>
      if bool_decide (k' = k) then rest else (k', v') :: map_delete k rest
  end.

(** [new Map(entries)]. *)
Definition map_of_entries (l : entries) : entries :=
  foldl (fun m e => map_set (fst e) (snd e) m) [] l.

(** The value of [state.components].  The object literal of the
    constructor names the property [components] twice, first with
    [new Map()] and then with the object [{registry, errors, performance}];
    the second value is the one the property gets.  [restoreState] stores a
    [Map]. *)
Inductive components_value : Type :=
  | ComponentsObject
  | ComponentsMap (m : entries).

Record canvas_value : Type := Canvas {
  width : Z;
  height : Z;
  scale : Z
}.

(** What [serializeState] returns. *)
Record serialized : Type := Serialized {
  s_components : entries;
  s_selectedComponent : jsval;
  s_canvas : canvas_value
}.

(** The action objects that the component methods pass to [saveState]. *)
Record action : Type := Action {
  a_type : string;
  a_componentId : jsval;
  a_updates : option jsobj
}.

Record stateSnapshot : Type := StateSnapshot {
  timestamp : Z;
  action_of : action;
  state : serialized
}.

(** The fields of a [StateManager] (of [this.state], the three that the
    methods below use), the store of component objects, and the calls of
    observers made so far (event and callback). *)
Record manager : Type := Manager {
  components : components_value;
  selectedComponent : jsval;
  canvas : canvas_value;
  history : list stateSnapshot;
  currentHistoryIndex : Z;
  maxHistoryStates : Z;
  observers : gmap string (list nat);
  objects : gmap nat jsobj;
  calls : list (string * nat)
}.

(** The manager that the constructor returns, beside the component objects
    [objs] that exist. *)
Definition constructor (objs : gmap nat jsobj) : manager :=
  Manager ComponentsObject VNull (Canvas 375 667 1) [] (-1) 50 ∅ objs [].

Definition set_components (c : components_value) (s : manager) : manager :=
  Manager c (selectedComponent s) (canvas s) (history s) (currentHistoryIndex s)
    (maxHistoryStates s) (observers s) (objects s) (calls s).

Definition set_cursor (h : list stateSnapshot) (i : Z) (s : manager) : manager :=
  Manager (components s) (selectedComponent s) (canvas s) h i
    (maxHistoryStates s) (observers s) (objects s) (calls s).

(** [addObserver(event, callback)]: the callbacks of an event are a [Set]. *)
Definition addObserver (event : string) (callback : nat) (s : manager) : manager :=
  let set := default [] (observers s !! event) in
  let set' := if bool_decide (callback ∈ set) then set else set ++ [callback] in
  Manager (components s) (selectedComponent s) (canvas s) (history s)
    (currentHistoryIndex s) (maxHistoryStates s)
    (<[event := set']> (observers s)) (objects s) (calls s).

(** [removeObserver(event, callback)]. *)
Definition removeObserver (event : string) (callback : nat) (s : manager) : manager :=
  match observers s !! event with
  | None => s
  | Some set =>
      Manager (components s) (selectedComponent s) (canvas s) (history s)
        (currentHistoryIndex s) (maxHistoryStates s)
        (<[event := filter (fun cb => cb <> callback) set]> (observers s))
        (objects s) (calls s)
  end.

(** [notifyObservers(event, data)]: every callback of the event is called. *)
Definition notifyObservers (event : string) (s : manager) : manager :=
  Manager (components s) (selectedComponent s) (canvas s) (history s)
    (currentHistoryIndex s) (maxHistoryStates s) (observers s) (objects s)
    (calls s ++ ((fun cb => (event, cb)) <$> default [] (observers s !! event))).

(** [serializeState()]: [this.state.components.entries] is not a function
    unless [components] is a [Map]. *)
Definition serializeState (s : manager) : completion serialized :=
  match components s with
  | ComponentsObject => Throw
  | ComponentsMap m => Normal (Serialized m (selectedComponent s) (canvas s))
  end.

(** [saveState(action)]; [now] is the value of [Date.now()]. *)
Definition saveState (a : action) (now : Z) (s : manager) : completion unit * manager :=
  match serializeState s with
  | Throw => (Throw, s)
  | Normal ser =>
      let stateSnapshot := StateSnapshot now a ser in
      (* Remove any future states if we're not at the latest state *)
      let h1 :=
        if currentHistoryIndex s <? Z.of_nat (length (history s)) - 1
        then slice_to (history s) (currentHistoryIndex s + 1)
        else history s in
      (* Add new state *)
      let h2 := h1 ++ [stateSnapshot] in
      let i2 := currentHistoryIndex s + 1 in
      (* Limit history size *)
      let s3 :=
        if maxHistoryStates s <? Z.of_nat (length h2)
        then set_cursor (shift h2) (i2 - 1) s
        else set_cursor h2 i2 s in
      (Normal tt, notifyObservers "stateChanged" s3)
  end.

(** [restoreState(stateSnapshot)]. *)
Definition restoreState (snap : stateSnapshot) (s : manager) : manager :=
  let restoredState := state snap in
  notifyObservers "stateRestored"
    (Manager (ComponentsMap (map_of_entries (s_components restoredState)))
       (s_selectedComponent restoredState) (s_canvas restoredState)
       (history s) (currentHistoryIndex s) (maxHistoryStates s)
       (observers s) (objects s) (calls s)).

(** [undo()]; reading [.state] of a missing entry throws. *)
Definition undo (s : manager) : completion unit * manager :=
  if 0 <? currentHistoryIndex s then
    let s1 := set_cursor (history s) (currentHistoryIndex s - 1) s in
    match at_index (history s1) (currentHistoryIndex s1) with
    | None => (Throw, s1)
    | Some snap => (Normal tt, notifyObservers "undo" (restoreState snap s1))
    end
  else (Normal tt, s).

(** [redo()]. *)
Definition redo (s : manager) : completion unit * manager :=
  if currentHistoryIndex s <? Z.of_nat (length (history s)) - 1 then
    let s1 := set_cursor (history s) (currentHistoryIndex s + 1) s in
    match at_index (history s1) (currentHistoryIndex s1) with
    | None => (Throw, s1)
    | Some snap => (Normal tt, notifyObservers "redo" (restoreState snap s1))
    end
  else (Normal tt, s).

(** The fields of the component object at reference [r]. *)
Definition object_at (s : manager) (r : nat) : jsobj := default ∅ (objects s !! r).

(** [addComponent(component)], for the component object at reference [r]. *)
Definition addComponent (r : nat) (now : Z) (s : manager) : completion unit * manager :=
  match components s with
  | ComponentsObject => (Throw, s)
  | ComponentsMap m =>
      let id := get (object_at s r) "id" in
      let s1 := set_components (ComponentsMap (map_set id r m)) s in
      match saveState (Action "ADD_COMPONENT" id None) now s1 with
      | (Normal _, s2) => (Normal tt, notifyObservers "componentAdded" s2)
      | (Throw, s2) => (Throw, s2)
      end
  end.

(** [updateComponent(componentId, updates)]: [Object.assign] writes the
    updates into the component object itself. *)
Definition updateComponent (componentId : jsval) (updates : jsobj) (now : Z)
    (s : manager) : completion unit * manager :=
  match components s with
  | ComponentsObject => (Throw, s)
  | ComponentsMap m =>
      match map_get componentId m with
      | None => (Normal tt, s)
      | Some r =>
          let s1 :=
            Manager (components s) (selectedComponent s) (canvas s) (history s)
              (currentHistoryIndex s) (maxHistoryStates s) (observers s)
              (<[r := updates ∪ object_at s r]> (objects s)) (calls s) in
          match saveState (Action "UPDATE_COMPONENT" componentId (Some updates)) now s1 with
          | (Normal _, s2) => (Normal tt, notifyObservers "componentUpdated" s2)
          | (Throw, s2) => (Throw, s2)
          end
      end
  end.

(** [deleteComponent(componentId)]. *)
Definition deleteComponent (componentId : jsval) (now : Z) (s : manager)
    : completion unit * manager :=
  match components s with
  | ComponentsObject => (Throw, s)
  | ComponentsMap m =>
      match map_get componentId m with
      | None => (Normal tt, s)
      | Some _ =>
          let s1 := set_components (ComponentsMap (map_delete componentId m)) s in
          match saveState (Action "DELETE_COMPONENT" componentId None) now s1 with
          | (Normal _, s2) => (Normal tt, notifyObservers "componentDeleted" s2)
          | (Throw, s2) => (Throw, s2)
          end
      end
  end.

(** [setSelectedComponent(componentId)]. *)
Definition setSelectedComponent (componentId : jsval) (s : manager) : manager :=
  notifyObservers "selectionChanged"
    (Manager (components s) componentId (canvas s) (history s)
       (currentHistoryIndex s) (maxHistoryStates s) (observers s) (objects s) (calls s)).

(** One call of a method of the manager; [with_restore] tells whether
    callers may hand snapshots of their own to [restoreState]. *)
Inductive step (with_restore : bool) : manager -> manager -> Prop :=
  | step_saveState a now s :
      step with_restore s (snd (saveState a now s))
  | step_undo s :
      step with_restore s (snd (undo s))
  | step_redo s :
      step with_restore s (snd (redo s))
  | step_addComponent r now s :
      step with_restore s (snd (addComponent r now s))
  | step_updateComponent id updates now s :
      step with_restore s (snd (updateComponent id updates now s))
  | step_deleteComponent id now s :
      step with_restore s (snd (deleteComponent id now s))
  | step_setSelectedComponent id s :
      step with_restore s (setSelectedComponent id s)
  | step_addObserver event cb s :
      step with_restore s (addObserver event cb s)
  | step_removeObserver event cb s :
      step with_restore s (removeObserver event cb s)
  | step_restoreState snap s :
      with_restore = true ->
      step with_restore s (restoreState snap s).

Definition reachable (with_restore : bool) (s : manager) : Prop :=
  exists objs, rtc (step with_restore) (constructor objs) s.

(** The history has at most [maxHistoryStates] entries, 50 of them, and the
    cursor is on one of them or at -1. *)
Definition history_ok (s : manager) : Prop :=
  maxHistoryStates s = 50 /\
  Z.of_nat (length (history s)) <= 50 /\
  -1 <= currentHistoryIndex s < Z.of_nat (length (history s)).

(** A manager with a [Map] of one component (object 0, with id "c1"), as
    [restoreState] leaves it when it is given such a snapshot. *)
Definition restored : manager :=
  restoreState
    (StateSnapshot 0 (Action "INIT" VUndef None)
       (Serialized [(VStr "c1", 0%nat)] VNull (Canvas 375 667 1)))
    (constructor {[0%nat := {["id" := VStr "c1"]} : jsobj;
                   1%nat := {["id" := VStr "c2"]} : jsobj]}).

(** The same manager after [saveState]: its history has one snapshot. *)
Definition saved : manager :=
  snd (saveState (Action "INIT" VUndef None) 1 restored).

End StateManager.

(** ** The message broker

    [ComponentCommunicationManager] (file ComponentCommunicationManager.js):
    the registry of components with their relationships, the delivery of
    messages and the channels.

    A component instance is code of the callers.  Of an instance the
    model keeps the element it is attached to and whether its
    [handleMessage] throws; every call of [handleMessage] is recorded with
    the message it was given, and a [handleMessage] is taken not to call
    the manager in turn.  The class has no method [handleMessageError], so
    the call of it in [deliverMessage] throws.  The event bus
    ([addEventListener], [removeEventListener], [handleDelegatedEvent]) and
    the discovery of components in the page ([discoverComponents],
    [removeComponents]) are not modelled. *)
Module ComponentCommunication.

(** A [Map] with string keys, as the list of its entries in insertion
    order.  The four functions agree with [Map] on lists without repeated
    keys, which are the only ones they produce from such lists. *)
Section Maps.

Context {V : Type}.

(** [map.get(k)]. *)
Fixpoint map_get (k : string) (m : list (string * V)) : option V :=
  match m with
  | [] => None
  | (k', v) :: rest => if bool_decide (k' = k) then Some v else map_get k rest
  end.

(** [map.set(k, v)]: a key already there keeps its place. *)
Fixpoint map_set (k : string) (v : V) (m : list (string * V)) : list (string * V) :=
  match m with
  | [] => [(k, v)]
  | (k', v') :: rest =>
      if bool_decide (k' = k) then (k, v) :: rest else (k', v') :: map_set k v rest
  end.

(** [map.delete(k)]. *)
Definition map_delete (k : string) (m : list (string * V)) : list (string * V) :=
  filter (fun e => fst e <> k) m.

(** A write into the object stored under [k], if there is one. *)
Fixpoint map_update (k : string) (f : V -> V) (m : list (string * V))
    : list (string * V) :=
  match m with
  | [] => []
  | (k', v) :: rest =>
      if bool_decide (k' = k) then (k', f v) :: rest
      else (k', v) :: map_update k f rest
  end.

End Maps.

(** A [Set] of strings, as the list of its elements in insertion order. *)
Definition set_add (x : string) (s : list string) : list string :=
  if bool_decide (x ∈ s) then s else s ++ [x].

Definition set_delete (x : string) (s : list string) : list string :=
  filter (fun y => y <> x) s.

Record relationships : Type := Relationships {
  parent : option string;
  children : list string;
  siblings : list string
}.

(** What the model keeps of a component instance. *)
Record instance : Type := Instance {
  element : option nat;
  faulty : bool
}.

(** An entry of [components]. *)
Record component : Type := Component {
  instance_of : instance;
  config : jsval;
  relationships_of : relationships;
  subscriptions : list string;
  state : string
}.

(** A message object as [sendMessage] builds it; [broadcast] adds the
    flag. *)
Record message : Type := Message {
  id : string;
  from : string;
  to : option string;
  channel : string;
  data : jsval;
  type : jsval;
  timestamp : Z;
  is_broadcast : bool
}.

(** What a caller gives to [sendMessage]: [{to, channel, data, type}]. *)
Record request : Type := Request {
  r_to : option string;
  r_channel : option string;
  r_data : jsval;
  r_type : jsval
}.

(** An entry of [channels]; a subscriber is the object
    [{componentId, handler}]. *)
Record channel_value : Type := Channel {
  name : string;
  subscribers : list (string * nat);
  persistent : bool;
  ordered : bool;
  messageHistory : list message
}.

(** The fields of the manager, with the calls of [handleMessage]
    ([delivered]: the receiving component and the message) and the number
    of calls of [console.error].  A key of [messageQueue] is the [to] of a
    message, which may be missing. *)
Record manager : Type := Manager {
  components : list (string * component);
  channels : gmap string channel_value;
  messageQueue : gmap (option string) (list message);
  delivered : list (string * message);
  consoleErrors : nat
}.

(** The page, as far as [detectRelationships] reads it: the parent element
    of an element and the child elements of an element. *)
Record page : Type := Page {
  parentElement : gmap nat nat;
  childElements : gmap nat (list nat)
}.

Definition set_components (c : list (string * component)) (b : manager) : manager :=
  Manager c (channels b) (messageQueue b) (delivered b) (consoleErrors b).

Definition set_channels (c : gmap string channel_value) (b : manager) : manager :=
  Manager (components b) c (messageQueue b) (delivered b) (consoleErrors b).

Definition set_messageQueue (q : gmap (option string) (list message)) (b : manager) : manager :=
  Manager (components b) (channels b) q (delivered b) (consoleErrors b).

(** [createChannel(channelName, config)], for a [config] that may set
    [persistent] and [ordered]. *)
Definition createChannel (channelName : string) (p o : option bool) (b : manager)
    : manager :=
  match channels b !! channelName with
  | Some _ => b
  | None =>
      set_channels
        (<[channelName := Channel channelName [] (default false p) (default true o) []]>
           (channels b)) b
  end.

(** The manager that the constructor returns: [setupMessageBroker] and
    [setupChannels] have created the seven channels. *)
Definition constructor : manager :=
  createChannel "broadcast" None None
    (createChannel "sibling" None None
       (createChannel "parent-child" None None
          (createChannel "data" None None
             (createChannel "ui" None None
                (createChannel "system" None None
                   (createChannel "global" None None
                      (Manager [] ∅ ∅ [] 0))))))).

(** [subscribeToChannel(componentId, channelName, handler)]: the
    subscriber object is new each time, so the [Set] takes it. *)
Definition subscribeToChannel (componentId channelName : string) (handler : nat)
    (b : manager) : bool * manager :=
  match channels b !! channelName with
  | None => (false, b)
  | Some ch =>
      let ch' := Channel (name ch) (subscribers ch ++ [(componentId, handler)])
                   (persistent ch) (ordered ch) (messageHistory ch) in
      (true,
       Manager
         (map_update componentId
            (fun c => Component (instance_of c) (config c) (relationships_of c)
                        (set_add channelName (subscriptions c)) (state c))
            (components b))
         (<[channelName := ch']> (channels b))
         (messageQueue b) (delivered b) (consoleErrors b))
  end.

(** [unsubscribeFromChannel(componentId, channelName)]. *)
Definition unsubscribeFromChannel (componentId channelName : string) (b : manager)
    : manager :=
  match channels b !! channelName with
  | None => b
  | Some ch =>
      let ch' := Channel (name ch)
                   (filter (fun sub => fst sub <> componentId) (subscribers ch))
                   (persistent ch) (ordered ch) (messageHistory ch) in
      Manager
        (map_update componentId
           (fun c => Component (instance_of c) (config c) (relationships_of c)
                       (set_delete channelName (subscriptions c)) (state c))
           (components b))
        (<[channelName := ch']> (channels b))
        (messageQueue b) (delivered b) (consoleErrors b)
  end.

(** [console.error(...)]. *)
Definition console_error (b : manager) : manager :=
  Manager (components b) (channels b) (messageQueue b) (delivered b)
    (S (consoleErrors b)).

(** [queueMessage(message)]. *)
Definition queueMessage (m : message) (b : manager) : manager :=
  set_messageQueue
    (<[to m := default [] (messageQueue b !! to m) ++ [m]]> (messageQueue b)) b.

(** [component.instance.handleMessage(message)]. *)
Definition handleMessage (target : string) (c : component) (m : message) (b : manager)
    : completion unit * manager :=
  let b' := Manager (components b) (channels b) (messageQueue b)
              (delivered b ++ [(target, m)]) (consoleErrors b) in
  if faulty (instance_of c) then (Throw, b') else (Normal tt, b').

(** [this.components.get(message.to)]: the keys of [components] are
    strings. *)
Definition target_of (m : message) (b : manager) : option (string * component) :=
  match to m with
  | Some recipient =>
      match map_get recipient (components b) with
      | Some c => Some (recipient, c)
      | None => None
      end
  | None => None
  end.

(** [deliverMessage(message)]; in the [catch] block the call of
    [this.handleMessageError], which is not a function, throws. *)
Definition deliverMessage (m : message) (b : manager) : completion unit * manager :=
  match target_of m b with
  | None => (Normal tt, queueMessage m b)
  | Some (recipient, targetComponent) =>
      match handleMessage recipient targetComponent m b with
      | (Normal _, b') => (Normal tt, b')
      | (Throw, b') => (Throw, console_error b')
      end
  end.

(** [broadcast(fromId, message)]. *)
Definition broadcast (fromId : string) (m : message) (b : manager) : manager :=
  foldl
    (fun b entry =>
       if bool_decide (fst entry <> fromId) then
         let m' := Message (id m) fromId (to m) (channel m) (data m) (type m)
                     (timestamp m) true in
         match handleMessage (fst entry) (snd entry) m' b with
         | (Normal _, b') => b'
         | (Throw, b') => console_error b'
         end
       else b)
    b (components b).

(** A string or [null] that counts as true: a string that is not empty. *)
Definition truthy (t : option string) : bool :=
  match t with
  | Some s => bool_decide (s <> "")
  | None => false
  end.

(** [sendMessage(fromId, message)]; [messageId] is the identifier that
    [generateMessageId] makes, [now] the value of [Date.now()]. *)
Definition sendMessage (fromId : string) (r : request) (messageId : string) (now : Z)
    (b : manager) : completion unit * manager :=
  let messageObj :=
    Message messageId fromId (r_to r) (default "global" (r_channel r))
      (r_data r) (r_type r) now false in
  if truthy (r_to r) then deliverMessage messageObj b
  else (Normal tt, broadcast fromId messageObj b).

(** [sendToParent(fromId, message)]. *)
Definition sendToParent (fromId : string) (r : request) (messageId : string) (now : Z)
    (b : manager) : completion unit * manager :=
  match map_get fromId (components b) with
  | None => (Normal tt, b)
  | Some c =>
      if truthy (parent (relationships_of c)) then
        sendMessage fromId
          (Request (parent (relationships_of c)) (r_channel r) (r_data r) (r_type r))
          messageId now b
      else (Normal tt, b)
  end.

(** The loop of [sendToChildren]; [stamp k] gives the identifier and the
    time of the message of the [k]-th call of [sendMessage]. *)
Fixpoint send_each (fromId : string) (r : request) (childIds : list string)
    (stamp : nat -> string * Z) (k : nat) (b : manager)
    : completion unit * manager :=
  match childIds with
  | [] => (Normal tt, b)
  | childId :: rest =>
      match sendMessage fromId
              (Request (Some childId) (r_channel r) (r_data r) (r_type r))
              (fst (stamp k)) (snd (stamp k)) b with
      | (Normal _, b') => send_each fromId r rest stamp (S k) b'
      | (Throw, b') => (Throw, b')
      end
  end.

(** [sendToChildren(fromId, message)]. *)
Definition sendToChildren (fromId : string) (r : request) (stamp : nat -> string * Z)
    (b : manager) : completion unit * manager :=
  match map_get fromId (components b) with
  | None => (Normal tt, b)
  | Some c => send_each fromId r (children (relationships_of c)) stamp 0%nat b
  end.

(** The loop of [processMessageQueue]: it visits the messages that were in
    the queue when it began. *)
Fixpoint deliver_each (messages : list message) (b : manager)
    : completion unit * manager :=
  match messages with
  | [] => (Normal tt, b)
  | m :: rest =>
      match deliverMessage m b with
      | (Normal _, b') => deliver_each rest b'
      | (Throw, b') => (Throw, b')
      end
  end.

(** [processMessageQueue(componentId)]. *)
Definition processMessageQueue (componentId : string) (b : manager)
    : completion unit * manager :=
  match messageQueue b !! Some componentId with
  | None => (Normal tt, b)
  | Some messages =>
      match deliver_each messages b with
      | (Normal _, b') =>
          (Normal tt, set_messageQueue (delete (Some componentId) (messageQueue b')) b')
      | (Throw, b') => (Throw, b')
      end
  end.

Definition update_relationships (componentId : string)
    (f : relationships -> relationships) (b : manager) : manager :=
  set_components
    (map_update componentId
       (fun c => Component (instance_of c) (config c) (f (relationships_of c))
                   (subscriptions c) (state c))
       (components b)) b.

(** [setParentChild(parentId, childId)]. *)
Definition setParentChild (parentId childId : string) (b : manager) : manager :=
  match map_get parentId (components b), map_get childId (components b) with
  | Some _, Some _ =>
      update_relationships childId
        (fun r => Relationships (Some parentId) (children r) (siblings r))
        (update_relationships parentId
           (fun r => Relationships (parent r) (set_add childId (children r)) (siblings r))
           b)
  | _, _ => b
  end.

(** [setSiblings(componentId1, componentId2)]. *)
Definition setSiblings (componentId1 componentId2 : string) (b : manager) : manager :=
  match map_get componentId1 (components b), map_get componentId2 (components b) with
  | Some _, Some _ =>
      update_relationships componentId2
        (fun r => Relationships (parent r) (children r) (set_add componentId1 (siblings r)))
        (update_relationships componentId1
           (fun r => Relationships (parent r) (children r)
                       (set_add componentId2 (siblings r)))
           b)
  | _, _ => b
  end.

(** [findComponentByElement(element)]: the identifier of the first
    component whose instance is attached to the element. *)
Fixpoint find_element (e : nat) (m : list (string * component)) : option string :=
  match m with
  | [] => None
  | (componentId, c) :: rest =>
      if bool_decide (element (instance_of c) = Some e) then Some componentId
      else find_element e rest
  end.

Definition findComponentByElement (e : nat) (b : manager) : option string :=
  find_element e (components b).

(** [detectRelationships(componentId)]; reading the children of a missing
    parent element throws. *)
Definition detectRelationships (pg : page) (componentId : string) (b : manager)
    : completion unit * manager :=
  match map_get componentId (components b) with
  | None => (Normal tt, b)
  | Some c =>
      match element (instance_of c) with
      | None => (Normal tt, b)
      | Some e =>
          match parentElement pg !! e with
          | None => (Throw, b)
          | Some p =>
              (* Detect parent *)
              let b1 :=
                match findComponentByElement p b with
                | Some parentId => setParentChild parentId componentId b
                | None => b
                end in
              (* Detect siblings *)
              (Normal tt,
               foldl
                 (fun b siblingElement =>
                    if bool_decide (siblingElement <> e) then
                      match findComponentByElement siblingElement b with
                      | Some siblingId => setSiblings componentId siblingId b
                      | None => b
                      end
                    else b)
                 b1 (default [] (childElements pg !! p)))
          end
      end
  end.

(** [registerComponent(component, config)]; [componentId] is the
    identifier that [generateComponentId] makes.
    ([setupComponentCommunication] gives the instance four methods that
    call [sendMessage], [broadcast], [sendToParent] and [sendToChildren]
    with [componentId].) *)
Definition registerComponent (pg : page) (i : instance) (cfg : jsval)
    (componentId : string) (b : manager) : completion string * manager :=
  let b1 :=
    set_components
      (map_set componentId (Component i cfg (Relationships None [] []) [] "active")
         (components b)) b in
  match detectRelationships pg componentId b1 with
  | (Normal _, b2) => (Normal componentId, b2)
  | (Throw, b2) => (Throw, b2)
  end.

(** [unregisterComponent(componentId)]. *)
Definition unregisterComponent (componentId : string) (b : manager) : manager :=
  match map_get componentId (components b) with
  | None => b
  | Some c =>
      (* Cleanup subscriptions *)
      let b1 :=
        foldl (fun b channelName => unsubscribeFromChannel componentId channelName b)
          b (subscriptions c) in
      (* Remove relationships *)
      let b2 :=
        match parent (relationships_of c) with
        | Some p =>
            if truthy (Some p) then
              update_relationships p
                (fun r => Relationships (parent r) (set_delete componentId (children r))
                            (siblings r))
                b1
            else b1
        | None => b1
        end in
      let b3 :=
        foldl
          (fun b siblingId =>
             update_relationships siblingId
               (fun r => Relationships (parent r) (children r)
                           (set_delete componentId (siblings r)))
               b)
          b2 (siblings (relationships_of c)) in
      (* Remove component *)
      set_components (map_delete componentId (components b3)) b3
  end.

(** One call of a method of the manager.  A component is registered under
    an identifier that no registered component has. *)
Inductive step : manager -> manager -> Prop :=
  | step_registerComponent pg i cfg componentId b :
      map_get componentId (components b) = None ->
      step b (snd (registerComponent pg i cfg componentId b))
  | step_unregisterComponent componentId b :
      step b (unregisterComponent componentId b)
  | step_setParentChild parentId childId b :
      step b (setParentChild parentId childId b)
  | step_setSiblings componentId1 componentId2 b :
      step b (setSiblings componentId1 componentId2 b)
  | step_createChannel channelName p o b :
      step b (createChannel channelName p o b)
  | step_subscribeToChannel componentId channelName handler b :
      step b (snd (subscribeToChannel componentId channelName handler b))
  | step_unsubscribeFromChannel componentId channelName b :
      step b (unsubscribeFromChannel componentId channelName b)
  | step_sendMessage fromId r messageId now b :
      step b (snd (sendMessage fromId r messageId now b))
  | step_broadcast fromId m b :
      step b (broadcast fromId m b)
  | step_sendToParent fromId r messageId now b :
      step b (snd (sendToParent fromId r messageId now b))
  | step_sendToChildren fromId r stamp b :
      step b (snd (sendToChildren fromId r stamp b))
  | step_processMessageQueue componentId b :
      step b (snd (processMessageQueue componentId b)).

Definition reachable (b : manager) : Prop := rtc step constructor b.

(** A field of the relationships of a registered component. *)
Definition field_of {A : Type} (field : relationships -> A) (componentId : string)
    (b : manager) : option A :=
  (fun c => field (relationships_of c)) <$> map_get componentId (components b).

(** The siblings of a registered component. *)
Definition siblings_of (componentId : string) (b : manager) : option (list string) :=
  field_of siblings componentId b.

(** Being siblings goes both ways, and a sibling is registered. *)
Definition siblings_symmetric (b : manager) : Prop :=
  forall x y sx,
    siblings_of x b = Some sx -> y ∈ sx ->
    exists sy, siblings_of y b = Some sy /\ x ∈ sy.

(** What a method leaves alone when it only writes relationships. *)
Definition same_mail (b b' : manager) : Prop :=
  channels b' = channels b /\ messageQueue b' = messageQueue b
  /\ delivered b' = delivered b /\ consoleErrors b' = consoleErrors b.

(** A page without elements that have a parent, and an instance attached
    to an element. *)
Definition detached_page : page := Page ∅ ∅.

Definition plain_instance (e : nat) : instance := Instance (Some e) false.

(** A page where element 0 is the only child of element 9 and elements 1
    and 2 are the children of element 0, and the manager after components
    "a", "b" and "c" were registered on elements 0, 1 and 2. *)
Definition family_page : page :=
  Page (<[0%nat := 9%nat]> (<[1%nat := 0%nat]> (<[2%nat := 0%nat]> ∅)))
    (<[9%nat := [0%nat]]> (<[0%nat := [1%nat; 2%nat]]> ∅)).

Definition family : manager :=
  snd (registerComponent family_page (plain_instance 2) VUndef "c"
         (snd (registerComponent family_page (plain_instance 1) VUndef "b"
                 (snd (registerComponent family_page (plain_instance 0) VUndef "a"
                         constructor))))).

(** A request with a recipient. *)
Definition note (recipient : string) : request :=
  Request (Some recipient) None (VStr "hello") (VStr "note").

End ComponentCommunication.

(** * Theorems *)

(** ** Basic facts about commands *)

(** A batch executes its array from left to right. *)
Lemma run_execute_batch ts ops d :
  run_execute (BatchCommand ts ops) d =
  match every run_execute ops d with
  | (r, ops', d') => (r, BatchCommand ts ops', d')
  end.
Proof.
  cbn [run_execute].
  match goal with
  | |- match ?go ops d with _ => _ end = _ =>
      assert (Hgo : forall l x, go l x = every run_execute l x)
  end.
  { induction l as [|op rest IH]; intros x; cbn [every]; [reflexivity|].
    destruct (run_execute op x) as [[[[]|] op'] d']; try reflexivity.
    rewrite IH. reflexivity. }
  rewrite Hgo. reflexivity.
Qed.

(** A batch undoes the reverse of its array from left to right, and the
    array it keeps is that reversed array. *)
Lemma run_undo_batch ts ops d :
  run_undo (BatchCommand ts ops) d =
  match every run_undo (rev ops) d with
  | (r, ops', d') => (r, BatchCommand ts ops', d')
  end.
Proof.
  cbn [run_undo].
  match goal with
  | |- match ?go ops d with _ => _ end = _ => set (g := go)
  end.
  assert (Hsnoc : forall l op x,
    every run_undo (l ++ [op]) x =
    match every run_undo l x with
    | (Normal true, l', x') =>
        match run_undo op x' with
        | (r, op', x'') => (r, l' ++ [op'], x'')
        end
    | (r, l', x') => (r, l' ++ [op], x')
    end).
  { induction l as [|a l IH]; intros op x; cbn [every app].
    - destruct (run_undo op x) as [[[[]|] op'] x']; reflexivity.
    - destruct (run_undo a x) as [[[[]|] a'] x']; try reflexivity.
      rewrite IH.
      destruct (every run_undo l x') as [[[[]|] l'] x'']; try reflexivity.
      destruct (run_undo op x'') as [[r op'] x3]. reflexivity. }
  assert (Hgo : forall l x,
    every run_undo (rev l) x =
    match g l x with (r, l', x') => (r, rev l', x') end).
  { induction l as [|op rest IH]; intros x; [reflexivity|].
    cbn [rev]. rewrite Hsnoc, IH. subst g. cbn beta iota. fold run_undo.
    match goal with
    | |- context [?go rest x] => destruct (go rest x) as [[[[]|] l'] x']
    end; try reflexivity.
    destruct (run_undo op x') as [[r op'] x'']. reflexivity. }
  rewrite Hgo. destruct (g ops d) as [[r l'] x']. reflexivity.
Qed.

(** ** The cursor of the history *)

Lemma hlen_set_history h m : hlen (set_history h m) = Z.of_nat (length h).
Proof. reflexivity. Qed.

Lemma hlen_set_currentIndex i m : hlen (set_currentIndex i m) = hlen m.
Proof. reflexivity. Qed.

Lemma length_splice_from {A} (a : list A) (start : Z) :
  0 <= start <= Z.of_nat (length a) ->
  Z.of_nat (length (splice_from a start)) = start.
Proof.
  intros H. unfold splice_from.
  destruct (Z.ltb_spec start 0); [lia|].
  rewrite length_take. lia.
Qed.

Lemma length_shift {A} (a : list A) :
  Z.of_nat (length (shift a)) = Z.max 0 (Z.of_nat (length a) - 1).
Proof. unfold shift. rewrite length_drop. lia. Qed.

(** After the redo future has been cut off, the cursor is the last index. *)
Lemma clear_redo_cursor m :
  cursor_ok m ->
  currentIndex (clear_redo m) = currentIndex m /\
  hlen (clear_redo m) = currentIndex m + 1 /\
  maxHistorySize (clear_redo m) = maxHistorySize m.
Proof.
  intros [Hlo Hhi]. unfold clear_redo.
  destruct (Z.ltb_spec (currentIndex m) (hlen m - 1)) as [Hlt|Hge].
  - rewrite hlen_set_history, length_splice_from by (unfold hlen in *; lia).
    auto.
  - repeat split; lia.
Qed.

Lemma push_cursor c m :
  currentIndex (push c m) = currentIndex m + 1 /\ hlen (push c m) = hlen m + 1.
Proof.
  unfold push. split; [reflexivity|].
  rewrite hlen_set_currentIndex, hlen_set_history, length_app.
  cbn [length]. unfold hlen. lia.
Qed.

Lemma limit_size_cursor m :
  0 < hlen m ->
  (currentIndex (limit_size m) = currentIndex m /\ hlen (limit_size m) = hlen m) \/
  (currentIndex (limit_size m) = currentIndex m - 1 /\
   hlen (limit_size m) = hlen m - 1).
Proof.
  intros Hpos. unfold limit_size.
  destruct (Z.ltb_spec (maxHistorySize m) (hlen m)); [right|left; auto].
  split; [reflexivity|].
  rewrite hlen_set_currentIndex, hlen_set_history, length_shift.
  fold (hlen m). lia.
Qed.

Lemma execute_cursor_ok c w r w' :
  cursor_ok (this w) -> execute c w = (r, w') -> cursor_ok (this w').
Proof.
  intros Hok. unfold execute.
  destruct (clear_redo_cursor _ Hok) as (Hci & Hlen & _).
  destruct Hok as [Hlo Hhi].
  destruct (try_combine _ c) as [[prev st]|].
  - destruct (run_execute c (dom w)) as [[[b|] c'] d']; intros [= <- <-];
      cbn [this]; unfold cursor_ok;
      rewrite hlen_set_history, length_insert; cbn [currentIndex set_history];
      fold (hlen (clear_redo (this w))); lia.
  - destruct (run_execute c (dom w)) as [[[[]|] c'] d']; intros [= <- <-];
      cbn [this notifyHistoryChange]; try (unfold cursor_ok; lia).
    destruct (push_cursor c' (clear_redo (this w))) as [Hci2 Hlen2].
    unfold cursor_ok.
    destruct (limit_size_cursor (push c' (clear_redo (this w)))) as [[-> ->]|[-> ->]];
      lia.
Qed.

Lemma undo_cursor_ok w r w' :
  cursor_ok (this w) -> undo w = (r, w') -> cursor_ok (this w').
Proof.
  intros [Hlo Hhi]. unfold undo, canUndo.
  destruct (Z.leb_spec 0 (currentIndex (this w))) as [Hge|Hlt]; cbn [negb].
  - destruct (at_index _ _) as [c|]; [|intros [= <- <-]; split; lia].
    destruct (run_undo c (dom w)) as [[[[]|] c'] d']; intros [= <- <-];
      cbn [this notifyHistoryChange]; unfold cursor_ok;
      rewrite ?hlen_set_currentIndex, hlen_set_history, length_insert;
      cbn [currentIndex set_currentIndex set_history]; fold (hlen (this w)); lia.
  - intros [= <- <-]. split; lia.
Qed.

Lemma redo_cursor_ok w r w' :
  cursor_ok (this w) -> redo w = (r, w') -> cursor_ok (this w').
Proof.
  intros [Hlo Hhi]. unfold redo, canRedo.
  destruct (Z.ltb_spec (currentIndex (this w)) (hlen (this w) - 1)) as [Hlt|Hge];
    cbn [negb].
  - destruct (at_index _ _) as [c|]; [|intros [= <- <-]; split; lia].
    destruct (run_execute c (dom w)) as [[[[]|] c'] d']; intros [= <- <-];
      cbn [this notifyHistoryChange]; unfold cursor_ok;
      rewrite ?hlen_set_currentIndex, hlen_set_history, length_insert;
      cbn [currentIndex set_currentIndex set_history]; fold (hlen (this w)); lia.
  - intros [= <- <-]. split; lia.
Qed.

Lemma endBatch_cursor_ok batchId now w r w' :
  cursor_ok (this w) -> endBatch batchId now w = (r, w') -> cursor_ok (this w').
Proof.
  intros Hok. unfold endBatch.
  destruct (batchOperations (this w) !! batchId) as [b|]; [|intros [= <- <-]; exact Hok].
  destruct (0 <? _).
  - destruct (execute _ w) as [[[]|] w1] eqn:He;
      pose proof (execute_cursor_ok _ _ _ _ Hok He) as H1;
      intros [= <- <-]; exact H1.
  - intros [= <- <-]. exact Hok.
Qed.

(** The loop of [setMaxHistorySize] never leaves for a negative size: once
    the array is empty, [shift] changes nothing and the test stays true. *)
Lemma shift_while_negative fuel size m :
  size < 0 -> shift_while fuel size m = None.
Proof.
  intros Hneg. revert m. induction fuel as [|fuel IH]; intros m; [reflexivity|].
  cbn [shift_while].
  destruct (Z.ltb_spec size (hlen m)) as [_|Hge]; [apply IH|].
  unfold hlen in Hge. lia.
Qed.

(** For a size that is not negative the loop leaves after dropping the
    surplus entries, and the cursor has gone down by their number. *)
Lemma shift_while_result fuel size m :
  0 <= size -> (length (history m) < fuel)%nat ->
  exists m',
    shift_while fuel size m = Some m' /\
    hlen m' = Z.min (hlen m) size /\
    currentIndex m' = currentIndex m - (hlen m - hlen m') /\
    maxHistorySize m' = maxHistorySize m.
Proof.
  intros Hsize. revert m. induction fuel as [|fuel IH]; intros m Hfuel; [lia|].
  cbn [shift_while].
  destruct (Z.ltb_spec size (hlen m)) as [Hlt|Hge].
  - set (m1 := set_currentIndex _ _).
    assert (Hlen1 : hlen m1 = hlen m - 1).
    { subst m1. rewrite hlen_set_currentIndex, hlen_set_history, length_shift.
      fold (hlen m). lia. }
    destruct (IH m1) as (m' & Hrun & Hlen & Hci & Hmax).
    { unfold hlen in Hlen1, Hlt. lia. }
    exists m'. split; [exact Hrun|].
    subst m1. cbn [currentIndex set_currentIndex maxHistorySize set_history] in *.
    lia.
  - exists m. repeat split; lia.
Qed.

Lemma setMaxHistorySize_cursor_ok fuel size m m' :
  cursor_ok m -> hlen m - size <= currentIndex m + 1 ->
  setMaxHistorySize fuel size m = Some m' -> cursor_ok m'.
Proof.
  unfold setMaxHistorySize. intros Hok Hkeep.
  set (m0 := set_maxHistorySize size m).
  assert (Hci : currentIndex m0 = currentIndex m) by reflexivity.
  assert (Hlen : hlen m0 = hlen m) by reflexivity.
  clearbody m0. destruct Hok as [Hlo Hhi].
  rewrite <- Hci, <- Hlen in *. clear Hci Hlen m.
  revert m0 Hlo Hhi Hkeep.
  induction fuel as [|fuel IH]; intros m Hlo Hhi Hkeep; [discriminate|].
  cbn [shift_while].
  destruct (Z.ltb_spec size (hlen m)) as [Hlt|Hge].
  - apply IH; rewrite ?hlen_set_currentIndex, ?hlen_set_history, ?length_shift;
      cbn [currentIndex set_currentIndex]; fold (hlen m); lia.
  - intros [= <-]. split; lia.
Qed.

Lemma addToBatch_history batchId c m :
  history (addToBatch batchId c m) = history m /\
  currentIndex (addToBatch batchId c m) = currentIndex m.
Proof. unfold addToBatch. destruct (_ !! _); auto. Qed.

Lemma step_cursor_ok w w' :
  step keeps_cursor w w' -> cursor_ok (this w) -> cursor_ok (this w').
Proof.
  intros Hstep Hok. destruct Hstep; cbn [this].
  - eapply execute_cursor_ok; eauto.
  - eapply undo_cursor_ok; eauto.
  - eapply redo_cursor_ok; eauto.
  - exact Hok.
  - destruct (addToBatch_history batchId c (this w)) as [Hh Hc].
    unfold cursor_ok, hlen in *. rewrite Hh, Hc. exact Hok.
  - eapply endBatch_cursor_ok; eauto.
  - unfold cursor_ok, hlen. simpl. lia.
  - eapply setMaxHistorySize_cursor_ok; eauto.
Qed.

Example createCommand_edit :
  createCommand "textEdit" (text_state 0 "a" "b") 5 constructor
  = Normal (edit "a" "b" 5).
Proof. reflexivity. Qed.

Lemma edited_and_undone_reachable allowed : reachable allowed edited_and_undone.
Proof.
  exists {[0%nat := "a"]}. unfold edited_and_undone.
  eapply rtc_l; [eapply step_execute; apply surjective_pairing|].
  eapply rtc_l; [eapply step_undo; apply surjective_pairing|].
  apply rtc_refl.
Qed.

(** Dropping entries beyond the applied ones takes the cursor below -1. *)
Example setMaxHistorySize_cursor_below_start :
  let m := this edited_and_undone in
  (length (history m) = 1%nat /\ currentIndex m = -1) /\
  currentIndex <$> setMaxHistorySize 2 0 m = Some (-2).
Proof. vm_compute. auto. Qed.

(** C8, as worded: the claim that in every reachable state the cursor is
    inside the history, or is [-1] with an empty history, fails after one
    command has been executed and undone: the cursor is [-1] and the entry
    is still there to be redone. *)
Lemma cursor_strict_counterexample :
  reachable any_size edited_and_undone /\
  currentIndex (this edited_and_undone) = -1 /\
  length (history (this edited_and_undone)) = 1%nat /\
  ~ cursor_strict (this edited_and_undone).
Proof.
  split; [apply edited_and_undone_reachable|].
  split; [reflexivity|]. split; [reflexivity|].
  intros [[H _]|[_ H]]; [vm_compute in H; congruence|].
  apply (f_equal length) in H. vm_compute in H. discriminate.
Qed.

(** C8, amended: in every state reached by [execute], [undo], [redo],
    [endBatch], [clearHistory] (and [startBatch], [addToBatch]) and by calls
    of [setMaxHistorySize] that drop applied entries only, the cursor
    satisfies [-1 <= currentIndex < history.length]; it is [-1] whenever
    the history is empty, and may be [-1] with entries left to redo. *)
Theorem cursor_within_history w :
  reachable keeps_cursor w ->
  cursor_ok (this w) /\ (history (this w) = [] -> currentIndex (this w) = -1).
Proof.
  intros [d Hr].
  assert (Hok : cursor_ok (this w)).
  { assert (Hgen : forall a b,
              rtc (step keeps_cursor) a b -> cursor_ok (this a) -> cursor_ok (this b)).
    { induction 1 as [a|a b c Hstep _ IH]; [auto|].
      intros Ha. apply IH. eapply step_cursor_ok; eauto. }
    apply (Hgen _ _ Hr).
    unfold cursor_ok, hlen, constructor, registerCommand. simpl. lia. }
  split; [exact Hok|].
  intros Hnil. destruct Hok as [Hlo Hhi]. unfold hlen in Hhi.
  rewrite Hnil in Hhi. simpl in Hhi. lia.
Qed.

(** The theorem on the world in which one edit was executed and undone. *)
Lemma cursor_within_history_witness :
  reachable keeps_cursor edited_and_undone /\
  cursor_ok (this edited_and_undone).
Proof.
  split.
  - apply edited_and_undone_reachable.
  - apply (cursor_within_history edited_and_undone).
    apply edited_and_undone_reachable.
Defined.

(** ** Undo and redo that fail *)

(** C10: when the [undo] routine of the entry at the cursor returns false,
    [undo()] returns false, the cursor stays, the history holds the same
    entries in the same places (the entry at the cursor being that very
    command as its own routine left it) and no event is dispatched.  The
    same for [redo()] and the [execute] routine of the entry after the
    cursor. *)
Theorem failed_routine_keeps_history w :
  (forall c c' d',
     canUndo (this w) = true ->
     at_index (history (this w)) (currentIndex (this w)) = Some c ->
     run_undo c (dom w) = (Normal false, c', d') ->
     let w' := snd (undo w) in
     fst (undo w) = Normal false /\
     currentIndex (this w') = currentIndex (this w) /\
     history (this w') =
       <[Z.to_nat (currentIndex (this w)) := c']> (history (this w)) /\
     (c' = c -> history (this w') = history (this w)) /\
     events w' = events w)
  /\
  (forall c c' d',
     canRedo (this w) = true ->
     at_index (history (this w)) (currentIndex (this w) + 1) = Some c ->
     run_execute c (dom w) = (Normal false, c', d') ->
     let w' := snd (redo w) in
     fst (redo w) = Normal false /\
     currentIndex (this w') = currentIndex (this w) /\
     history (this w') =
       <[Z.to_nat (currentIndex (this w) + 1) := c']> (history (this w)) /\
     (c' = c -> history (this w') = history (this w)) /\
     events w' = events w).
Proof.
  split; intros c c' d' Hcan Hat Hrun; cbn zeta.
  - unfold undo. rewrite Hcan, Hat, Hrun. cbn.
    repeat split. intros ->. apply list_insert_id.
    unfold at_index in Hat. destruct (_ <? 0); [discriminate|exact Hat].
  - unfold redo. rewrite Hcan, Hat, Hrun. cbn.
    repeat split. intros ->. apply list_insert_id.
    unfold at_index in Hat. destruct (_ <? 0); [discriminate|exact Hat].
Qed.

(** The theorem on an entry whose [undo] refuses and on an entry whose
    [execute] refuses the second time. *)
Lemma failed_routine_keeps_history_witness :
  (fst (undo stuck_undo) = Normal false /\
   this (snd (undo stuck_undo)) = this stuck_undo /\
   events (snd (undo stuck_undo)) = events stuck_undo) /\
  (fst (redo stuck_redo) = Normal false /\
   this (snd (redo stuck_redo)) = this stuck_redo /\
   events (snd (redo stuck_redo)) = events stuck_redo).
Proof.
  split.
  - destruct (proj1 (failed_routine_keeps_history stuck_undo)
                (Command "custom" ∅ ∅ stubborn) (Command "custom" ∅ ∅ stubborn) ∅)
      as (Hr & Hci & Hh & Hsame & Hev); [reflexivity..|].
    split; [exact Hr|]. split; [|exact Hev].
    vm_compute. reflexivity.
  - destruct (proj2 (failed_routine_keeps_history stuck_redo)
                (Command "custom" ∅ ∅ fragile) (Command "custom" ∅ ∅ fragile)
                {[1%nat := "done"]})
      as (Hr & Hci & Hh & Hsame & Hev); [reflexivity..|].
    split; [exact Hr|]. split; [|exact Hev].
    vm_compute. reflexivity.
Defined.

(** ** Batches in the history *)

(** [every] stops at the first step that returns false; the steps before
    it have run, the steps after it have not. *)
Lemma every_stops f pre bad post d pre' d1 bad' d2 :
  every f pre d = (Normal true, pre', d1) ->
  f bad d1 = (Normal false, bad', d2) ->
  every f (pre ++ bad :: post) d = (Normal false, pre' ++ bad' :: post, d2).
Proof.
  revert d pre'. induction pre as [|op pre IH]; intros d pre' Hpre Hbad.
  - cbn in Hpre. injection Hpre as <- <-. cbn. rewrite Hbad. reflexivity.
  - cbn [every app] in *.
    destruct (f op d) as [[[[]|] op'] dm]; try discriminate.
    destruct (every f pre dm) as [[r rest'] dn] eqn:Hrest.
    injection Hpre as -> <- ->.
    rewrite (IH _ _ Hrest Hbad). reflexivity.
Qed.

(** C6, as worded: the claim that a failing undo leaves the document as it
    was fails on a batch whose second step to be undone refuses: [undo()]
    returns false and the cursor stays on the batch, yet the text edit of
    the batch has been undone. *)
Lemma failed_undo_mutates_document :
  fst (undo guarded_batch) = Normal false /\
  currentIndex (this (snd (undo guarded_batch))) = currentIndex (this guarded_batch) /\
  textContent (dom guarded_batch) 0 = "b" /\
  textContent (dom (snd (undo guarded_batch))) 0 = "a" /\
  dom (snd (undo guarded_batch)) <> dom guarded_batch.
Proof.
  repeat split; try reflexivity.
  intros H. apply (f_equal (fun d => textContent d 0)) in H.
  vm_compute in H. discriminate.
Qed.

(** C6, amended: when a step of a batch returns false during [undo()] or
    [redo()], the call returns false and the cursor stays, and the
    document is left as the steps that ran before the failing one, and the
    failing one itself, left it; nothing is checked beforehand or rolled
    back, and the steps after the failing one do not run. *)
Theorem failed_batch_keeps_earlier_steps w ts ops pre bad post pre' d1 bad' d2 :
  (canUndo (this w) = true ->
   at_index (history (this w)) (currentIndex (this w)) = Some (BatchCommand ts ops) ->
   rev ops = pre ++ bad :: post ->
   every run_undo pre (dom w) = (Normal true, pre', d1) ->
   run_undo bad d1 = (Normal false, bad', d2) ->
   fst (undo w) = Normal false /\
   dom (snd (undo w)) = d2 /\
   currentIndex (this (snd (undo w))) = currentIndex (this w))
  /\
  (canRedo (this w) = true ->
   at_index (history (this w)) (currentIndex (this w) + 1) = Some (BatchCommand ts ops) ->
   ops = pre ++ bad :: post ->
   every run_execute pre (dom w) = (Normal true, pre', d1) ->
   run_execute bad d1 = (Normal false, bad', d2) ->
   fst (redo w) = Normal false /\
   dom (snd (redo w)) = d2 /\
   currentIndex (this (snd (redo w))) = currentIndex (this w)).
Proof.
  split; intros Hcan Hat Hops Hpre Hbad.
  - unfold undo. rewrite Hcan, Hat, run_undo_batch, Hops.
    rewrite (every_stops _ _ _ _ _ _ _ _ _ Hpre Hbad). cbn. auto.
  - unfold redo. rewrite Hcan, Hat, run_execute_batch, Hops.
    rewrite (every_stops _ _ _ _ _ _ _ _ _ Hpre Hbad). cbn. auto.
Qed.

(** The theorem on a batch whose undo stops at its second step and on a
    batch whose redo stops at its second step. *)
Lemma failed_batch_keeps_earlier_steps_witness :
  (fst (undo guarded_batch) = Normal false /\
   dom (snd (undo guarded_batch)) = {[0%nat := "a"]}) /\
  (fst (redo fragile_batch_undone) = Normal false /\
   dom (snd (redo fragile_batch_undone)) = <[0%nat := "b"]> (dom fragile_batch_undone)).
Proof.
  split.
  - destruct (proj1 (failed_batch_keeps_earlier_steps guarded_batch 3
        [Command "custom" ∅ ∅ stubborn; edit "a" "b" 2]
        [edit "a" "b" 2] (Command "custom" ∅ ∅ stubborn) []
        [edit "a" "b" 2] {[0%nat := "a"]}
        (Command "custom" ∅ ∅ stubborn) {[0%nat := "a"]}))
      as (Hr & Hd & _); [reflexivity..|].
    split; [exact Hr | exact Hd].
  - destruct (proj2 (failed_batch_keeps_earlier_steps fragile_batch_undone 3
        [edit "a" "b" 2; Command "custom" ∅ ∅ fragile]
        [edit "a" "b" 2] (Command "custom" ∅ ∅ fragile) []
        [edit "a" "b" 2] (<[0%nat := "b"]> (dom fragile_batch_undone))
        (Command "custom" ∅ ∅ fragile) (<[0%nat := "b"]> (dom fragile_batch_undone))))
      as (Hr & Hd & _); [reflexivity..|].
    split; [exact Hr | exact Hd].
Defined.

(** C5, evaluated on a batch of two text edits of one element ("" to "a",
    then "a" to "b"): [endBatch] pushes one batch command and the text is
    "b"; [undo()] undoes both edits, last one first, and leaves the array of
    the batch reversed; [redo()] then executes the array as it finds it, the
    second edit before the first, and the text ends as "a". *)
Theorem batch_redo_runs_reversed :
  let w1 := two_edits_batch in
  let w2 := snd (undo w1) in
  let w3 := snd (redo w2) in
  (history (this w1) = [BatchCommand 3 [edit "" "a" 1; edit "a" "b" 2]] /\
   currentIndex (this w1) = 0 /\ textContent (dom w1) 0 = "b") /\
  (fst (undo w1) = Normal true /\
   history (this w2) = [BatchCommand 3 [edit "a" "b" 2; edit "" "a" 1]] /\
   currentIndex (this w2) = -1 /\ textContent (dom w2) 0 = "") /\
  (fst (redo w2) = Normal true /\
   currentIndex (this w3) = 0 /\ textContent (dom w3) 0 = "a").
Proof. cbn zeta. repeat split; vm_compute; reflexivity. Qed.

(** ** Fusion of text edits *)

Lemma get_text_state e old new :
  get (text_state e old new) "element" = VElem e /\
  get (text_state e old new) "newText" = VStr new /\
  get (text_state e old new) "oldText" = VStr old.
Proof. repeat split. Qed.









(** ** Restoring a snapshot *)

(** The proofs about one call of [undo()] or [redo()] follow its three
    tests: is there anything to do, is there an entry, what did the routine
    return. *)
Ltac call_outcome :=
  destruct (negb _); [first [discriminate | reflexivity]|];
  destruct (at_index _ _) as [?c|]; [|discriminate];
  match goal with
  | |- context [run_undo ?c ?d] => destruct (run_undo c d) as [[[[]|] ?c'] ?d']
  | |- context [run_execute ?c ?d] => destruct (run_execute c d) as [[[[]|] ?c'] ?d']
  end;
  try discriminate; reflexivity.

Lemma undo_success_cursor w :
  fst (undo w) = Normal true ->
  currentIndex (this (snd (undo w))) = currentIndex (this w) - 1.
Proof. unfold undo. call_outcome. Qed.

Lemma redo_success_cursor w :
  fst (redo w) = Normal true ->
  currentIndex (this (snd (redo w))) = currentIndex (this w) + 1.
Proof. unfold redo. call_outcome. Qed.

Lemma undo_failure_cursor w :
  fst (undo w) = Normal false ->
  currentIndex (this (snd (undo w))) = currentIndex (this w).
Proof. unfold undo. call_outcome. Qed.

Lemma redo_failure_cursor w :
  fst (redo w) = Normal false ->
  currentIndex (this (snd (redo w))) = currentIndex (this w).
Proof. unfold redo. call_outcome. Qed.

(** The first loop leaves after as many successful calls as the cursor is
    above the target. *)
Lemma undo_while_leaves target n : forall w fuel,
  n = Z.to_nat (currentIndex (this w) - target) ->
  (forall k, (k < n)%nat -> fst (undo (undo_times k w)) = Normal true) ->
  (n < fuel)%nat ->
  undo_while fuel target w = Some (Normal tt, undo_times n w) /\
  currentIndex (this (undo_times n w)) = currentIndex (this w) - Z.of_nat n.
Proof.
  induction n as [|n IH]; intros w fuel Hn Hall Hfuel.
  - destruct fuel as [|fuel]; [lia|]. cbn [undo_while undo_times].
    destruct (Z.ltb_spec target (currentIndex (this w))); [lia|].
    split; [reflexivity|lia].
  - destruct fuel as [|fuel]; [lia|]. cbn [undo_while undo_times].
    destruct (Z.ltb_spec target (currentIndex (this w))); [|lia].
    pose proof (Hall 0%nat ltac:(lia)) as H0. cbn [undo_times] in H0.
    pose proof (undo_success_cursor w H0) as Hci.
    destruct (undo w) as [r w1] eqn:Hu. cbn [fst snd] in *. subst r.
    destruct (IH w1 fuel) as [Hrun Hend]; [lia| |lia|].
    { intros k Hk. specialize (Hall (S k) ltac:(lia)).
      cbn [undo_times redo_times] in Hall. rewrite Hu in Hall. exact Hall. }
    split; [exact Hrun|]. rewrite Hend. lia.
Qed.

Lemma redo_while_leaves target n : forall w fuel,
  n = Z.to_nat (target - currentIndex (this w)) ->
  (forall k, (k < n)%nat -> fst (redo (redo_times k w)) = Normal true) ->
  (n < fuel)%nat ->
  redo_while fuel target w = Some (Normal tt, redo_times n w) /\
  currentIndex (this (redo_times n w)) = currentIndex (this w) + Z.of_nat n.
Proof.
  induction n as [|n IH]; intros w fuel Hn Hall Hfuel.
  - destruct fuel as [|fuel]; [lia|]. cbn [redo_while redo_times].
    destruct (Z.ltb_spec (currentIndex (this w)) target); [lia|].
    split; [reflexivity|lia].
  - destruct fuel as [|fuel]; [lia|]. cbn [redo_while redo_times].
    destruct (Z.ltb_spec (currentIndex (this w)) target); [|lia].
    pose proof (Hall 0%nat ltac:(lia)) as H0. cbn [redo_times] in H0.
    pose proof (redo_success_cursor w H0) as Hci.
    destruct (redo w) as [r w1] eqn:Hu. cbn [fst snd] in *. subst r.
    destruct (IH w1 fuel) as [Hrun Hend]; [lia| |lia|].
    { intros k Hk. specialize (Hall (S k) ltac:(lia)).
      cbn [undo_times redo_times] in Hall. rewrite Hu in Hall. exact Hall. }
    split; [exact Hrun|]. rewrite Hend. lia.
Qed.

(** A failing call that leaves the world as it was is repeated for ever. *)
Lemma undo_while_stuck target w fuel :
  target < currentIndex (this w) -> undo w = (Normal false, w) ->
  undo_while fuel target w = None.
Proof.
  intros Hgt Hu. induction fuel as [|fuel IH]; [reflexivity|].
  cbn [undo_while]. destruct (Z.ltb_spec target (currentIndex (this w))); [|lia].
  rewrite Hu. exact IH.
Qed.

Lemma redo_while_stuck target w fuel :
  currentIndex (this w) < target -> redo w = (Normal false, w) ->
  redo_while fuel target w = None.
Proof.
  intros Hgt Hu. induction fuel as [|fuel IH]; [reflexivity|].
  cbn [redo_while]. destruct (Z.ltb_spec (currentIndex (this w)) target); [|lia].
  rewrite Hu. exact IH.
Qed.

(** C9, as worded: that every call succeeds is not necessary for the
    loops to end.  On a manager with a snapshot of its empty history and
    one entry whose [undo] refuses once, the first [undo()] of
    [restoreSnapshot] returns false and leaves the cursor on the entry,
    the second returns true, and [restoreSnapshot] returns true with the
    cursor on the recorded index. *)
Lemma restoreSnapshot_necessity_counterexample :
  historyIndex <$> snapshots (this reluctant_world) !! "s" = Some (-1) /\
  currentIndex (this reluctant_world) = 0 /\
  fst (undo reluctant_world) = Normal false /\
  currentIndex (this (snd (undo reluctant_world))) = 0 /\
  fst (undo (snd (undo reluctant_world))) = Normal true /\
  forall fuel,
    restoreSnapshot (S (S (S fuel))) "s" reluctant_world
    = Some (Normal true, snd (undo (snd (undo reluctant_world)))) /\
    currentIndex (this (snd (undo (snd (undo reluctant_world))))) = -1.
Proof.
  do 5 (split; [reflexivity|]). intros fuel. split; reflexivity.
Qed.

(** C9, amended: [restoreSnapshot] on a recorded snapshot returns true with
    the cursor on the recorded index when every [undo()] and [redo()] call
    it makes returns true: the loops need as many iterations as the cursor
    is away from the recorded index.  A call that returns false leaves the
    cursor where it was, so the test of the loop is true again after it;
    when such a call also leaves the manager and the document as they were,
    the loop never leaves. *)
Theorem restoreSnapshot_terminates w snapshotId s :
  let target := historyIndex s in
  let undos := Z.to_nat (currentIndex (this w) - target) in
  let redos := Z.to_nat (target - currentIndex (this w)) in
  snapshots (this w) !! snapshotId = Some s ->
  (forall k, (k < undos)%nat -> fst (undo (undo_times k w)) = Normal true) ->
  (forall k, (k < redos)%nat -> fst (redo (redo_times k w)) = Normal true) ->
  (exists w',
     (forall fuel, (undos + redos < fuel)%nat ->
        restoreSnapshot fuel snapshotId w = Some (Normal true, w')) /\
     currentIndex (this w') = target) /\
  (forall v,
     (fst (undo v) = Normal false ->
      currentIndex (this (snd (undo v))) = currentIndex (this v)) /\
     (fst (redo v) = Normal false ->
      currentIndex (this (snd (redo v))) = currentIndex (this v))) /\
  (forall v fuel,
     (target < currentIndex (this v) -> undo v = (Normal false, v) ->
      undo_while fuel target v = None) /\
     (currentIndex (this v) < target -> redo v = (Normal false, v) ->
      redo_while fuel target v = None)).
Proof.
  intros target undos redos Hsnap Hundo Hredo.
  split; [|split].
  - destruct (Z.le_gt_cases (currentIndex (this w)) target) as [Hle|Hgt].
    + assert (Hu0 : undos = 0%nat) by (subst undos; lia).
      exists (redo_times redos w). split.
      * intros fuel Hfuel. unfold restoreSnapshot. rewrite Hsnap. fold target.
        destruct (undo_while_leaves target 0 w fuel) as [-> _]; [lia| |lia|].
        { intros k Hk. lia. }
        cbn [undo_times].
        destruct (redo_while_leaves target redos w fuel) as [-> _];
          [reflexivity|exact Hredo|lia|reflexivity].
      * destruct (redo_while_leaves target redos w (S redos)) as [_ ->];
          [reflexivity|exact Hredo|lia|]. subst redos. lia.
    + assert (Hr0 : redos = 0%nat) by (subst redos; lia).
      destruct (undo_while_leaves target undos w (S undos)) as [_ Hend];
        [reflexivity|exact Hundo|lia|].
      assert (Hat : currentIndex (this (undo_times undos w)) = target)
        by (rewrite Hend; subst undos; lia).
      exists (undo_times undos w). split; [|exact Hat].
      intros fuel Hfuel. unfold restoreSnapshot. rewrite Hsnap. fold target.
      destruct (undo_while_leaves target undos w fuel) as [-> _];
        [reflexivity|exact Hundo|lia|].
      destruct (redo_while_leaves target 0 (undo_times undos w) fuel) as [-> _];
        [lia| |lia|reflexivity].
      intros k Hk. lia.
  - intros v. split; [apply undo_failure_cursor | apply redo_failure_cursor].
  - intros v fuel. split; [apply undo_while_stuck | apply redo_while_stuck].
Qed.

(** The theorem on a history of two entries with a snapshot of the first:
    one [undo()] is needed. *)
Lemma restoreSnapshot_terminates_witness :
  currentIndex (this snapshot_world) = 1 /\
  exists w',
    restoreSnapshot 2 "s" snapshot_world = Some (Normal true, w') /\
    currentIndex (this w') = 0.
Proof.
  split; [reflexivity|].
  destruct (restoreSnapshot_terminates snapshot_world "s" (Snapshot 0 6))
    as [(w' & Hrun & Hci) _].
  - reflexivity.
  - intros k Hk. change (k < 1)%nat in Hk. destruct k; [reflexivity|lia].
  - intros k Hk. change (k < 0)%nat in Hk. lia.
  - exists w'. split; [apply Hrun; vm_compute; lia | exact Hci].
Defined.

(** A snapshot whose index lies beyond the history: [redo()] returns false
    without changing anything and [restoreSnapshot] does not return. *)
Example restoreSnapshot_stale fuel :
  historyIndex <$> snapshots (this stale_snapshot_world) !! "s" = Some 1 /\
  currentIndex (this stale_snapshot_world) = 0 /\
  length (history (this stale_snapshot_world)) = 1%nat /\
  restoreSnapshot fuel "s" stale_snapshot_world = None.
Proof.
  repeat split. unfold restoreSnapshot.
  replace (snapshots (this stale_snapshot_world) !! "s") with (Some (Snapshot 1 5001))
    by reflexivity.
  cbn [historyIndex].
  destruct fuel as [|fuel]; [reflexivity|].
  replace (undo_while (S fuel) 1 stale_snapshot_world)
    with (Some (Normal tt, stale_snapshot_world)) by reflexivity.
  rewrite redo_while_stuck; [reflexivity| |reflexivity].
  vm_compute. reflexivity.
Qed.

(** ** The transform step and inbound changes *)

(** C1, as worded: the rule that the insert with the higher
    (author, localSeq) key moves up by one fails for the two inserts at
    path [[0]], X by A and Y by B: transformed against A's insert, B's
    insert keeps index 0.  Client A, holding [[X]], then gets [[Y, X]],
    while client B, holding [[Y]], gets [[X, Y]] from A's insert. *)
Lemma insert_tie_break_counterexample :
  (type insertY = "insert" /\ type insertX = "insert" /\
   path insertY = path insertX /\ key_lt insertX insertY = true) /\
  path (transform insertY [insertX]) = [Index 0] /\
  path (transform insertY [insertX]) <> shift_index (path insertY) 1 /\
  doc (handleRemoteChange siblings (ChangeMessage insertY "B" 2)
         (working_client "A" [VStr "X"] [insertX]))
    = [VStr "Y"; VStr "X"] /\
  doc (handleRemoteChange siblings (ChangeMessage insertX "A" 1)
         (working_client "B" [VStr "Y"] [insertY]))
    = [VStr "X"; VStr "Y"].
Proof.
  split; [repeat split|]. split; [reflexivity|].
  split; [discriminate|]. split; reflexivity.
Qed.

(** C1, amended: [transform] returns the remote operation as it is,
    whatever operations are pending: no key is compared and no index is
    moved.  A remote insert is therefore handed to [applyInsert] with the
    path and the value it arrived with. *)
Theorem remote_insert_keeps_index {D : Type} (h : appliers D)
    (message : change_message) (c : client D) :
  (forall pending, transform (m_change message) pending = m_change message) /\
  (type (m_change message) = "insert" ->
   doc (handleRemoteChange h message c) =
     snd (applyInsert h (path (m_change message)) (value (m_change message)) (doc c))).
Proof.
  split; [reflexivity|]. intros Hins.
  unfold handleRemoteChange, transform, applyChange.
  rewrite bool_decide_eq_true_2 by exact Hins.
  destruct (applyInsert h _ _ (doc c)) as [[[]|] d']; reflexivity.
Qed.

(** Client A, holding [[X]], receives B's insert of Y at index 0. *)
Lemma remote_insert_keeps_index_witness :
  doc (handleRemoteChange siblings (ChangeMessage insertY "B" 2)
         (working_client "A" [VStr "X"] [insertX]))
  = [VStr "Y"; VStr "X"].
Proof.
  destruct (remote_insert_keeps_index siblings (ChangeMessage insertY "B" 2)
              (working_client "A" [VStr "X"] [insertX]))
    as [_ Hdoc].
  rewrite Hdoc; reflexivity.
Defined.

(** C2, as worded: the rule that an operation under a pending delete
    becomes a reported no-op fails for the update of
    [[2].attributes.color] against the delete of [[2]]: [transform] returns
    the update itself, and the client that has deleted node 2 applies the
    update at its old path, with no error and no resynchronisation. *)
Lemma update_under_delete_counterexample :
  let c := working_client "A" [] [delete2] in
  let c' := handleRemoteChange recording (ChangeMessage updateColor "B" 2) c in
  (type delete2 = "delete" /\
   ancestor_or_equal (path delete2) (path updateColor) = true) /\
  transform updateColor [delete2] = updateColor /\
  cs_changes <$> sent c = [[delete2]] /\
  doc c' = [("applyUpdate", [Index 2; Key "attributes"; Key "color"], VStr "red")] /\
  applied_notices c' = [updateColor] /\
  resyncRequests c' = [] /\ consoleErrors c' = 0%nat.
Proof. cbn zeta. repeat split. Qed.

(** C2, amended: [transform] returns the operation of the message itself,
    and [handleRemoteChange] applies it at its own path, whatever the
    pending set holds.  When the applying method returns, the version of
    the message is taken over and the operation is announced as applied;
    no error is logged and no resynchronisation requested.  Only when the
    applying method throws is an error logged (once) and a
    resynchronisation requested; version and announcements then stay as
    they were.  In both cases the outbound buffer, the pending set and the
    messages sent are untouched.  No outcome says "dropped". *)
Theorem remote_change_applied_as_received {D : Type} (h : appliers D)
    (message : change_message) (c : client D) :
  let c' := handleRemoteChange h message c in
  let r := applyChange h (m_change message) (doc c) in
  transform (m_change message) (map snd (pendingChanges c)) = m_change message /\
  doc c' = snd r /\
  (fst r = Normal tt ->
   lastSyncedVersion c' = version message /\
   applied_notices c' = applied_notices c ++ [m_change message] /\
   resyncRequests c' = resyncRequests c /\
   consoleErrors c' = consoleErrors c) /\
  (fst r = Throw ->
   lastSyncedVersion c' = lastSyncedVersion c /\
   applied_notices c' = applied_notices c /\
   resyncRequests c' = resyncRequests c ++ [changeBuffer c] /\
   consoleErrors c' = S (consoleErrors c)) /\
  changeBuffer c' = changeBuffer c /\
  pendingChanges c' = pendingChanges c /\
  sent c' = sent c.
Proof.
  cbn zeta. unfold handleRemoteChange, transform.
  destruct (applyChange h (m_change message) (doc c)) as [[[]|] d'];
    cbn; repeat split; intros; discriminate.
Qed.

(** The theorem on the update that arrives after node 2 was deleted. *)
Lemma remote_change_applied_as_received_witness :
  let c := working_client "A" [] [delete2] in
  let c' := handleRemoteChange recording (ChangeMessage updateColor "B" 2) c in
  lastSyncedVersion c' = 2 /\ applied_notices c' = [updateColor] /\
  resyncRequests c' = [] /\ consoleErrors c' = 0%nat.
Proof.
  cbn zeta.
  destruct (remote_change_applied_as_received recording
              (ChangeMessage updateColor "B" 2) (working_client "A" [] [delete2]))
    as (_ & _ & Hok & _).
  destruct (Hok eq_refl) as (Hv & Hn & Hr & He).
  split; [exact Hv|]. split; [exact Hn|]. split; [exact Hr | exact He].
Defined.

(** ** The pending set *)

(** C3, as worded: the claim that an acknowledgement for a later operation
    is held back fails on a client that has sent its operations 4 and 5:
    the pending set holds neither; the message for operation 5 (version 9)
    is applied at once and makes [lastSyncedVersion] 9 while operation 4 is
    unacknowledged; the message for operation 4 (version 8) is applied
    after it and takes [lastSyncedVersion] back to 8. *)
Lemma acknowledgement_order_counterexample :
  let c := working_client "B" [] [update4; update5] in
  let c5 := handleRemoteChange recording (ChangeMessage update5 "B" 9) c in
  let c4 := handleRemoteChange recording (ChangeMessage update4 "B" 8) c5 in
  (cs_changes <$> sent c = [[update4; update5]] /\ pendingChanges c = []) /\
  (doc c5 = [("applyUpdate", [Index 0], VStr "five")] /\
   lastSyncedVersion c5 = 9) /\
  (doc c4 = [("applyUpdate", [Index 0], VStr "five");
             ("applyUpdate", [Index 0], VStr "four")] /\
   lastSyncedVersion c4 = 8).
Proof. cbn zeta. repeat split. Qed.

Lemma sync_step_pendingChanges {D : Type} (h : appliers D) (c c' : client D) :
  sync_step h c c' -> pendingChanges c' = pendingChanges c.
Proof.
  intros Hstep. destruct Hstep; try reflexivity.
  - unfold queueChanges, scheduleSyncChanges. cbn.
    destruct (syncTimeout c); reflexivity.
  - unfold syncTimeout_fires, syncChanges.
    assert (Hq : forall l (x : client D),
              pendingChanges (queued_meanwhile l x) = pendingChanges x).
    { induction l as [|q l IH]; intros x; [reflexivity|].
      cbn [queued_meanwhile foldl]. fold (queued_meanwhile l (queueChanges q x)).
      rewrite IH. unfold queueChanges, scheduleSyncChanges. cbn.
      destruct (syncTimeout x); reflexivity. }
    cbn [changeBuffer set_syncTimeout].
    destruct (changeBuffer c) as [|op rest]; [reflexivity|].
    unfold sendChanges, sendMessage. cbn.
    destruct (currentUser c); [destruct (socketOpen c)|]; cbn; rewrite Hq; reflexivity.
  - unfold handleRemoteChange.
    destruct (applyChange h _ (doc c)) as [[[]|] d']; reflexivity.
Qed.

(** C3, amended: no method writes the pending set: it is empty in every
    state the client reaches, and [handleRemoteChange] leaves it and the
    outbound buffer as they are; an inbound change is applied when its
    message arrives and, when the applying method returns,
    [lastSyncedVersion] becomes the version of that message. *)
Theorem pendingChanges_never_written {D : Type} (h : appliers D) (c : client D) :
  sync_reachable h c ->
  pendingChanges c = [] /\
  forall message,
    let c' := handleRemoteChange h message c in
    pendingChanges c' = [] /\
    changeBuffer c' = changeBuffer c /\
    doc c' = snd (applyChange h (m_change message) (doc c)) /\
    (fst (applyChange h (m_change message) (doc c)) = Normal tt ->
     lastSyncedVersion c' = version message).
Proof.
  intros [d Hr].
  assert (Hempty : pendingChanges c = []).
  { assert (Hgen : forall a b : client D,
              rtc (sync_step h) a b -> pendingChanges b = pendingChanges a).
    { induction 1 as [a|a b e Hstep _ IH]; [reflexivity|].
      rewrite IH. eapply sync_step_pendingChanges; eauto. }
    rewrite (Hgen _ _ Hr). reflexivity. }
  split; [exact Hempty|].
  intros message. cbn zeta.
  rewrite (sync_step_pendingChanges h c _ (sync_handleRemoteChange h message c)).
  split; [exact Hempty|].
  unfold handleRemoteChange, transform.
  destruct (applyChange h (m_change message) (doc c)) as [[[]|] d'];
    cbn; repeat split; intros; discriminate.
Qed.

Lemma working_client_reachable {D : Type} (h : appliers D) user (d : D) local :
  sync_reachable h (working_client user d local).
Proof.
  exists d. unfold working_client.
  eapply rtc_l; [apply sync_connect|].
  eapply rtc_l; [apply sync_socket|].
  eapply rtc_l; [apply sync_queueChanges|].
  eapply rtc_l; [apply sync_syncChanges|].
  apply rtc_refl.
Qed.

(** The theorem on the client that has sent its operations 4 and 5. *)
Lemma pendingChanges_never_written_witness :
  let c := working_client "B" [] [update4; update5] in
  pendingChanges c = [] /\
  lastSyncedVersion (handleRemoteChange recording (ChangeMessage update5 "B" 9) c) = 9.
Proof.
  cbn zeta.
  destruct (pendingChanges_never_written recording
              (working_client "B" [] [update4; update5]))
    as [Hempty Hmsg]; [apply working_client_reachable|].
  split; [exact Hempty|].
  destruct (Hmsg (ChangeMessage update5 "B" 9)) as (_ & _ & _ & Hv).
  apply Hv. reflexivity.
Defined.

(** ** Sending the outbound buffer *)

(** Sending fails exactly when there is no current user or the socket is
    not open. *)
Lemma sendChanges_fails {D : Type} changes (c : client D) :
  fst (sendChanges changes c) = Throw <->
  currentUser c = None \/ socketOpen c = false.
Proof.
  unfold sendChanges, sendMessage.
  destruct (currentUser c); [destruct (socketOpen c)|]; cbn; split;
    try discriminate; auto; intros [|]; discriminate.
Qed.

Lemma queued_meanwhile_buffer {D : Type} meantime (c : client D) :
  changeBuffer (queued_meanwhile meantime c) = changeBuffer c ++ concat meantime /\
  resyncRequests (queued_meanwhile meantime c) = resyncRequests c /\
  sent (queued_meanwhile meantime c) = sent c.
Proof.
  revert c. induction meantime as [|q l IH]; intros c.
  - cbn. rewrite app_nil_r. auto.
  - cbn [queued_meanwhile foldl concat]. fold (queued_meanwhile l (queueChanges q c)).
    destruct (IH (queueChanges q c)) as (-> & -> & ->).
    unfold queueChanges, scheduleSyncChanges. cbn.
    destruct (syncTimeout c); cbn; rewrite <- app_assoc; auto.
Qed.

Lemma queued_meanwhile_consoleErrors {D : Type} meantime (c : client D) :
  consoleErrors (queued_meanwhile meantime c) = consoleErrors c.
Proof.
  revert c. induction meantime as [|q l IH]; intros c; [reflexivity|].
  cbn [queued_meanwhile foldl]. fold (queued_meanwhile l (queueChanges q c)).
  rewrite IH. unfold queueChanges, scheduleSyncChanges. cbn.
  destruct (syncTimeout c); reflexivity.
Qed.

(** C4, as worded: a batch that the server rejects is not requeued.  On a
    connected client with an open socket [sendChanges] is resolved as soon
    as the message has been written to the socket, so [syncChanges]
    returns with the batch sent and removed from the buffer, no error
    logged and no resynchronisation requested; no inbound change that
    arrives afterwards puts the batch back or requests a
    resynchronisation. *)
Lemma server_rejection_counterexample :
  let c := online_client "B" [] [update4; update5] in
  let c' := syncChanges [] c in
  (socketOpen c = true /\ changeBuffer c = [update4; update5]) /\
  fst (sendChanges (changeBuffer c) (set_changeBuffer [] c)) = Normal tt /\
  sent c' = [ChangeSet (VStr "doc") [update4; update5] 0 "B"] /\
  changeBuffer c' = [] /\
  resyncRequests c' = [] /\ consoleErrors c' = 0%nat /\
  forall message,
    changeBuffer (handleRemoteChange recording message c') = [] /\
    resyncRequests (handleRemoteChange recording message c') = [].
Proof.
  cbn zeta. split; [split; reflexivity|]. do 5 (split; [reflexivity|]).
  intros message. unfold handleRemoteChange, transform, applyChange.
  repeat case_bool_decide; split; reflexivity.
Qed.

(** C4, amended: sending the buffered batch fails exactly when there is no
    current user or the socket is not open.  [syncChanges] then logs the
    error, puts the batch back at the front of the outbound buffer, in its
    order and ahead of what has been queued in the meantime, and requests
    a resynchronisation (which finds the buffer so restored); nothing has
    been sent.  With a current user and an open socket the batch is
    written to the socket as one message and [syncChanges] is done: the
    buffer holds what was queued in the meantime, no error is logged and
    no resynchronisation is requested, whatever the server answers. *)
Theorem failed_sync_requeues_batch {D : Type} (c : client D)
    (meantime : list (list change)) :
  changeBuffer c <> [] ->
  let c' := syncChanges meantime c in
  (fst (sendChanges (changeBuffer c) (set_changeBuffer [] c)) = Throw <->
   currentUser c = None \/ socketOpen c = false) /\
  (currentUser c = None \/ socketOpen c = false ->
   changeBuffer c' = changeBuffer c ++ concat meantime /\
   resyncRequests c' = resyncRequests c ++ [changeBuffer c ++ concat meantime] /\
   consoleErrors c' = S (consoleErrors c) /\
   sent c' = sent c) /\
  (forall user,
     currentUser c = Some user -> socketOpen c = true ->
     sent c' =
       sent c ++ [ChangeSet (documentId c) (changeBuffer c) (lastSyncedVersion c) user] /\
     changeBuffer c' = concat meantime /\
     resyncRequests c' = resyncRequests c /\
     consoleErrors c' = consoleErrors c).
Proof.
  intros Hne. cbn zeta. split; [|split].
  - rewrite sendChanges_fails. reflexivity.
  - intros Hfail.
    assert (Hthrow : fst (sendChanges (changeBuffer c) (set_changeBuffer [] c)) = Throw)
      by (apply sendChanges_fails; exact Hfail).
    unfold syncChanges.
    destruct (changeBuffer c) as [|op rest] eqn:Hbuf; [congruence|].
    destruct (sendChanges (op :: rest) (set_changeBuffer [] c)) as [[[]|] c2] eqn:Hs;
      [discriminate|].
    assert (Hc2 : c2 = set_changeBuffer [] c).
    { unfold sendChanges, sendMessage in Hs.
      destruct (currentUser (set_changeBuffer [] c));
        [destruct (socketOpen (set_changeBuffer [] c))|]; congruence. }
    subst c2.
    destruct (queued_meanwhile_buffer meantime (set_changeBuffer [] c))
      as (Hb & Hr & Hsent).
    pose proof (queued_meanwhile_consoleErrors meantime (set_changeBuffer [] c)) as He.
    cbn [requestResync set_changeBuffer console_error changeBuffer resyncRequests sent
           consoleErrors].
    rewrite Hb, Hr, Hsent, He. cbn. auto.
  - intros user Huser Hopen. unfold syncChanges.
    destruct (changeBuffer c) as [|op rest] eqn:Hbuf; [congruence|].
    unfold sendChanges, sendMessage.
    cbn [currentUser socketOpen set_changeBuffer]. rewrite Huser, Hopen.
    set (c2 := Client _ _ _ _ _ _ _ _ _ _ _ _).
    destruct (queued_meanwhile_buffer meantime c2) as (Hb & Hr & Hs).
    rewrite Hb, Hr, Hs, (queued_meanwhile_consoleErrors meantime c2). subst c2.
    cbn [changeBuffer sent resyncRequests consoleErrors documentId lastSyncedVersion
           set_changeBuffer].
    repeat split.
Qed.

(** The theorem on a client whose socket has not opened: the batch of
    operations 4 and 5 comes back in front of an insert queued meanwhile. *)
Lemma failed_sync_requeues_batch_witness :
  let c := offline_client "B" ([] : list jsval) [update4; update5] in
  changeBuffer (syncChanges [[insertY]] c) = [update4; update5; insertY] /\
  resyncRequests (syncChanges [[insertY]] c) = [[update4; update5; insertY]] /\
  consoleErrors (syncChanges [[insertY]] c) = 1%nat.
Proof.
  cbn zeta.
  destruct (failed_sync_requeues_batch
              (offline_client "B" ([] : list jsval) [update4; update5]) [[insertY]])
    as (_ & Hfail & _); [discriminate|].
  destruct Hfail as (Hb & Hr & He & _); [right; reflexivity|].
  split; [exact Hb|]. split; [exact Hr | exact He].
Defined.

(** * Further properties of the undo/redo manager *)

(** ** What [execute] does to the redo future *)

(** X1: whatever becomes of the command (pushed, fused into the entry at
    the cursor, refused by its routine, or thrown), [execute] leaves the
    cursor on the last entry: the entries after the cursor are gone and
    [redo()] has nothing to do. *)
Theorem execute_discards_redo c w :
  cursor_ok (this w) ->
  let w' := snd (execute c w) in
  currentIndex (this w') = hlen (this w') - 1 /\
  canRedo (this w') = false /\
  redo w' = (Normal false, w').
Proof.
  intros Hok. cbn zeta.
  assert (Hend : currentIndex (this (snd (execute c w)))
                 = hlen (this (snd (execute c w))) - 1).
  { unfold execute.
    destruct (clear_redo_cursor _ Hok) as (Hci & Hlen & _).
    destruct Hok as [Hlo Hhi].
    destruct (try_combine _ c) as [[prev st]|].
    - destruct (run_execute c (dom w)) as [[[b|] c'] d']; cbn [snd this];
        rewrite hlen_set_history, length_insert; cbn [currentIndex set_history];
        fold (hlen (clear_redo (this w))); lia.
    - destruct (run_execute c (dom w)) as [[[[]|] c'] d'];
        cbn [snd this notifyHistoryChange]; try lia.
      destruct (push_cursor c' (clear_redo (this w))) as [Hci2 Hlen2].
      destruct (limit_size_cursor (push c' (clear_redo (this w)))) as [[-> ->]|[-> ->]];
        lia. }
  assert (Hcan : canRedo (this (snd (execute c w))) = false).
  { unfold canRedo. apply Z.ltb_ge. lia. }
  split; [exact Hend|]. split; [exact Hcan|].
  unfold redo. rewrite Hcan. reflexivity.
Qed.

(** The theorem on a command that refuses, executed after an undo: the
    undone entry can no longer be redone, though nothing was executed. *)
Lemma execute_discards_redo_witness :
  canRedo (this edited_and_undone) = true /\
  let w' := snd (execute (Command "custom" ∅ ∅ refusing) edited_and_undone) in
  canRedo (this w') = false /\ history (this w') = [] /\ dom w' = dom edited_and_undone.
Proof.
  split; [reflexivity|]. cbn zeta.
  destruct (execute_discards_redo (Command "custom" ∅ ∅ refusing) edited_and_undone)
    as (_ & Hcan & _).
  - unfold cursor_ok, hlen. vm_compute. split; congruence.
  - split; [exact Hcan|]. split; reflexivity.
Defined.

(** ** The bound on the history *)

Lemma length_splice_from_le {A} (a : list A) (start : Z) :
  (length (splice_from a start) <= length a)%nat.
Proof. unfold splice_from. rewrite length_take. lia. Qed.

Lemma clear_redo_bounded m :
  hlen (clear_redo m) <= hlen m /\ maxHistorySize (clear_redo m) = maxHistorySize m.
Proof.
  unfold clear_redo. destruct (_ <? _); [|split; [lia|reflexivity]].
  split; [|reflexivity]. rewrite hlen_set_history.
  pose proof (length_splice_from_le (history m) (currentIndex m + 1)).
  unfold hlen. lia.
Qed.

Lemma limit_size_bounded m :
  0 <= maxHistorySize m -> hlen m <= maxHistorySize m + 1 ->
  history_bounded (limit_size m).
Proof.
  intros Hmax Hlen. unfold limit_size, history_bounded.
  destruct (Z.ltb_spec (maxHistorySize m) (hlen m)).
  - rewrite hlen_set_currentIndex, hlen_set_history, length_shift.
    cbn [maxHistorySize set_currentIndex set_history]. fold (hlen m). lia.
  - lia.
Qed.

Lemma execute_bounded c w :
  history_bounded (this w) -> history_bounded (this (snd (execute c w))).
Proof.
  intros [Hmax Hlen]. unfold execute.
  destruct (clear_redo_bounded (this w)) as [Hl Hm].
  destruct (try_combine _ c) as [[prev st]|].
  - destruct (run_execute c (dom w)) as [[[b|] c'] d']; cbn [snd this];
      unfold history_bounded; rewrite hlen_set_history, length_insert;
      cbn [maxHistorySize set_history]; fold (hlen (clear_redo (this w))); lia.
  - destruct (run_execute c (dom w)) as [[[[]|] c'] d'];
      cbn [snd this notifyHistoryChange]; try (unfold history_bounded; lia).
    destruct (push_cursor c' (clear_redo (this w))) as [_ Hlen2].
    apply limit_size_bounded.
    + change (maxHistorySize (push c' (clear_redo (this w))))
        with (maxHistorySize (clear_redo (this w))). lia.
    + change (maxHistorySize (push c' (clear_redo (this w))))
        with (maxHistorySize (clear_redo (this w))). lia.
Qed.

Lemma undo_bounded w :
  history_bounded (this w) -> history_bounded (this (snd (undo w))).
Proof.
  intros Hb. unfold undo. destruct (negb _); [exact Hb|].
  destruct (at_index _ _) as [c|]; [|exact Hb].
  destruct (run_undo c (dom w)) as [[[[]|] c'] d'];
    cbn [snd this notifyHistoryChange]; unfold history_bounded in *;
    rewrite ?hlen_set_currentIndex, hlen_set_history, length_insert;
    cbn [maxHistorySize set_currentIndex set_history]; fold (hlen (this w)); exact Hb.
Qed.

Lemma redo_bounded w :
  history_bounded (this w) -> history_bounded (this (snd (redo w))).
Proof.
  intros Hb. unfold redo. destruct (negb _); [exact Hb|].
  destruct (at_index _ _) as [c|]; [|exact Hb].
  destruct (run_execute c (dom w)) as [[[[]|] c'] d'];
    cbn [snd this notifyHistoryChange]; unfold history_bounded in *;
    rewrite ?hlen_set_currentIndex, hlen_set_history, length_insert;
    cbn [maxHistorySize set_currentIndex set_history]; fold (hlen (this w)); exact Hb.
Qed.

Lemma endBatch_bounded batchId now w :
  history_bounded (this w) -> history_bounded (this (snd (endBatch batchId now w))).
Proof.
  intros Hb. unfold endBatch.
  destruct (batchOperations (this w) !! batchId) as [b|]; [|exact Hb].
  destruct (0 <? _); [|exact Hb].
  pose proof (execute_bounded (createBatchCommand (combiner (b_type b) (b_operations b)) now)
                w Hb) as H1.
  destruct (execute _ w) as [[[]|] w1]; exact H1.
Qed.

Lemma shift_while_bounded fuel size m m' :
  shift_while fuel size m = Some m' ->
  hlen m' <= size /\ maxHistorySize m' = maxHistorySize m.
Proof.
  revert m. induction fuel as [|fuel IH]; intros m; [discriminate|].
  cbn [shift_while]. destruct (Z.ltb_spec size (hlen m)).
  - intros H1. destruct (IH _ H1) as [Hl Hm]. split; [exact Hl|exact Hm].
  - intros [= <-]. split; [lia|reflexivity].
Qed.

Lemma step_bounded w w' :
  step any_size w w' -> history_bounded (this w) -> history_bounded (this w').
Proof.
  intros Hstep Hb. destruct Hstep; cbn [this].
  - pose proof (execute_bounded c w Hb) as H1. rewrite H in H1. exact H1.
  - pose proof (undo_bounded w Hb) as H1. rewrite H in H1. exact H1.
  - pose proof (redo_bounded w Hb) as H1. rewrite H in H1. exact H1.
  - exact Hb.
  - unfold addToBatch. destruct (_ !! _); exact Hb.
  - pose proof (endBatch_bounded batchId now w Hb) as H1. rewrite H in H1. exact H1.
  - unfold history_bounded, hlen in *. simpl. lia.
  - unfold setMaxHistorySize in H0.
    destruct (shift_while_bounded _ _ _ _ H0) as [Hl Hm].
    destruct (Z.lt_ge_cases size 0) as [Hneg|Hpos].
    + rewrite (shift_while_negative fuel size _ Hneg) in H0. discriminate.
    + unfold history_bounded. rewrite Hm. cbn [maxHistorySize set_maxHistorySize].
      split; [exact Hpos|exact Hl].
Qed.

(** X2: in every state reached from a new manager by [execute], [undo],
    [redo], the batch methods, [clearHistory] and any calls of
    [setMaxHistorySize] that return, the history holds at most
    [maxHistorySize] entries, and [maxHistorySize] is not negative. *)
Theorem history_never_exceeds_maximum w :
  reachable any_size w -> history_bounded (this w).
Proof.
  intros [d Hr].
  assert (Hgen : forall a b,
            rtc (step any_size) a b -> history_bounded (this a) -> history_bounded (this b)).
  { induction 1 as [a|a b e Hstep _ IH]; [auto|].
    intros Ha. apply IH. eapply step_bounded; eauto. }
  apply (Hgen _ _ Hr).
  unfold history_bounded, hlen, constructor, registerCommand. simpl. lia.
Qed.

(** The theorem on the world in which one edit was executed and undone. *)
Lemma history_never_exceeds_maximum_witness :
  hlen (this edited_and_undone) <= 100.
Proof.
  destruct (history_never_exceeds_maximum edited_and_undone
              (edited_and_undone_reachable any_size)) as [_ H].
  exact H.
Defined.

(** ** [setMaxHistorySize] *)

Lemma shift_while_drop fuel size m :
  0 <= size -> (length (history m) < fuel)%nat ->
  let k := Z.max 0 (hlen m - size) in
  shift_while fuel size m =
  Some (set_currentIndex (currentIndex m - k)
          (set_history (drop (Z.to_nat k) (history m)) m)).
Proof.
  intros Hsize. revert m. induction fuel as [|fuel IH]; intros m Hfuel; [lia|].
  cbn zeta. cbn [shift_while].
  destruct (Z.ltb_spec size (hlen m)) as [Hlt|Hge].
  - set (m1 := set_currentIndex _ _).
    assert (Hlen1 : hlen m1 = hlen m - 1).
    { subst m1. rewrite hlen_set_currentIndex, hlen_set_history, length_shift.
      fold (hlen m). lia. }
    rewrite IH by (unfold hlen in Hlen1, Hlt; lia). cbn zeta.
    rewrite Hlen1. subst m1. unfold set_currentIndex, set_history, shift. cbn.
    rewrite drop_drop. do 2 f_equal.
    + f_equal. lia.
    + lia.
  - replace (Z.max 0 (hlen m - size)) with 0 by lia.
    rewrite Z.sub_0_r. destruct m. reflexivity.
Qed.

Lemma shift_while_some_drop fuel size m m' :
  0 <= size -> shift_while fuel size m = Some m' ->
  let k := Z.max 0 (hlen m - size) in
  m' = set_currentIndex (currentIndex m - k)
         (set_history (drop (Z.to_nat k) (history m)) m).
Proof.
  intros Hsize. revert m. induction fuel as [|fuel IH]; intros m; [discriminate|].
  cbn zeta. cbn [shift_while].
  destruct (Z.ltb_spec size (hlen m)) as [Hlt|Hge].
  - set (m1 := set_currentIndex _ _).
    assert (Hlen1 : hlen m1 = hlen m - 1).
    { subst m1. rewrite hlen_set_currentIndex, hlen_set_history, length_shift.
      fold (hlen m). lia. }
    intros Hrun. rewrite (IH _ Hrun). cbn zeta.
    rewrite Hlen1. subst m1. unfold set_currentIndex, set_history, shift. cbn.
    rewrite drop_drop. f_equal.
    + f_equal. lia.
    + lia.
  - intros [= <-]. replace (Z.max 0 (hlen m - size)) with 0 by lia.
    rewrite Z.sub_0_r. destruct m. reflexivity.
Qed.

(** X3: for a size that is not negative, [setMaxHistorySize] returns: it
    keeps the newest [size] entries (all of them if there are fewer), lowers
    the cursor by the number of entries dropped and records the size; the
    batches and snapshots are as before.  For a negative size it never
    returns. *)
Theorem setMaxHistorySize_keeps_newest fuel size m :
  (0 <= size -> (length (history m) < fuel)%nat ->
   let dropped := Z.max 0 (hlen m - size) in
   exists m',
     setMaxHistorySize fuel size m = Some m' /\
     history m' = drop (Z.to_nat dropped) (history m) /\
     currentIndex m' = currentIndex m - dropped /\
     maxHistorySize m' = size /\
     batchOperations m' = batchOperations m /\
     snapshots m' = snapshots m)
  /\
  (size < 0 -> setMaxHistorySize fuel size m = None).
Proof.
  split.
  - intros Hsize Hfuel. cbn zeta. unfold setMaxHistorySize.
    rewrite shift_while_drop by assumption. cbn zeta.
    eexists. split; [reflexivity|]. repeat split.
  - intros Hneg. apply shift_while_negative. exact Hneg.
Qed.

(** The theorem on a history of one entry: size 1 keeps it, size 0 drops it. *)
Lemma setMaxHistorySize_keeps_newest_witness :
  (history <$> setMaxHistorySize 2 1 (this edited)) = Some (history (this edited)) /\
  (history <$> setMaxHistorySize 2 0 (this edited)) = Some [] /\
  setMaxHistorySize 2 (-1) (this edited) = None.
Proof.
  destruct (setMaxHistorySize_keeps_newest 2 1 (this edited)) as [H1 _].
  destruct (setMaxHistorySize_keeps_newest 2 0 (this edited)) as [H0 _].
  destruct (setMaxHistorySize_keeps_newest 2 (-1) (this edited)) as [_ Hn].
  destruct H1 as (m1 & -> & Hh1 & _); [lia | vm_compute; lia |].
  destruct H0 as (m0 & -> & Hh0 & _); [lia | vm_compute; lia |].
  split; [cbn; rewrite Hh1; reflexivity|].
  split; [cbn; rewrite Hh0; reflexivity|].
  apply Hn. lia.
Defined.

(** X4: when [setMaxHistorySize] drops more entries than have been applied
    (entries that were undone and could be redone are among the dropped),
    the cursor ends below -1; from then on [undo()] returns false and
    [redo()] throws, since it reads the entry at a negative index. *)
Theorem setMaxHistorySize_cursor_below_floor fuel size m m' :
  0 <= size ->
  currentIndex m + 1 < hlen m - size ->
  setMaxHistorySize fuel size m = Some m' ->
  currentIndex m' < -1 /\
  forall d ev,
    undo (World m' d ev) = (Normal false, World m' d ev) /\
    redo (World m' d ev) = (Throw, World m' d ev).
Proof.
  intros Hsize Hdrop Hrun.
  unfold setMaxHistorySize in Hrun.
  pose proof (shift_while_some_drop _ _ _ _ Hsize Hrun) as Hm'.
  cbn zeta in Hm'.
  change (hlen (set_maxHistorySize size m)) with (hlen m) in Hm'.
  assert (Hci : currentIndex m' = currentIndex m - Z.max 0 (hlen m - size))
    by (rewrite Hm'; reflexivity).
  assert (Hlow : currentIndex m' < -1) by lia.
  split; [exact Hlow|].
  intros d ev. split.
  - unfold undo, canUndo. cbn [this].
    destruct (Z.leb_spec 0 (currentIndex m')); [lia|]. reflexivity.
  - unfold redo, canRedo. cbn [this].
    destruct (Z.ltb_spec (currentIndex m') (hlen m' - 1)) as [_|Hge].
    + cbn [negb]. unfold at_index.
      destruct (Z.ltb_spec (currentIndex m' + 1) 0); [reflexivity|lia].
    + unfold hlen in Hge. lia.
Qed.

(** The theorem on one entry that has been undone, with size 0. *)
Lemma setMaxHistorySize_cursor_below_floor_witness :
  exists m',
    setMaxHistorySize 2 0 (this edited_and_undone) = Some m' /\
    currentIndex m' = -2 /\
    fst (redo (World m' ∅ [])) = Throw.
Proof.
  eexists. split; [reflexivity|]. split; [reflexivity|].
  destruct (setMaxHistorySize_cursor_below_floor 2 0 (this edited_and_undone) _
              ltac:(lia) ltac:(vm_compute; reflexivity) eq_refl) as [_ H].
  destruct (H ∅ []) as [_ ->]. reflexivity.
Defined.

(** ** Snapshots *)

(** X5: [restoreSnapshot] compares indices only.  Whenever the cursor is
    at the recorded index it returns true without calling [undo()] or
    [redo()] and leaves everything as it is, also when the entry at that
    index is no longer the one the snapshot was taken on. *)
Theorem restoreSnapshot_at_cursor fuel snapshotId s w :
  snapshots (this w) !! snapshotId = Some s ->
  currentIndex (this w) = historyIndex s ->
  restoreSnapshot (S fuel) snapshotId w = Some (Normal true, w).
Proof.
  intros Hsnap Hat. unfold restoreSnapshot. rewrite Hsnap.
  cbn [undo_while]. rewrite Hat, Z.ltb_irrefl.
  cbn [redo_while]. rewrite Hat, Z.ltb_irrefl. reflexivity.
Qed.

(** The theorem on a snapshot taken on the edit "a" to "b", after that edit
    was undone and the edit "a" to "z" executed in its place: the text
    stays "z". *)
Lemma restoreSnapshot_at_cursor_witness :
  textContent (dom replaced_after_snapshot) 0 = "z" /\
  restoreSnapshot 1 "s" replaced_after_snapshot
    = Some (Normal true, replaced_after_snapshot).
Proof.
  split; [reflexivity|].
  apply (restoreSnapshot_at_cursor 0 "s" (Snapshot 0 6) replaced_after_snapshot);
    reflexivity.
Defined.

(** X6: when the cursor is on the last entry and the recorded index lies
    beyond it (the entry the snapshot was taken on has been cut off or
    cleared since), [restoreSnapshot] never returns: [redo()] has nothing
    to do, returns false, and the loop calls it again. *)
Theorem restoreSnapshot_beyond_history fuel snapshotId s w :
  snapshots (this w) !! snapshotId = Some s ->
  currentIndex (this w) = hlen (this w) - 1 ->
  currentIndex (this w) < historyIndex s ->
  restoreSnapshot fuel snapshotId w = None.
Proof.
  intros Hsnap Hend Hbeyond. unfold restoreSnapshot. rewrite Hsnap.
  destruct fuel as [|fuel]; [reflexivity|].
  cbn [undo_while].
  destruct (Z.ltb_spec (historyIndex s) (currentIndex (this w))); [lia|].
  rewrite redo_while_stuck; [reflexivity|exact Hbeyond|].
  unfold redo, canRedo.
  destruct (Z.ltb_spec (currentIndex (this w)) (hlen (this w) - 1)); [lia|].
  reflexivity.
Qed.

(** The theorem on a snapshot taken on the first entry before
    [clearHistory()]. *)
Lemma restoreSnapshot_beyond_history_witness :
  restoreSnapshot 1000 "s" cleared_after_snapshot = None.
Proof.
  apply (restoreSnapshot_beyond_history 1000 "s" (Snapshot 0 6) cleared_after_snapshot);
    [reflexivity | reflexivity | vm_compute; reflexivity].
Defined.

(** ** Undo followed by redo *)

(** X7: when the [undo] routine of the entry at the cursor succeeds and the
    [execute] routine of the entry, run on the document so left, succeeds
    and brings the document and the entry back, [undo()] followed by
    [redo()] gives back the manager and the document; two events have been
    dispatched. *)
Theorem undo_redo_round_trip w c c' d' :
  cursor_ok (this w) ->
  canUndo (this w) = true ->
  at_index (history (this w)) (currentIndex (this w)) = Some c ->
  run_undo c (dom w) = (Normal true, c', d') ->
  run_execute c' d' = (Normal true, c, dom w) ->
  let w2 := snd (redo (snd (undo w))) in
  fst (undo w) = Normal true /\
  fst (redo (snd (undo w))) = Normal true /\
  this w2 = this w /\ dom w2 = dom w /\
  length (events w2) = S (S (length (events w))).
Proof.
  intros [Hlo Hhi] Hcan Hat Hundo Hexec. cbn zeta.
  assert (Hpos : 0 <= currentIndex (this w))
    by (unfold canUndo in Hcan; apply Z.leb_le; exact Hcan).
  assert (Hlook : history (this w) !! Z.to_nat (currentIndex (this w)) = Some c).
  { unfold at_index in Hat. destruct (_ <? 0); [discriminate|exact Hat]. }
  assert (Hu : undo w =
            (Normal true,
             notifyHistoryChange
               (World (set_currentIndex (currentIndex (this w) - 1)
                         (set_history
                            (<[Z.to_nat (currentIndex (this w)) := c']> (history (this w)))
                            (this w)))
                      d' (events w)))).
  { unfold undo. rewrite Hcan, Hat, Hundo. reflexivity. }
  rewrite Hu. cbn [fst snd].
  unfold redo, canRedo, notifyHistoryChange.
  cbn [this dom events currentIndex set_currentIndex history set_history].
  rewrite hlen_set_currentIndex, hlen_set_history, length_insert.
  fold (hlen (this w)).
  destruct (Z.ltb_spec (currentIndex (this w) - 1) (hlen (this w) - 1)); [|lia].
  cbn [negb].
  replace (currentIndex (this w) - 1 + 1) with (currentIndex (this w)) by lia.
  unfold at_index. destruct (Z.ltb_spec (currentIndex (this w)) 0); [lia|].
  rewrite list_lookup_insert_eq by (unfold hlen in Hhi; lia).
  rewrite Hexec. cbn [fst snd this dom events].
  split; [reflexivity|]. split; [reflexivity|].
  split; [|split; [reflexivity|]].
  - rewrite list_insert_insert_eq, list_insert_id by exact Hlook.
    destruct (this w). reflexivity.
  - rewrite !length_app. cbn. lia.
Qed.

(** The theorem on the edit "a" to "b" of an element whose text is "b". *)
Lemma undo_redo_round_trip_witness :
  this (snd (redo (snd (undo edited)))) = this edited /\
  dom (snd (redo (snd (undo edited)))) = dom edited.
Proof.
  destruct (undo_redo_round_trip edited (edit "a" "b" 5) (edit "a" "b" 5)
              {[0%nat := "a"]})
    as (_ & _ & Hm & Hd & _);
    [vm_compute; split; congruence | reflexivity | reflexivity
    | reflexivity | reflexivity |].
  split; [exact Hm | exact Hd].
Defined.





(** ** Closing a batch *)

Lemma execute_batchOperations c w :
  batchOperations (this (snd (execute c w))) = batchOperations (this w).
Proof.
  unfold execute.
  assert (Hc : batchOperations (clear_redo (this w)) = batchOperations (this w)).
  { unfold clear_redo. destruct (_ <? _); reflexivity. }
  destruct (try_combine _ c) as [[prev st]|].
  - destruct (run_execute c (dom w)) as [[[b|] c'] d']; exact Hc.
  - destruct (run_execute c (dom w)) as [[[[]|] c'] d']; try exact Hc.
    cbn [snd this notifyHistoryChange]. unfold limit_size.
    destruct (_ <? _); exact Hc.
Qed.

(** X9: when [endBatch] returns, the batch is closed: its identifier is no
    longer in [batchOperations], and a command added to it afterwards is
    dropped without a trace.  When the batch command throws, [endBatch]
    throws before it removes the batch, which stays open with its
    commands. *)
Theorem endBatch_closes_batch batchId now w :
  let w' := snd (endBatch batchId now w) in
  (fst (endBatch batchId now w) = Normal tt ->
   batchOperations (this w') !! batchId = None /\
   forall c, addToBatch batchId c (this w') = this w')
  /\
  (fst (endBatch batchId now w) = Throw ->
   batchOperations (this w') !! batchId = batchOperations (this w) !! batchId /\
   is_Some (batchOperations (this w) !! batchId)).
Proof.
  cbn zeta. unfold endBatch.
  destruct (batchOperations (this w) !! batchId) as [b|] eqn:Hb.
  - destruct (0 <? _).
    + pose proof (execute_batchOperations
                    (createBatchCommand (combiner (b_type b) (b_operations b)) now) w)
        as Hbo.
      destruct (execute _ w) as [[[]|] w1]; cbn [fst snd] in *.
      * split; [|discriminate]. intros _.
        assert (Hgone : delete batchId (batchOperations (this w1)) !! batchId = None)
          by apply lookup_delete_eq.
        split; [exact Hgone|].
        intros c. unfold addToBatch. cbn [this batchOperations set_batchOperations].
        rewrite Hgone. reflexivity.
      * split; [discriminate|]. intros _. rewrite Hbo, Hb. eauto.
    + cbn [fst snd]. split; [|discriminate]. intros _.
      assert (Hgone : delete batchId (batchOperations (this w)) !! batchId = None)
        by apply lookup_delete_eq.
      split; [exact Hgone|].
      intros c. unfold addToBatch. cbn [this batchOperations set_batchOperations].
      rewrite Hgone. reflexivity.
  - cbn [fst snd]. split; [|discriminate]. intros _.
    split; [exact Hb|]. intros c. unfold addToBatch. rewrite Hb. reflexivity.
Qed.

(** The theorem on a batch of two edits, which closes, and on a batch
    whose command throws, which stays open. *)
Lemma endBatch_closes_batch_witness :
  batchOperations (this (snd (endBatch "g" 3 drag_batch))) !! "g" = None /\
  b_operations <$> batchOperations (this (snd (endBatch "g" 3 throwing_batch))) !! "g"
    = Some [Command "textEdit" ∅ ∅ textEdit].
Proof.
  destruct (endBatch_closes_batch "g" 3 drag_batch) as [Hok _].
  destruct (endBatch_closes_batch "g" 3 throwing_batch) as [_ Hthrow].
  destruct (Hok eq_refl) as [Hgone _].
  destruct (Hthrow eq_refl) as [Hstay _].
  split; [exact Hgone|]. rewrite Hstay. reflexivity.
Defined.

(** X10: of a batch of type [drag] or [resize], [endBatch] executes and
    records the last command only, as a batch of one; the commands added
    before it are neither executed nor kept, so they can never be undone
    or redone. *)
Theorem drag_batch_keeps_last batchId now w type ops c t :
  type = "drag" \/ type = "resize" ->
  batchOperations (this w) !! batchId = Some (Batch type (ops ++ [c]) t) ->
  let w1 := snd (execute (createBatchCommand [c] now) w) in
  let w' := snd (endBatch batchId now w) in
  fst (endBatch batchId now w) = fst (execute (createBatchCommand [c] now) w) /\
  history (this w') = history (this w1) /\
  currentIndex (this w') = currentIndex (this w1) /\
  dom w' = dom w1 /\ events w' = events w1.
Proof.
  intros Htype Hb. cbn zeta. unfold endBatch. rewrite Hb. cbn [b_type b_operations].
  assert (Hcomb : combiner type (ops ++ [c]) = [c]).
  { unfold combiner. rewrite last_snoc.
    destruct Htype as [-> | ->]; reflexivity. }
  rewrite Hcomb. cbn [length Z.of_nat].
  change (0 <? Z.of_nat 1) with true. cbn iota.
  destruct (execute (createBatchCommand [c] now) w) as [[[]|] w1]; repeat split.
Qed.

(** The theorem on a drag batch of the edits "a" to "b" and "a" to "c":
    the history gets a batch that holds the second edit only. *)
Lemma drag_batch_keeps_last_witness :
  history (this (snd (endBatch "g" 3 drag_batch))) = [BatchCommand 3 [edit "a" "c" 2]] /\
  textContent (dom (snd (endBatch "g" 3 drag_batch))) 0 = "c".
Proof.
  destruct (drag_batch_keeps_last "g" 3 drag_batch "drag" [edit "a" "b" 1]
              (edit "a" "c" 2) 0)
    as (_ & Hh & _ & Hd & _); [left; reflexivity | reflexivity |].
  rewrite Hh, Hd. split; reflexivity.
Defined.

(** * Further properties of the change synchronisation channel *)

(** X11: when the socket is open and there is a current user,
    [syncChanges] sends the whole buffer as one message, in buffer order,
    stamped with the document, the current [lastSyncedVersion] and the
    user; afterwards the buffer holds what was queued in the meantime and
    nothing else; no error is logged and no resynchronisation requested. *)
Theorem syncChanges_sends_one_batch {D : Type} (c : client D) meantime user :
  changeBuffer c <> [] ->
  socketOpen c = true ->
  currentUser c = Some user ->
  let c' := syncChanges meantime c in
  sent c' =
    sent c ++ [ChangeSet (documentId c) (changeBuffer c) (lastSyncedVersion c) user] /\
  changeBuffer c' = concat meantime /\
  resyncRequests c' = resyncRequests c /\
  consoleErrors c' = consoleErrors c /\
  lastSyncedVersion c' = lastSyncedVersion c.
Proof.
  intros Hne Hopen Huser. cbn zeta. unfold syncChanges.
  destruct (changeBuffer c) as [|op rest] eqn:Hbuf; [congruence|].
  unfold sendChanges, sendMessage.
  cbn [currentUser socketOpen set_changeBuffer]. rewrite Huser, Hopen.
  set (c2 := Client _ _ _ _ _ _ _ _ _ _ _ _).
  destruct (queued_meanwhile_buffer meantime c2) as (Hb & Hr & Hs).
  rewrite Hb, Hr, Hs. subst c2.
  cbn [changeBuffer sent resyncRequests documentId lastSyncedVersion set_changeBuffer].
  repeat split.
  - assert (Hq : forall l (x : client D),
              consoleErrors (queued_meanwhile l x) = consoleErrors x).
    { induction l as [|q l IH]; intros x; [reflexivity|].
      cbn [queued_meanwhile foldl]. fold (queued_meanwhile l (queueChanges q x)).
      rewrite IH. unfold queueChanges, scheduleSyncChanges. cbn.
      destruct (syncTimeout x); reflexivity. }
    rewrite Hq. reflexivity.
  - assert (Hq : forall l (x : client D),
              lastSyncedVersion (queued_meanwhile l x) = lastSyncedVersion x).
    { induction l as [|q l IH]; intros x; [reflexivity|].
      cbn [queued_meanwhile foldl]. fold (queued_meanwhile l (queueChanges q x)).
      rewrite IH. unfold queueChanges, scheduleSyncChanges. cbn.
      destruct (syncTimeout x); reflexivity. }
    rewrite Hq. reflexivity.
Qed.

(** The theorem on a connected client with operations 4 and 5 in its
    buffer, while an insert is queued. *)
Lemma syncChanges_sends_one_batch_witness :
  let c := set_socketOpen true (offline_client "B" ([] : list jsval) [update4; update5]) in
  sent (syncChanges [[insertY]] c) = [ChangeSet (VStr "doc") [update4; update5] 0 "B"] /\
  changeBuffer (syncChanges [[insertY]] c) = [insertY].
Proof.
  cbn zeta.
  destruct (syncChanges_sends_one_batch
              (set_socketOpen true (offline_client "B" ([] : list jsval) [update4; update5]))
              [[insertY]] "B")
    as (Hs & Hb & _); [discriminate | reflexivity | reflexivity |].
  split; [exact Hs | exact Hb].
Defined.

Lemma outbound_syncChanges {D : Type} (c : client D) meantime :
  outbound (syncChanges meantime c) =
  outbound c ++
    match changeBuffer c with
    | [] => []
    | _ :: _ => concat meantime
    end.
Proof.
  unfold syncChanges, outbound.
  destruct (changeBuffer c) as [|op rest] eqn:Hbuf.
  - rewrite Hbuf, !app_nil_r. reflexivity.
  - unfold sendChanges, sendMessage. cbn [currentUser socketOpen set_changeBuffer].
    destruct (currentUser c) as [user|]; [destruct (socketOpen c)|].
    + set (c2 := Client _ _ _ _ _ _ _ _ _ _ _ _).
      destruct (queued_meanwhile_buffer meantime c2) as (-> & _ & ->).
      subst c2. cbn [changeBuffer sent].
      rewrite fmap_app, concat_app. cbn. rewrite app_nil_r, <- !app_assoc. reflexivity.
    + destruct (queued_meanwhile_buffer meantime (set_changeBuffer [] c)) as (Hb & _ & Hs).
      cbn [requestResync set_changeBuffer console_error changeBuffer sent].
      rewrite Hb, Hs. cbn. rewrite <- app_assoc. reflexivity.
    + destruct (queued_meanwhile_buffer meantime (set_changeBuffer [] c)) as (Hb & _ & Hs).
      cbn [requestResync set_changeBuffer console_error changeBuffer sent].
      rewrite Hb, Hs. cbn. rewrite <- app_assoc. reflexivity.
Qed.

(** X12: no local change is lost, sent twice or overtaken.  After any
    run of connecting, socket changes, [queueChanges], timer callbacks
    (whether the send succeeds or fails) and inbound changes, the changes
    of the messages sent followed by the changes in the buffer are exactly
    the changes that were queued, in the order in which they were queued. *)
Theorem outbound_changes_in_queue_order {D : Type} (h : appliers D)
    (es : list sync_event) (c : client D) :
  outbound (fst (run_events h es c)) = outbound c ++ snd (run_events h es c).
Proof.
  revert c. induction es as [|e rest IH]; intros c.
  - cbn. rewrite app_nil_r. reflexivity.
  - cbn [run_events].
    assert (Hstep : forall c1 q1,
              outbound c1 = outbound c ++ q1 ->
              outbound (fst (let '(c2, q2) := run_events h rest c1 in (c2, q1 ++ q2)))
              = outbound c ++
                snd (let '(c2, q2) := run_events h rest c1 in (c2, q1 ++ q2))).
    { intros c1 q1 H1. specialize (IH c1).
      destruct (run_events h rest c1) as [c2 q2]. cbn [fst snd] in *.
      rewrite IH, H1, app_assoc. reflexivity. }
    destruct e as [id user v|o|changes|meantime|message]; apply Hstep.
    + rewrite app_nil_r. reflexivity.
    + rewrite app_nil_r. reflexivity.
    + unfold outbound, queueChanges, scheduleSyncChanges. cbn.
      destruct (syncTimeout c); cbn; rewrite app_assoc; reflexivity.
    + unfold syncTimeout_fires. rewrite outbound_syncChanges. reflexivity.
    + rewrite app_nil_r. unfold outbound, handleRemoteChange.
      destruct (applyChange h _ (doc c)) as [[[]|] d']; reflexivity.
Qed.

(** * Properties of the state manager *)

Lemma sm_notifyObservers_fields event s :
  StateManager.components (StateManager.notifyObservers event s) = StateManager.components s /\
  StateManager.history (StateManager.notifyObservers event s) = StateManager.history s /\
  StateManager.currentHistoryIndex (StateManager.notifyObservers event s)
    = StateManager.currentHistoryIndex s /\
  StateManager.maxHistoryStates (StateManager.notifyObservers event s)
    = StateManager.maxHistoryStates s /\
  StateManager.objects (StateManager.notifyObservers event s) = StateManager.objects s.
Proof. repeat split. Qed.

(** While [components] is the object of the constructor, the methods that
    record a state throw at their first step. *)
Lemma sm_components_object_throws s :
  StateManager.components s = StateManager.ComponentsObject ->
  (forall a now, StateManager.saveState a now s = (Throw, s)) /\
  (forall r now, StateManager.addComponent r now s = (Throw, s)) /\
  (forall id updates now, StateManager.updateComponent id updates now s = (Throw, s)) /\
  (forall id now, StateManager.deleteComponent id now s = (Throw, s)).
Proof.
  intros Hc. repeat split; intros;
    unfold StateManager.saveState, StateManager.serializeState,
      StateManager.addComponent, StateManager.updateComponent,
      StateManager.deleteComponent;
    rewrite Hc; reflexivity.
Qed.

Lemma sm_step_without_restore s s' :
  StateManager.step false s s' ->
  StateManager.components s = StateManager.ComponentsObject ->
  StateManager.history s = [] ->
  StateManager.currentHistoryIndex s = -1 ->
  StateManager.components s' = StateManager.ComponentsObject /\
  StateManager.history s' = [] /\
  StateManager.currentHistoryIndex s' = -1.
Proof.
  intros Hstep Hc Hh Hi.
  destruct (sm_components_object_throws s Hc) as (Hsave & Hadd & Hupd & Hdel).
  destruct Hstep.
  - rewrite Hsave. auto.
  - unfold StateManager.undo. rewrite Hi. cbn. auto.
  - unfold StateManager.redo. rewrite Hi, Hh. cbn. auto.
  - rewrite Hadd. auto.
  - rewrite Hupd. auto.
  - rewrite Hdel. auto.
  - cbn. auto.
  - cbn. auto.
  - unfold StateManager.removeObserver.
    destruct (StateManager.observers s !! event); cbn; auto.
  - discriminate.
Qed.

(** X13: a manager as the constructor makes it records nothing.  The
    object literal of the constructor gives [state.components] an object
    that is not a [Map], so as long as no caller hands a snapshot to
    [restoreState], [saveState], [addComponent], [updateComponent] and
    [deleteComponent] throw and change nothing, whatever was called
    before, and the history stays empty. *)
Theorem fresh_manager_records_nothing s :
  StateManager.reachable false s ->
  (StateManager.components s = StateManager.ComponentsObject /\
   StateManager.history s = [] /\
   StateManager.currentHistoryIndex s = -1) /\
  (forall a now, StateManager.saveState a now s = (Throw, s)) /\
  (forall r now, StateManager.addComponent r now s = (Throw, s)) /\
  (forall id updates now, StateManager.updateComponent id updates now s = (Throw, s)) /\
  (forall id now, StateManager.deleteComponent id now s = (Throw, s)).
Proof.
  intros [objs Hr].
  assert (Hinv : StateManager.components s = StateManager.ComponentsObject /\
                 StateManager.history s = [] /\
                 StateManager.currentHistoryIndex s = -1).
  { assert (Hgen : forall a b,
              rtc (StateManager.step false) a b ->
              StateManager.components a = StateManager.ComponentsObject /\
              StateManager.history a = [] /\
              StateManager.currentHistoryIndex a = -1 ->
              StateManager.components b = StateManager.ComponentsObject /\
              StateManager.history b = [] /\
              StateManager.currentHistoryIndex b = -1).
    { induction 1 as [a|a b c Hstep _ IH]; [auto|].
      intros (Hc & Hh & Hi). apply IH. eapply sm_step_without_restore; eauto. }
    apply (Hgen _ _ Hr). repeat split. }
  split; [exact Hinv|].
  apply sm_components_object_throws. apply Hinv.
Qed.

(** The theorem on a new manager after a selection and an attempt to add
    a component. *)
Lemma fresh_manager_records_nothing_witness :
  let s := snd (StateManager.addComponent 0 1
                  (StateManager.setSelectedComponent (VStr "c1")
                     (StateManager.constructor {[0%nat := {["id" := VStr "c1"]} : jsobj]}))) in
  StateManager.history s = [] /\
  fst (StateManager.addComponent 0 2 s) = Throw.
Proof.
  cbn zeta.
  match goal with |- StateManager.history ?s = [] /\ _ => set (s0 := s) end.
  destruct (fresh_manager_records_nothing s0) as ((_ & Hh & _) & _ & Hadd & _).
  - exists {[0%nat := {["id" := VStr "c1"]} : jsobj]}. subst s0.
    eapply rtc_l; [apply StateManager.step_setSelectedComponent|].
    eapply rtc_l; [apply StateManager.step_addComponent|].
    apply rtc_refl.
  - split; [exact Hh|]. rewrite Hadd. reflexivity.
Defined.

Lemma length_slice_to {A} (a : list A) (e : Z) :
  0 <= e <= Z.of_nat (length a) -> Z.of_nat (length (slice_to a e)) = e.
Proof.
  intros H. unfold slice_to. destruct (Z.ltb_spec e 0); [lia|].
  rewrite length_take. lia.
Qed.

(** What [saveState] does to the history when it does not throw: the redo
    future is cut off, the snapshot is appended and the cursor is on it;
    the oldest entry goes when there would be more than 50. *)
Lemma sm_saveState_history_ok a now s :
  StateManager.history_ok s ->
  let s' := snd (StateManager.saveState a now s) in
  StateManager.history_ok s' /\
  StateManager.objects s' = StateManager.objects s /\
  StateManager.components s' = StateManager.components s /\
  (fst (StateManager.saveState a now s) = Normal tt ->
   StateManager.currentHistoryIndex s' = Z.of_nat (length (StateManager.history s')) - 1).
Proof.
  intros (Hmax & Hlen & Hlo & Hhi). cbn zeta. unfold StateManager.saveState.
  destruct (StateManager.serializeState s) as [ser|];
    [|cbn; repeat split; auto; discriminate].
  set (h1 := if StateManager.currentHistoryIndex s <? _ then _ else _).
  assert (Hh1 : Z.of_nat (length h1) = StateManager.currentHistoryIndex s + 1).
  { subst h1. destruct (Z.ltb_spec (StateManager.currentHistoryIndex s)
                          (Z.of_nat (length (StateManager.history s)) - 1)).
    - apply length_slice_to. lia.
    - lia. }
  set (snap := StateManager.StateSnapshot now a ser).
  assert (Hh2 : Z.of_nat (length (h1 ++ [snap])) = StateManager.currentHistoryIndex s + 2)
    by (rewrite length_app; cbn [length]; lia).
  rewrite Hmax.
  destruct (Z.ltb_spec 50 (Z.of_nat (length (h1 ++ [snap])))) as [Hover|Hfit];
    cbn [fst snd]; unfold StateManager.history_ok;
    cbn [StateManager.notifyObservers StateManager.set_cursor
           StateManager.maxHistoryStates StateManager.history
           StateManager.currentHistoryIndex StateManager.objects
           StateManager.components];
    rewrite ?length_shift; repeat split; try lia; auto.
Qed.

Lemma sm_step_history_ok b s s' :
  StateManager.step b s s' -> StateManager.history_ok s -> StateManager.history_ok s'.
Proof.
  intros Hstep Hok. destruct Hstep.
  - apply sm_saveState_history_ok. exact Hok.
  - destruct Hok as (Hmax & Hlen & Hlo & Hhi). unfold StateManager.undo.
    destruct (Z.ltb_spec 0 (StateManager.currentHistoryIndex s));
      [|repeat split; assumption].
    destruct (at_index _ _) as [snap|]; cbn [snd];
      unfold StateManager.history_ok; cbn; repeat split; try assumption; lia.
  - destruct Hok as (Hmax & Hlen & Hlo & Hhi). unfold StateManager.redo.
    destruct (Z.ltb_spec (StateManager.currentHistoryIndex s)
                (Z.of_nat (length (StateManager.history s)) - 1));
      [|repeat split; assumption].
    destruct (at_index _ _) as [snap|]; cbn [snd];
      unfold StateManager.history_ok; cbn; repeat split; try assumption; lia.
  - unfold StateManager.addComponent.
    destruct (StateManager.components s) as [|m]; [exact Hok|].
    match goal with
    | |- context [StateManager.saveState ?a ?t ?x] =>
        pose proof (sm_saveState_history_ok a t x Hok) as (H1 & _);
        destruct (StateManager.saveState a t x) as [[[]|] s2]; exact H1
    end.
  - unfold StateManager.updateComponent.
    destruct (StateManager.components s) as [|m]; [exact Hok|].
    destruct (StateManager.map_get id m) as [r|]; [|exact Hok].
    match goal with
    | |- context [StateManager.saveState ?a ?t ?x] =>
        pose proof (sm_saveState_history_ok a t x Hok) as (H1 & _);
        destruct (StateManager.saveState a t x) as [[[]|] s2]; exact H1
    end.
  - unfold StateManager.deleteComponent.
    destruct (StateManager.components s) as [|m]; [exact Hok|].
    destruct (StateManager.map_get id m) as [r|]; [|exact Hok].
    match goal with
    | |- context [StateManager.saveState ?a ?t ?x] =>
        pose proof (sm_saveState_history_ok a t x Hok) as (H1 & _);
        destruct (StateManager.saveState a t x) as [[[]|] s2]; exact H1
    end.
  - exact Hok.
  - exact Hok.
  - unfold StateManager.removeObserver.
    destruct (StateManager.observers s !! event); exact Hok.
  - exact Hok.
Qed.

(** X14: whatever methods are called, and whatever snapshots callers
    hand to [restoreState], the history of a state manager never holds
    more than 50 snapshots and its cursor is on one of them or at -1. *)
Theorem state_history_bounded s :
  StateManager.reachable true s -> StateManager.history_ok s.
Proof.
  intros [objs Hr].
  assert (Hgen : forall a b,
            rtc (StateManager.step true) a b ->
            StateManager.history_ok a -> StateManager.history_ok b).
  { induction 1 as [a|a b c Hstep _ IH]; [auto|].
    intros Ha. apply IH. eapply sm_step_history_ok; eauto. }
  apply (Hgen _ _ Hr). unfold StateManager.history_ok. cbn. lia.
Qed.

Lemma sm_restored_reachable : StateManager.reachable true StateManager.restored.
Proof.
  eexists. unfold StateManager.restored.
  eapply rtc_l; [apply StateManager.step_restoreState; reflexivity|].
  apply rtc_refl.
Qed.

(** The theorem on a manager that was given a snapshot and then a second
    component. *)
Lemma state_history_bounded_witness :
  let s := snd (StateManager.addComponent 1 5 StateManager.restored) in
  length (StateManager.history s) = 1%nat /\ StateManager.history_ok s.
Proof.
  cbn zeta. split; [reflexivity|].
  apply state_history_bounded.
  destruct sm_restored_reachable as [objs Hr]. exists objs.
  eapply rtc_r; [exact Hr|]. apply StateManager.step_addComponent.
Defined.

Lemma sm_map_get_set k v m :
  StateManager.map_get k (StateManager.map_set k v m) = Some v.
Proof.
  induction m as [|[k' v'] m IH]; cbn.
  - rewrite bool_decide_eq_true_2 by reflexivity. reflexivity.
  - destruct (bool_decide (k' = k)) eqn:Hk; cbn.
    + rewrite bool_decide_eq_true_2 by reflexivity. reflexivity.
    + rewrite Hk. exact IH.
Qed.

(** X15: the first action recorded can never be undone.  A snapshot is
    taken after the action, and [undo()] does nothing unless the cursor is
    above 0: after [addComponent] on a manager with an empty history,
    [undo()] changes nothing and the component is still in the [Map]. *)
Theorem first_action_cannot_be_undone s m r now :
  StateManager.components s = StateManager.ComponentsMap m ->
  StateManager.history s = [] ->
  StateManager.currentHistoryIndex s = -1 ->
  let s1 := snd (StateManager.addComponent r now s) in
  fst (StateManager.addComponent r now s) = Normal tt /\
  StateManager.undo s1 = (Normal tt, s1) /\
  StateManager.components s1 =
    StateManager.ComponentsMap
      (StateManager.map_set (get (StateManager.object_at s r) "id") r m) /\
  StateManager.map_get (get (StateManager.object_at s r) "id")
    (StateManager.map_set (get (StateManager.object_at s r) "id") r m) = Some r.
Proof.
  intros Hc Hh Hi. cbn zeta.
  unfold StateManager.addComponent. rewrite Hc.
  unfold StateManager.saveState, StateManager.serializeState.
  cbn [StateManager.components StateManager.set_components
         StateManager.history StateManager.currentHistoryIndex
         StateManager.maxHistoryStates].
  rewrite Hh, Hi.
  destruct (Z.ltb_spec (-1) (Z.of_nat (length (@nil StateManager.stateSnapshot)) - 1));
    [cbn in *; lia|].
  cbn [app length].
  destruct (StateManager.maxHistoryStates s <? Z.of_nat 1);
    cbn [fst snd]; (split; [reflexivity|]);
    (split; [unfold StateManager.undo; cbn; reflexivity|]);
    (split; [reflexivity|apply sm_map_get_set]).
Qed.

(** The theorem on a manager that was given an empty snapshot and then
    its first component. *)
Lemma first_action_cannot_be_undone_witness :
  let s0 := StateManager.restoreState
              (StateManager.StateSnapshot 0 (StateManager.Action "INIT" VUndef None)
                 (StateManager.Serialized [] VNull (StateManager.Canvas 375 667 1)))
              (StateManager.constructor {[0%nat := {["id" := VStr "c1"]} : jsobj]}) in
  let s1 := snd (StateManager.addComponent 0 1 s0) in
  StateManager.undo s1 = (Normal tt, s1) /\
  StateManager.components s1 = StateManager.ComponentsMap [(VStr "c1", 0%nat)].
Proof.
  cbn zeta.
  match goal with
  | |- StateManager.undo (snd (StateManager.addComponent 0 1 ?s)) = _ /\ _ =>
      destruct (first_action_cannot_be_undone s [] 0%nat 1)
        as (_ & Hu & Hc & _); [reflexivity..|]
  end.
  split; [exact Hu | exact Hc].
Defined.

(** X16: [undo()] brings back which components exist, not their fields.
    [updateComponent] writes the updates into the component object itself,
    and the snapshots hold a reference to that same object: after
    [updateComponent] and [undo()] the [Map] is the one of the earlier
    snapshot, and the object still has the updated fields. *)
Theorem undo_keeps_updated_fields s m id r updates now prev :
  StateManager.components s = StateManager.ComponentsMap m ->
  StateManager.map_get id m = Some r ->
  0 <= StateManager.currentHistoryIndex s ->
  StateManager.currentHistoryIndex s = Z.of_nat (length (StateManager.history s)) - 1 ->
  Z.of_nat (length (StateManager.history s)) < StateManager.maxHistoryStates s ->
  at_index (StateManager.history s) (StateManager.currentHistoryIndex s) = Some prev ->
  let s1 := snd (StateManager.updateComponent id updates now s) in
  let s2 := snd (StateManager.undo s1) in
  fst (StateManager.updateComponent id updates now s) = Normal tt /\
  fst (StateManager.undo s1) = Normal tt /\
  StateManager.currentHistoryIndex s2 = StateManager.currentHistoryIndex s /\
  StateManager.components s2 =
    StateManager.ComponentsMap
      (StateManager.map_of_entries (StateManager.s_components (StateManager.state prev))) /\
  StateManager.objects s2 !! r = Some (updates ∪ StateManager.object_at s r).
Proof.
  intros Hc Hget Hpos Hend Hroom Hprev. cbn zeta.
  unfold StateManager.updateComponent. rewrite Hc, Hget.
  unfold StateManager.saveState, StateManager.serializeState.
  cbn [StateManager.components StateManager.history StateManager.currentHistoryIndex
         StateManager.maxHistoryStates StateManager.selectedComponent
         StateManager.canvas].
  rewrite ?Hc.
  destruct (Z.ltb_spec (StateManager.currentHistoryIndex s)
              (Z.of_nat (length (StateManager.history s)) - 1)); [lia|].
  rewrite length_app. cbn [length].
  destruct (Z.ltb_spec (StateManager.maxHistoryStates s)
              (Z.of_nat (length (StateManager.history s) + 1))); [lia|].
  cbn [fst snd]. split; [reflexivity|].
  unfold StateManager.undo.
  cbn [StateManager.notifyObservers StateManager.set_cursor
         StateManager.currentHistoryIndex StateManager.history].
  destruct (Z.ltb_spec 0 (StateManager.currentHistoryIndex s + 1)); [|lia].
  replace (StateManager.currentHistoryIndex s + 1 - 1)
    with (StateManager.currentHistoryIndex s) by lia.
  assert (Hat : at_index (StateManager.history s ++
                            [StateManager.StateSnapshot now
                               (StateManager.Action "UPDATE_COMPONENT" id (Some updates))
                               (StateManager.Serialized m (StateManager.selectedComponent s)
                                  (StateManager.canvas s))])
                  (StateManager.currentHistoryIndex s) = Some prev).
  { unfold at_index in *. destruct (_ <? 0); [discriminate|].
    rewrite lookup_app_l; [exact Hprev|]. apply lookup_lt_Some in Hprev. exact Hprev. }
  rewrite Hat. cbn [fst snd].
  split; [reflexivity|]. split; [reflexivity|]. split; [reflexivity|].
  cbn [StateManager.notifyObservers StateManager.restoreState StateManager.objects].
  apply lookup_insert_eq.
Qed.

(** The theorem on the component "c1" (object 0), given a colour and then
    undone: the object keeps the colour. *)
Lemma undo_keeps_updated_fields_witness :
  let s1 := snd (StateManager.updateComponent (VStr "c1") {["color" := VStr "red"]} 2
                   StateManager.saved) in
  get (StateManager.object_at (snd (StateManager.undo s1)) 0) "color" = VStr "red" /\
  StateManager.currentHistoryIndex (snd (StateManager.undo s1)) = 0.
Proof.
  cbn zeta.
  destruct (undo_keeps_updated_fields StateManager.saved [(VStr "c1", 0%nat)]
              (VStr "c1") 0%nat {["color" := VStr "red"]} 2
              (StateManager.StateSnapshot 1 (StateManager.Action "INIT" VUndef None)
                 (StateManager.Serialized [(VStr "c1", 0%nat)] VNull
                    (StateManager.Canvas 375 667 1))))
    as (_ & _ & Hi & _ & Hobj);
    [reflexivity | reflexivity | vm_compute; congruence | reflexivity
    | vm_compute; reflexivity | reflexivity |].
  split; [|exact Hi].
  unfold StateManager.object_at at 1. rewrite Hobj. reflexivity.
Defined.

(** ** The [Map] of components and its snapshots *)

Lemma sm_map_set_keys k v m :
  (StateManager.map_set k v m).*1 =
  if bool_decide (k ∈ m.*1) then m.*1 else m.*1 ++ [k].
Proof.
  induction m as [|[k' v'] m IH]; cbn.
  - rewrite bool_decide_eq_false_2 by apply not_elem_of_nil. reflexivity.
  - destruct (decide (k' = k)) as [->|Hne].
    + rewrite bool_decide_eq_true_2 by reflexivity. cbn.
      rewrite bool_decide_eq_true_2 by (apply elem_of_cons; left; reflexivity). reflexivity.
    + rewrite bool_decide_eq_false_2 by exact Hne. cbn. rewrite IH.
      destruct (decide (k ∈ m.*1)) as [Hin|Hnin].
      * rewrite !bool_decide_eq_true_2; [reflexivity| |exact Hin].
        apply elem_of_cons; right; exact Hin.
      * rewrite !bool_decide_eq_false_2; [reflexivity| |exact Hnin].
        intros Hin. apply elem_of_cons in Hin as [->|Hin]; [congruence|auto].
Qed.

Lemma sm_map_set_NoDup k v m :
  NoDup m.*1 -> NoDup (StateManager.map_set k v m).*1.
Proof.
  intros Hnd. rewrite sm_map_set_keys.
  destruct (decide (k ∈ m.*1)) as [Hin|Hnin].
  - rewrite bool_decide_eq_true_2 by exact Hin. exact Hnd.
  - rewrite bool_decide_eq_false_2 by exact Hnin.
    apply NoDup_app. split; [exact Hnd|]. split.
    + intros x Hx Hx'. apply list_elem_of_singleton in Hx'. subst. auto.
    + apply NoDup_singleton.
Qed.

Lemma sm_map_set_fresh k v m :
  k ∉ m.*1 -> StateManager.map_set k v m = m ++ [(k, v)].
Proof.
  induction m as [|[k' v'] m IH]; intros Hnin; cbn; [reflexivity|].
  cbn in Hnin. apply not_elem_of_cons in Hnin as [Hne Hnin].
  rewrite bool_decide_eq_false_2 by congruence. rewrite IH by exact Hnin.
  reflexivity.
Qed.

Lemma sm_map_delete_NoDup k m :
  NoDup m.*1 -> NoDup (StateManager.map_delete k m).*1.
Proof.
  induction m as [|[k' v'] m IH]; intros Hnd; cbn; [exact Hnd|].
  cbn in Hnd. apply NoDup_cons in Hnd as [Hnin Hnd].
  destruct (bool_decide (k' = k)); [exact Hnd|].
  cbn. apply NoDup_cons. split; [|apply IH; exact Hnd].
  intros Hin. apply Hnin. clear -Hin.
  induction m as [|[k2 v2] m IHm]; cbn in *; [exact Hin|].
  destruct (bool_decide (k2 = k)).
  - apply elem_of_cons; right; exact Hin.
  - cbn in Hin. apply elem_of_cons in Hin as [->|Hin].
    + apply elem_of_cons; left; reflexivity.
    + apply elem_of_cons; right. apply IHm. exact Hin.
Qed.

Lemma sm_map_of_entries_NoDup l : NoDup (StateManager.map_of_entries l).*1.
Proof.
  unfold StateManager.map_of_entries.
  assert (Hgen : forall acc : list (jsval * nat),
            NoDup acc.*1 ->
            NoDup (foldl (fun m e => StateManager.map_set (fst e) (snd e) m) acc l).*1).
  { induction l as [|e l IH]; intros acc Hacc; [exact Hacc|].
    cbn [foldl]. apply IH. apply sm_map_set_NoDup. exact Hacc. }
  apply Hgen. apply NoDup_nil_2.
Qed.

(** [new Map(Array.from(map.entries()))] is the [Map] again. *)
Lemma sm_map_of_entries_id m :
  NoDup m.*1 -> StateManager.map_of_entries m = m.
Proof.
  unfold StateManager.map_of_entries.
  assert (Hgen : forall l acc : list (jsval * nat),
            NoDup (acc ++ l).*1 ->
            foldl (fun m e => StateManager.map_set (fst e) (snd e) m) acc l = acc ++ l).
  { induction l as [|[k v] l IH]; intros acc Hnd; [rewrite app_nil_r; reflexivity|].
    cbn [foldl fst snd].
    rewrite sm_map_set_fresh.
    - rewrite IH; rewrite <- app_assoc; [reflexivity|exact Hnd].
    - rewrite fmap_app in Hnd. apply NoDup_app in Hnd as (_ & Hdisj & _).
      intros Hin. apply (Hdisj k Hin). cbn. apply elem_of_cons; left; reflexivity. }
  intros Hnd. apply (Hgen m []). exact Hnd.
Qed.

(** The keys of the [Map] of components are distinct. *)
Lemma sm_step_keys b s s' :
  StateManager.step b s s' ->
  (forall m, StateManager.components s = StateManager.ComponentsMap m -> NoDup m.*1) ->
  (forall m, StateManager.components s' = StateManager.ComponentsMap m -> NoDup m.*1).
Proof.
  intros Hstep Hok.
  assert (Hsave : forall a t x,
            StateManager.components (snd (StateManager.saveState a t x))
            = StateManager.components x).
  { intros a t x. unfold StateManager.saveState.
    destruct (StateManager.serializeState x); [|reflexivity].
    cbn [snd]. destruct (_ <? _); reflexivity. }
  destruct Hstep.
  - rewrite Hsave. exact Hok.
  - unfold StateManager.undo. destruct (0 <? _); [|exact Hok].
    destruct (at_index _ _) as [snap|]; cbn [snd].
    + intros m [= <-]. apply sm_map_of_entries_NoDup.
    + exact Hok.
  - unfold StateManager.redo. destruct (_ <? _); [|exact Hok].
    destruct (at_index _ _) as [snap|]; cbn [snd].
    + intros m [= <-]. apply sm_map_of_entries_NoDup.
    + exact Hok.
  - unfold StateManager.addComponent.
    destruct (StateManager.components s) as [|m0] eqn:Hc;
      [cbn [snd]; intros m Hm; rewrite Hc in Hm; discriminate|].
    match goal with
    | |- context [StateManager.saveState ?a ?t ?x] =>
        pose proof (Hsave a t x) as H1;
        destruct (StateManager.saveState a t x) as [[[]|] s2]; cbn [snd] in *
    end.
    + cbn [StateManager.notifyObservers StateManager.components]. rewrite H1.
      intros m [= <-]. apply sm_map_set_NoDup. apply Hok. reflexivity.
    + rewrite H1. intros m [= <-]. apply sm_map_set_NoDup. apply Hok. reflexivity.
  - unfold StateManager.updateComponent.
    destruct (StateManager.components s) as [|m0] eqn:Hc;
      [cbn [snd]; intros m Hm; rewrite Hc in Hm; discriminate|].
    destruct (StateManager.map_get id m0) as [r|]; [|cbn [snd]; rewrite Hc; exact Hok].
    match goal with
    | |- context [StateManager.saveState ?a ?t ?x] =>
        pose proof (Hsave a t x) as H1;
        destruct (StateManager.saveState a t x) as [[[]|] s2]; cbn [snd] in *
    end.
    + cbn [StateManager.notifyObservers StateManager.components]. rewrite H1.
      cbn [StateManager.components]. rewrite ?Hc. exact Hok.
    + rewrite H1. cbn [StateManager.components]. rewrite ?Hc. exact Hok.
  - unfold StateManager.deleteComponent.
    destruct (StateManager.components s) as [|m0] eqn:Hc;
      [cbn [snd]; intros m Hm; rewrite Hc in Hm; discriminate|].
    destruct (StateManager.map_get id m0) as [r|]; [|cbn [snd]; rewrite Hc; exact Hok].
    match goal with
    | |- context [StateManager.saveState ?a ?t ?x] =>
        pose proof (Hsave a t x) as H1;
        destruct (StateManager.saveState a t x) as [[[]|] s2]; cbn [snd] in *
    end.
    + cbn [StateManager.notifyObservers StateManager.components]. rewrite H1.
      intros m [= <-]. apply sm_map_delete_NoDup. apply Hok. reflexivity.
    + rewrite H1. intros m [= <-]. apply sm_map_delete_NoDup. apply Hok. reflexivity.
  - exact Hok.
  - exact Hok.
  - unfold StateManager.removeObserver.
    destruct (StateManager.observers s !! event); exact Hok.
  - intros m [= <-]. apply sm_map_of_entries_NoDup.
Qed.

(** X17: giving [restoreState] a snapshot of the present state changes
    nothing: [serializeState] copies the entries of the [Map] and
    [restoreState] builds a [Map] with the same entries in the same order,
    the same selection and canvas; history, cursor and component objects
    are not touched. *)
Theorem restoreState_of_present_state s ser t a :
  StateManager.reachable true s ->
  StateManager.serializeState s = Normal ser ->
  let s' := StateManager.restoreState (StateManager.StateSnapshot t a ser) s in
  StateManager.components s' = StateManager.components s /\
  StateManager.selectedComponent s' = StateManager.selectedComponent s /\
  StateManager.canvas s' = StateManager.canvas s /\
  StateManager.history s' = StateManager.history s /\
  StateManager.currentHistoryIndex s' = StateManager.currentHistoryIndex s /\
  StateManager.objects s' = StateManager.objects s.
Proof.
  intros [objs Hr] Hser. cbn zeta.
  assert (Hkeys : forall m, StateManager.components s = StateManager.ComponentsMap m ->
                            NoDup m.*1).
  { assert (Hgen : forall x y,
              rtc (StateManager.step true) x y ->
              (forall m, StateManager.components x = StateManager.ComponentsMap m ->
                         NoDup m.*1) ->
              (forall m, StateManager.components y = StateManager.ComponentsMap m ->
                         NoDup m.*1)).
    { induction 1 as [x|x y z Hstep _ IH]; [auto|].
      intros Hx. apply IH. eapply sm_step_keys; eauto. }
    apply (Hgen _ _ Hr). discriminate. }
  unfold StateManager.serializeState in Hser.
  destruct (StateManager.components s) as [|m] eqn:Hc; [discriminate|].
  injection Hser as <-.
  unfold StateManager.restoreState.
  cbn [StateManager.state StateManager.s_components StateManager.s_selectedComponent
         StateManager.s_canvas StateManager.notifyObservers StateManager.components
         StateManager.selectedComponent StateManager.canvas StateManager.history
         StateManager.currentHistoryIndex StateManager.objects].
  rewrite sm_map_of_entries_id by (apply Hkeys; reflexivity).
  repeat split.
Qed.

(** The theorem on the manager with one snapshot in its history. *)
Lemma restoreState_of_present_state_witness :
  StateManager.components
    (StateManager.restoreState
       (StateManager.StateSnapshot 7 (StateManager.Action "X" VUndef None)
          (StateManager.Serialized [(VStr "c1", 0%nat)] VNull
             (StateManager.Canvas 375 667 1)))
       StateManager.saved)
  = StateManager.components StateManager.saved.
Proof.
  destruct (restoreState_of_present_state StateManager.saved
              (StateManager.Serialized [(VStr "c1", 0%nat)] VNull
                 (StateManager.Canvas 375 667 1))
              7 (StateManager.Action "X" VUndef None))
    as (Hc & _); [|reflexivity|exact Hc].
  destruct sm_restored_reachable as [objs Hr]. exists objs.
  eapply rtc_r; [exact Hr|]. apply StateManager.step_saveState.
Defined.

(** X18: [undo()] followed by [redo()] puts the manager on the snapshot at
    the cursor, whatever it held before: the components, the selection and
    the canvas are those of the snapshot, so a selection made since the
    snapshot was taken ([setSelectedComponent] records nothing) is lost.
    The history and the cursor are as before. *)
Theorem undo_redo_returns_to_snapshot s prev snap :
  0 < StateManager.currentHistoryIndex s ->
  at_index (StateManager.history s) (StateManager.currentHistoryIndex s - 1) = Some prev ->
  at_index (StateManager.history s) (StateManager.currentHistoryIndex s) = Some snap ->
  let s2 := snd (StateManager.redo (snd (StateManager.undo s))) in
  fst (StateManager.undo s) = Normal tt /\
  fst (StateManager.redo (snd (StateManager.undo s))) = Normal tt /\
  StateManager.components s2 =
    StateManager.ComponentsMap
      (StateManager.map_of_entries
         (StateManager.s_components (StateManager.state snap))) /\
  StateManager.selectedComponent s2 =
    StateManager.s_selectedComponent (StateManager.state snap) /\
  StateManager.canvas s2 = StateManager.s_canvas (StateManager.state snap) /\
  StateManager.history s2 = StateManager.history s /\
  StateManager.currentHistoryIndex s2 = StateManager.currentHistoryIndex s.
Proof.
  intros Hpos Hprev Hsnap. cbn zeta.
  assert (Hlen : StateManager.currentHistoryIndex s
                 < Z.of_nat (length (StateManager.history s))).
  { unfold at_index in Hsnap.
    destruct (StateManager.currentHistoryIndex s <? 0); [discriminate|].
    apply lookup_lt_Some in Hsnap. lia. }
  unfold StateManager.undo.
  destruct (Z.ltb_spec 0 (StateManager.currentHistoryIndex s)); [|lia].
  cbn [StateManager.set_cursor StateManager.history StateManager.currentHistoryIndex].
  rewrite Hprev. cbn [fst snd].
  unfold StateManager.redo.
  cbn [StateManager.notifyObservers StateManager.restoreState StateManager.set_cursor
         StateManager.history StateManager.currentHistoryIndex].
  destruct (Z.ltb_spec (StateManager.currentHistoryIndex s - 1)
              (Z.of_nat (length (StateManager.history s)) - 1)); [|lia].
  replace (StateManager.currentHistoryIndex s - 1 + 1)
    with (StateManager.currentHistoryIndex s) by lia.
  rewrite Hsnap. cbn. repeat split.
Qed.

(** The theorem on a manager with two recorded components, after the
    first one was selected. *)
Lemma undo_redo_returns_to_snapshot_witness :
  let s0 := StateManager.restoreState
              (StateManager.StateSnapshot 0 (StateManager.Action "INIT" VUndef None)
                 (StateManager.Serialized [] VNull (StateManager.Canvas 375 667 1)))
              (StateManager.constructor
                 (<[1%nat := {["id" := VStr "c2"]} : jsobj]>
                    {[0%nat := {["id" := VStr "c1"]} : jsobj]})) in
  let s := StateManager.setSelectedComponent (VStr "c1")
             (snd (StateManager.addComponent 1 2
                     (snd (StateManager.addComponent 0 1 s0)))) in
  StateManager.selectedComponent s = VStr "c1" /\
  StateManager.selectedComponent
    (snd (StateManager.redo (snd (StateManager.undo s)))) = VNull.
Proof.
  cbn zeta. split; [reflexivity|].
  match goal with
  | |- StateManager.selectedComponent
         (snd (StateManager.redo (snd (StateManager.undo ?s)))) = _ =>
      destruct (undo_redo_returns_to_snapshot s
                  (StateManager.StateSnapshot 1
                     (StateManager.Action "ADD_COMPONENT" (VStr "c1") None)
                     (StateManager.Serialized [(VStr "c1", 0%nat)] VNull
                        (StateManager.Canvas 375 667 1)))
                  (StateManager.StateSnapshot 2
                     (StateManager.Action "ADD_COMPONENT" (VStr "c2") None)
                     (StateManager.Serialized [(VStr "c1", 0%nat); (VStr "c2", 1%nat)]
                        VNull (StateManager.Canvas 375 667 1))))
        as (_ & _ & _ & Hsel & _); [reflexivity..|]
  end.
  exact Hsel.
Defined.

(** ** The message broker *)

Section Broker.

Import ComponentCommunication.

Lemma cc_map_get_update {V : Type} (k j : string) (f : V -> V) (m : list (string * V)) :
  map_get k (map_update j f m)
  = if bool_decide (k = j) then f <$> map_get k m else map_get k m.
Proof.
  induction m as [|[k' v] m IH]; cbn.
  - destruct (bool_decide (k = j)); reflexivity.
  - destruct (decide (k' = j)) as [->|Hj].
    + rewrite bool_decide_eq_true_2 by reflexivity. cbn.
      destruct (decide (j = k)) as [->|Hk].
      * rewrite !bool_decide_eq_true_2 by reflexivity. reflexivity.
      * rewrite (bool_decide_eq_false_2 (j = k)) by exact Hk.
        rewrite (bool_decide_eq_false_2 (k = j)) by congruence. reflexivity.
    + rewrite (bool_decide_eq_false_2 (k' = j)) by exact Hj. cbn.
      destruct (decide (k' = k)) as [->|Hk].
      * rewrite (bool_decide_eq_true_2 (k = k)) by reflexivity.
        rewrite (bool_decide_eq_false_2 (k = j)) by exact Hj. reflexivity.
      * rewrite (bool_decide_eq_false_2 (k' = k)) by exact Hk. exact IH.
Qed.

Lemma cc_map_get_set {V : Type} (k j : string) (v : V) (m : list (string * V)) :
  map_get k (map_set j v m) = if bool_decide (k = j) then Some v else map_get k m.
Proof.
  induction m as [|[k' v'] m IH]; cbn.
  - destruct (decide (j = k)) as [->|Hk].
    + rewrite !bool_decide_eq_true_2 by reflexivity. reflexivity.
    + rewrite (bool_decide_eq_false_2 (j = k)) by exact Hk.
      rewrite (bool_decide_eq_false_2 (k = j)) by congruence. reflexivity.
  - destruct (decide (k' = j)) as [->|Hj].
    + rewrite bool_decide_eq_true_2 by reflexivity. cbn.
      destruct (decide (j = k)) as [->|Hk].
      * rewrite !bool_decide_eq_true_2 by reflexivity. reflexivity.
      * rewrite (bool_decide_eq_false_2 (j = k)) by exact Hk.
        rewrite (bool_decide_eq_false_2 (k = j)) by congruence. reflexivity.
    + rewrite (bool_decide_eq_false_2 (k' = j)) by exact Hj. cbn.
      destruct (decide (k' = k)) as [->|Hk].
      * rewrite (bool_decide_eq_true_2 (k = k)) by reflexivity.
        rewrite (bool_decide_eq_false_2 (k = j)) by exact Hj. reflexivity.
      * rewrite (bool_decide_eq_false_2 (k' = k)) by exact Hk. exact IH.
Qed.

Lemma cc_map_get_delete {V : Type} (k j : string) (m : list (string * V)) :
  map_get k (map_delete j m) = if bool_decide (k = j) then None else map_get k m.
Proof.
  unfold map_delete. induction m as [|[k' v'] m IH].
  - cbn. destruct (bool_decide (k = j)); reflexivity.
  - rewrite filter_cons. cbn [fst]. destruct (decide (k' <> j)) as [Hj|Hj].
    + cbn [map_get]. destruct (decide (k' = k)) as [->|Hk].
      * rewrite (bool_decide_eq_true_2 (k = k)) by reflexivity.
        rewrite (bool_decide_eq_false_2 (k = j)) by exact Hj. reflexivity.
      * rewrite (bool_decide_eq_false_2 (k' = k)) by exact Hk. exact IH.
    + apply dec_stable in Hj. subst k'. rewrite IH. cbn [map_get].
      destruct (decide (j = k)) as [->|Hk].
      * rewrite !bool_decide_eq_true_2 by reflexivity. reflexivity.
      * rewrite (bool_decide_eq_false_2 (j = k)) by exact Hk.
        rewrite (bool_decide_eq_false_2 (k = j)) by congruence. reflexivity.
Qed.

Lemma cc_set_messageQueue_id (b : manager) : set_messageQueue (messageQueue b) b = b.
Proof. destruct b; reflexivity. Qed.

(** While the recipient is not registered, the loop of
    [processMessageQueue] puts every message back at the end of the queue
    it came from. *)
Lemma cc_deliver_each_unregistered (componentId : string) (messages : list message) :
  forall b,
    map_get componentId (components b) = None ->
    (forall m, m ∈ messages -> to m = Some componentId) ->
    exists q,
      deliver_each messages b = (Normal tt, set_messageQueue q b)
      /\ delete (Some componentId) q = delete (Some componentId) (messageQueue b).
Proof.
  induction messages as [|m messages IH]; intros b Hnone Hto.
  - exists (messageQueue b). cbn. rewrite cc_set_messageQueue_id. auto.
  - assert (Hm : to m = Some componentId) by (apply Hto, elem_of_cons; auto).
    cbn [deliver_each]. unfold deliverMessage, target_of. rewrite Hm, Hnone.
    destruct (IH (queueMessage m b)) as (q & Hq & Hdel).
    + exact Hnone.
    + intros m' Hin. apply Hto, elem_of_cons. auto.
    + exists q. rewrite Hq. split; [reflexivity|].
      rewrite Hdel. unfold queueMessage. cbn [messageQueue set_messageQueue].
      rewrite Hm. apply delete_insert_eq.
Qed.

(** X19: When [processMessageQueue] is called for a component that is not
    registered, with a queue that holds messages addressed to it, every
    one of them is queued again and then the whole queue is deleted: the
    messages are lost without [handleMessage] ever being called. *)
Theorem processMessageQueue_unregistered_drops
    (componentId : string) (messages : list message) (b : manager)
    (Hnone : map_get componentId (components b) = None)
    (Hqueue : messageQueue b !! Some componentId = Some messages)
    (Hto : forall m, m ∈ messages -> to m = Some componentId) :
  processMessageQueue componentId b
  = (Normal tt, set_messageQueue (delete (Some componentId) (messageQueue b)) b).
Proof.
  unfold processMessageQueue. rewrite Hqueue.
  destruct (cc_deliver_each_unregistered componentId messages b Hnone Hto)
    as (q & -> & Hdel).
  cbn [messageQueue set_messageQueue]. rewrite Hdel.
  destruct b; reflexivity.
Qed.

Lemma processMessageQueue_unregistered_drops_witness :
  let b := snd (sendMessage "a" (note "z") "m1" 5 constructor) in
  processMessageQueue "z" b = (Normal tt, constructor)
  /\ messageQueue b !! Some "z"
     = Some [Message "m1" "a" (Some "z") "global" (VStr "hello") (VStr "note") 5 false].
Proof.
  cbv zeta. split; [|reflexivity].
  rewrite (processMessageQueue_unregistered_drops "z"
             [Message "m1" "a" (Some "z") "global" (VStr "hello") (VStr "note") 5 false]).
  - reflexivity.
  - reflexivity.
  - reflexivity.
  - intros m Hm. apply list_elem_of_singleton in Hm. subst m. reflexivity.
Defined.

Lemma cc_deliver_each_registered (componentId : string) (c : component)
    (messages : list message) :
  forall b,
    map_get componentId (components b) = Some c ->
    faulty (instance_of c) = false ->
    (forall m, m ∈ messages -> to m = Some componentId) ->
    deliver_each messages b
    = (Normal tt,
       Manager (components b) (channels b) (messageQueue b)
         (delivered b ++ map (fun m => (componentId, m)) messages) (consoleErrors b)).
Proof.
  induction messages as [|m messages IH]; intros b Hc Hok Hto.
  - cbn. rewrite app_nil_r. destruct b; reflexivity.
  - assert (Hm : to m = Some componentId) by (apply Hto, elem_of_cons; auto).
    cbn [deliver_each]. unfold deliverMessage, target_of, handleMessage.
    rewrite Hm, Hc, Hok. rewrite IH.
    + cbn. rewrite <- app_assoc. reflexivity.
    + exact Hc.
    + exact Hok.
    + intros m' Hin. apply Hto, elem_of_cons. auto.
Qed.

(** X20: When [processMessageQueue] is called for a registered component
    whose [handleMessage] does not throw, the messages queued for it are
    handed to it in the order in which they were queued, and the queue is
    deleted. *)
Theorem processMessageQueue_delivers_in_order
    (componentId : string) (c : component) (messages : list message) (b : manager)
    (Hc : map_get componentId (components b) = Some c)
    (Hok : faulty (instance_of c) = false)
    (Hqueue : messageQueue b !! Some componentId = Some messages)
    (Hto : forall m, m ∈ messages -> to m = Some componentId) :
  processMessageQueue componentId b
  = (Normal tt,
     Manager (components b) (channels b) (delete (Some componentId) (messageQueue b))
       (delivered b ++ map (fun m => (componentId, m)) messages) (consoleErrors b)).
Proof.
  unfold processMessageQueue. rewrite Hqueue.
  rewrite (cc_deliver_each_registered componentId c messages b Hc Hok Hto).
  reflexivity.
Qed.

Lemma processMessageQueue_delivers_in_order_witness :
  let b :=
    snd (registerComponent family_page (plain_instance 0) VUndef "z"
           (snd (sendMessage "a" (note "z") "m2" 6
                   (snd (sendMessage "a" (note "z") "m1" 5 constructor))))) in
  delivered (snd (processMessageQueue "z" b))
  = [("z", Message "m1" "a" (Some "z") "global" (VStr "hello") (VStr "note") 5 false);
     ("z", Message "m2" "a" (Some "z") "global" (VStr "hello") (VStr "note") 6 false)].
Proof.
  cbv zeta.
  rewrite (processMessageQueue_delivers_in_order "z"
             (Component (plain_instance 0) VUndef (Relationships None [] []) [] "active")
             [Message "m1" "a" (Some "z") "global" (VStr "hello") (VStr "note") 5 false;
              Message "m2" "a" (Some "z") "global" (VStr "hello") (VStr "note") 6 false]).
  - reflexivity.
  - reflexivity.
  - reflexivity.
  - reflexivity.
  - intros m Hm. apply elem_of_cons in Hm as [->|Hm]; [reflexivity|].
    apply list_elem_of_singleton in Hm. subst m. reflexivity.
Defined.

Lemma cc_same_mail_refl (b : manager) : same_mail b b.
Proof. repeat split. Qed.

Lemma cc_same_mail_trans (b1 b2 b3 : manager) :
  same_mail b1 b2 -> same_mail b2 b3 -> same_mail b1 b3.
Proof.
  intros (H1 & H2 & H3 & H4) (K1 & K2 & K3 & K4).
  repeat split; congruence.
Qed.

Lemma cc_same_mail_setParentChild (p c : string) (b : manager) :
  same_mail b (setParentChild p c b).
Proof.
  unfold setParentChild.
  destruct (map_get p (components b)), (map_get c (components b));
    repeat split.
Qed.

Lemma cc_same_mail_setSiblings (x y : string) (b : manager) :
  same_mail b (setSiblings x y b).
Proof.
  unfold setSiblings.
  destruct (map_get x (components b)), (map_get y (components b));
    repeat split.
Qed.

Lemma cc_same_mail_sibling_loop (componentId : string) (e : nat) (l : list nat) :
  forall b0 b1,
    same_mail b0 b1 ->
    same_mail b0
      (foldl
         (fun b siblingElement =>
            if bool_decide (siblingElement <> e) then
              match findComponentByElement siblingElement b with
              | Some siblingId => setSiblings componentId siblingId b
              | None => b
              end
            else b)
         b1 l).
Proof.
  induction l as [|x l IH]; intros b0 b1 H1; [exact H1|].
  cbn [foldl]. apply IH.
  destruct (bool_decide (x <> e)); [|exact H1].
  destruct (findComponentByElement x b1); [|exact H1].
  eapply cc_same_mail_trans; [exact H1|apply cc_same_mail_setSiblings].
Qed.

Lemma cc_same_mail_detectRelationships (pg : page) (componentId : string) (b : manager) :
  same_mail b (snd (detectRelationships pg componentId b)).
Proof.
  unfold detectRelationships.
  destruct (map_get componentId (components b)) as [c|]; [|apply cc_same_mail_refl].
  destruct (element (instance_of c)) as [e|]; [|apply cc_same_mail_refl].
  destruct (parentElement pg !! e) as [p|]; [|apply cc_same_mail_refl].
  cbn [snd]. apply cc_same_mail_sibling_loop.
  destruct (findComponentByElement p b);
    [apply cc_same_mail_setParentChild|apply cc_same_mail_refl].
Qed.

Lemma cc_same_mail_registerComponent (pg : page) (i : instance) (cfg : jsval)
    (componentId : string) (b : manager) :
  same_mail b (snd (registerComponent pg i cfg componentId b)).
Proof.
  unfold registerComponent.
  match goal with
  | |- context [detectRelationships pg componentId ?b1] =>
      pose proof (cc_same_mail_detectRelationships pg componentId b1) as H;
      destruct (detectRelationships pg componentId b1) as [[u|] b2]
  end; cbn [snd] in *; exact H.
Qed.

(** X21: A message sent to an identifier that no component has is queued;
    registering a component under that identifier afterwards does not hand
    the message over: [registerComponent] never calls
    [processMessageQueue], so no [handleMessage] is called and the message
    stays in the queue. *)
Theorem registration_does_not_deliver_queued
    (pg : page) (i : instance) (cfg : jsval) (fromId componentId messageId : string)
    (r : request) (now : Z) (b : manager)
    (Hnone : map_get componentId (components b) = None)
    (Hto : r_to r = Some componentId)
    (Hid : componentId <> "") :
  let sent := sendMessage fromId r messageId now b in
  let registered := registerComponent pg i cfg componentId (snd sent) in
  fst sent = Normal tt
  /\ delivered (snd registered) = delivered b
  /\ messageQueue (snd registered) !! Some componentId
     = Some (default [] (messageQueue b !! Some componentId)
             ++ [Message messageId fromId (Some componentId)
                   (default "global" (r_channel r)) (r_data r) (r_type r) now false]).
Proof.
  cbv zeta.
  destruct (cc_same_mail_registerComponent pg i cfg componentId
              (snd (sendMessage fromId r messageId now b))) as (_ & Hq & Hd & _).
  rewrite Hq, Hd. unfold sendMessage, truthy. rewrite Hto.
  rewrite bool_decide_eq_true_2 by exact Hid.
  unfold deliverMessage, target_of. cbn [to]. rewrite Hnone.
  cbn [fst snd queueMessage set_messageQueue messageQueue delivered to].
  rewrite lookup_insert_eq. auto.
Qed.

Lemma registration_does_not_deliver_queued_witness :
  let sent := sendMessage "a" (note "z") "m1" 5 constructor in
  let registered := registerComponent family_page (plain_instance 0) VUndef "z" (snd sent) in
  fst sent = Normal tt
  /\ delivered (snd registered) = []
  /\ messageQueue (snd registered) !! Some "z"
     = Some [Message "m1" "a" (Some "z") "global" (VStr "hello") (VStr "note") 5 false].
Proof.
  apply (registration_does_not_deliver_queued family_page (plain_instance 0) VUndef
           "a" "z" "m1" (note "z") 5 constructor).
  - reflexivity.
  - reflexivity.
  - discriminate.
Defined.

Lemma cc_broadcast_loop (fromId : string) (m : message) (l : list (string * component)) :
  forall b,
    let b' :=
      foldl
        (fun b entry =>
           if bool_decide (fst entry <> fromId) then
             let m' := Message (id m) fromId (to m) (channel m) (data m) (type m)
                         (timestamp m) true in
             match handleMessage (fst entry) (snd entry) m' b with
             | (Normal _, b') => b'
             | (Throw, b') => console_error b'
             end
           else b)
        b l in
    components b' = components b /\ channels b' = channels b
    /\ messageQueue b' = messageQueue b
    /\ delivered b'
       = delivered b
         ++ map (fun entry =>
                   (fst entry,
                    Message (id m) fromId (to m) (channel m) (data m) (type m)
                      (timestamp m) true))
              (filter (fun entry => fst entry <> fromId) l).
Proof.
  induction l as [|entry l IH]; intros b; cbv zeta in *.
  - cbn. rewrite app_nil_r. auto.
  - cbn [foldl]. rewrite filter_cons.
    destruct (decide (fst entry <> fromId)) as [Hne|Heq].
    + rewrite bool_decide_eq_true_2 by exact Hne.
      match goal with
      | |- context [foldl ?F _ l] => set (loop := F) in *
      end.
      unfold handleMessage.
      destruct (faulty (instance_of (snd entry)));
        match goal with
        | |- context [foldl loop ?b1 l] => destruct (IH b1) as (H1 & H2 & H3 & H4)
        end;
        rewrite H1, H2, H3, H4; cbn; rewrite <- app_assoc; auto.
    + rewrite bool_decide_eq_false_2 by exact Heq. apply IH.
Qed.

(** X22: [broadcast] calls [handleMessage] once on every registered
    component other than the sender, in the order of registration, with
    the message marked as a broadcast of the sender; a handler that throws
    does not keep the later components from being called.  The sender is
    never called, and nothing is queued. *)
Theorem broadcast_reaches_all_but_sender (fromId : string) (m : message) (b : manager) :
  let b' := broadcast fromId m b in
  components b' = components b
  /\ messageQueue b' = messageQueue b
  /\ delivered b'
     = delivered b
       ++ map (fun entry =>
                 (fst entry,
                  Message (id m) fromId (to m) (channel m) (data m) (type m)
                    (timestamp m) true))
            (filter (fun entry => fst entry <> fromId) (components b)).
Proof.
  cbv zeta. unfold broadcast.
  destruct (cc_broadcast_loop fromId m (components b) b) as (H1 & _ & H3 & H4).
  auto.
Qed.

(** *** How the methods change the relationships *)

Lemma cc_field_components {A : Type} (field : relationships -> A) (k : string)
    (b b' : manager) :
  components b' = components b -> field_of field k b' = field_of field k b.
Proof. unfold field_of. intros ->. reflexivity. Qed.

Lemma cc_field_update {A : Type} (field : relationships -> A) (g : A -> A)
    (f : relationships -> relationships) (k j : string) (b : manager) :
  (forall r, field (f r) = g (field r)) ->
  field_of field k (update_relationships j f b)
  = if bool_decide (k = j) then g <$> field_of field k b else field_of field k b.
Proof.
  intros Hf. unfold field_of, update_relationships. cbn [components set_components].
  rewrite cc_map_get_update.
  destruct (bool_decide (k = j)); [|reflexivity].
  destruct (map_get k (components b)); cbn; [|reflexivity].
  rewrite Hf. reflexivity.
Qed.

Lemma cc_field_update_keep {A : Type} (field : relationships -> A)
    (f : relationships -> relationships) (k j : string) (b : manager) :
  (forall r, field (f r) = field r) ->
  field_of field k (update_relationships j f b) = field_of field k b.
Proof.
  intros Hf. rewrite (cc_field_update field (fun a => a)) by exact Hf.
  destruct (bool_decide (k = j)); [|reflexivity].
  destruct (field_of field k b); reflexivity.
Qed.

Lemma cc_field_subscriptions {A : Type} (field : relationships -> A)
    (h : list string -> list string) (k j : string) (m : list (string * component)) :
  (fun c => field (relationships_of c))
    <$> map_get k
          (map_update j
             (fun c => Component (instance_of c) (config c) (relationships_of c)
                         (h (subscriptions c)) (state c)) m)
  = (fun c => field (relationships_of c)) <$> map_get k m.
Proof.
  rewrite cc_map_get_update.
  destruct (bool_decide (k = j)); [|reflexivity].
  destruct (map_get k m); reflexivity.
Qed.

Lemma cc_field_unsubscribeFromChannel {A : Type} (field : relationships -> A)
    (k componentId channelName : string) (b : manager) :
  field_of field k (unsubscribeFromChannel componentId channelName b)
  = field_of field k b.
Proof.
  unfold unsubscribeFromChannel.
  destruct (channels b !! channelName); [|reflexivity].
  unfold field_of. cbn [components]. apply cc_field_subscriptions.
Qed.

Lemma cc_field_subscribeToChannel {A : Type} (field : relationships -> A)
    (k componentId channelName : string) (handler : nat) (b : manager) :
  field_of field k (snd (subscribeToChannel componentId channelName handler b))
  = field_of field k b.
Proof.
  unfold subscribeToChannel.
  destruct (channels b !! channelName); [|reflexivity].
  unfold field_of. cbn [snd components]. apply cc_field_subscriptions.
Qed.

Lemma cc_field_unsubscribe_loop {A : Type} (field : relationships -> A)
    (k componentId : string) (l : list string) :
  forall b,
    field_of field k
      (foldl (fun b channelName => unsubscribeFromChannel componentId channelName b) b l)
    = field_of field k b.
Proof.
  induction l as [|x l IH]; intros b; [reflexivity|].
  cbn [foldl]. rewrite IH. apply cc_field_unsubscribeFromChannel.
Qed.

Lemma cc_field_delete {A : Type} (field : relationships -> A) (k j : string)
    (b : manager) :
  field_of field k (set_components (map_delete j (components b)) b)
  = if bool_decide (k = j) then None else field_of field k b.
Proof.
  unfold field_of. cbn [components set_components]. rewrite cc_map_get_delete.
  destruct (bool_decide (k = j)); reflexivity.
Qed.

Lemma cc_field_set {A : Type} (field : relationships -> A) (k j : string)
    (c : component) (b : manager) :
  field_of field k (set_components (map_set j c (components b)) b)
  = if bool_decide (k = j) then Some (field (relationships_of c)) else field_of field k b.
Proof.
  unfold field_of. cbn [components set_components]. rewrite cc_map_get_set.
  destruct (bool_decide (k = j)); reflexivity.
Qed.

(** The loop of [unregisterComponent] over the siblings. *)
Lemma cc_field_sibling_loop {A : Type} (field : relationships -> A) (g : A -> A)
    (componentId k : string) (l : list string) :
  (forall r, field (Relationships (parent r) (children r)
                      (set_delete componentId (siblings r))) = g (field r)) ->
  (forall a, g (g a) = g a) ->
  forall b,
    field_of field k
      (foldl
         (fun b siblingId =>
            update_relationships siblingId
              (fun r => Relationships (parent r) (children r)
                          (set_delete componentId (siblings r)))
              b)
         b l)
    = if bool_decide (k ∈ l) then g <$> field_of field k b else field_of field k b.
Proof.
  intros Hf Hg. induction l as [|x l IH]; intros b.
  - rewrite bool_decide_eq_false_2 by apply not_elem_of_nil. reflexivity.
  - cbn [foldl]. rewrite IH. rewrite (cc_field_update field g) by exact Hf.
    destruct (decide (k = x)) as [->|Hx].
    + rewrite (bool_decide_eq_true_2 (x = x)) by reflexivity.
      rewrite (bool_decide_eq_true_2 (x ∈ x :: l)) by (apply elem_of_cons; auto).
      destruct (bool_decide (x ∈ l)); [|reflexivity].
      destruct (field_of field x b); cbn; [rewrite Hg|]; reflexivity.
    + rewrite (bool_decide_eq_false_2 (k = x)) by exact Hx.
      destruct (decide (k ∈ l)) as [Hl|Hl].
      * rewrite (bool_decide_eq_true_2 (k ∈ l)) by exact Hl.
        rewrite (bool_decide_eq_true_2 (k ∈ x :: l)) by (apply elem_of_cons; auto).
        reflexivity.
      * rewrite (bool_decide_eq_false_2 (k ∈ l)) by exact Hl.
        rewrite (bool_decide_eq_false_2 (k ∈ x :: l)); [reflexivity|].
        intros [?|?]%elem_of_cons; contradiction.
Qed.

(** A field of the relationships after [unregisterComponent], for a field
    that the removal of a child does not change. *)
Lemma cc_field_unregisterComponent {A : Type} (field : relationships -> A) (g : A -> A)
    (componentId k : string) (c : component) (b : manager) :
  map_get componentId (components b) = Some c ->
  (forall r, field (Relationships (parent r) (set_delete componentId (children r))
                      (siblings r)) = field r) ->
  (forall r, field (Relationships (parent r) (children r)
                      (set_delete componentId (siblings r))) = g (field r)) ->
  (forall a, g (g a) = g a) ->
  field_of field k (unregisterComponent componentId b)
  = if bool_decide (k = componentId) then None
    else if bool_decide (k ∈ siblings (relationships_of c))
         then g <$> field_of field k b else field_of field k b.
Proof.
  intros Hc Hchildren Hsiblings Hg. unfold unregisterComponent. rewrite Hc.
  rewrite cc_field_delete.
  destruct (bool_decide (k = componentId)); [reflexivity|].
  rewrite (cc_field_sibling_loop field g) by assumption.
  assert (Hb2 : forall b2,
            field_of field k b2 = field_of field k b ->
            (if bool_decide (k ∈ siblings (relationships_of c))
             then g <$> field_of field k b2 else field_of field k b2)
            = (if bool_decide (k ∈ siblings (relationships_of c))
               then g <$> field_of field k b else field_of field k b)).
  { intros b2 ->. reflexivity. }
  apply Hb2.
  destruct (parent (relationships_of c)) as [p|].
  - destruct (truthy (Some p)).
    + rewrite cc_field_update_keep by exact Hchildren.
      apply cc_field_unsubscribe_loop.
    + apply cc_field_unsubscribe_loop.
  - apply cc_field_unsubscribe_loop.
Qed.

(** X23: [unregisterComponent] removes a component from the children of
    its parent and from the siblings of its siblings, but not from the
    [parent] field of its children: a child of the removed component keeps
    the identifier as its parent, and what it sends with [sendToParent]
    afterwards is queued for a component that is not registered. *)
Theorem unregistered_parent_stays_recorded
    (parentId childId : string) (cp cc : component) (b : manager)
    (Hp : map_get parentId (components b) = Some cp)
    (Hc : map_get childId (components b) = Some cc)
    (Hparent : parent (relationships_of cc) = Some parentId)
    (Hne : childId <> parentId)
    (Hid : parentId <> "") :
  let b' := unregisterComponent parentId b in
  map_get parentId (components b') = None
  /\ field_of parent childId b' = Some (Some parentId)
  /\ forall r messageId now,
       sendToParent childId r messageId now b'
       = (Normal tt,
          queueMessage
            (Message messageId childId (Some parentId) (default "global" (r_channel r))
               (r_data r) (r_type r) now false)
            b').
Proof.
  cbv zeta.
  assert (Hgone : map_get parentId (components (unregisterComponent parentId b)) = None).
  { unfold unregisterComponent. rewrite Hp. cbn [components set_components].
    rewrite cc_map_get_delete. rewrite bool_decide_eq_true_2 by reflexivity.
    reflexivity. }
  assert (Hkept : field_of parent childId (unregisterComponent parentId b)
                  = Some (Some parentId)).
  { rewrite (cc_field_unregisterComponent parent (fun a => a) parentId childId cp b Hp)
      by reflexivity.
    rewrite bool_decide_eq_false_2 by exact Hne.
    unfold field_of. rewrite Hc. cbn. rewrite Hparent.
    destruct (bool_decide (childId ∈ siblings (relationships_of cp))); reflexivity. }
  split; [exact Hgone|]. split; [exact Hkept|].
  intros r messageId now. unfold sendToParent.
  unfold field_of in Hkept.
  destruct (map_get childId (components (unregisterComponent parentId b)))
    as [cc'|]; [|discriminate].
  cbn in Hkept. injection Hkept as Hkept. rewrite Hkept.
  unfold truthy. rewrite bool_decide_eq_true_2 by exact Hid.
  unfold sendMessage, truthy. cbn [r_to r_channel r_data r_type].
  rewrite bool_decide_eq_true_2 by exact Hid.
  unfold deliverMessage, target_of. cbn [to]. rewrite Hgone. reflexivity.
Qed.

Lemma unregistered_parent_stays_recorded_witness :
  let b' := unregisterComponent "a" family in
  map_get "a" (components b') = None
  /\ field_of parent "b" b' = Some (Some "a")
  /\ forall r messageId now,
       sendToParent "b" r messageId now b'
       = (Normal tt,
          queueMessage
            (Message messageId "b" (Some "a") (default "global" (r_channel r))
               (r_data r) (r_type r) now false)
            b').
Proof.
  apply (unregistered_parent_stays_recorded "a" "b"
           (Component (plain_instance 0) VUndef (Relationships None ["b"; "c"] []) []
              "active")
           (Component (plain_instance 1) VUndef (Relationships (Some "a") [] ["c"]) []
              "active")).
  - reflexivity.
  - reflexivity.
  - reflexivity.
  - discriminate.
  - discriminate.
Defined.

(** X24: [registerComponent] throws for an instance whose element has no
    parent element, because [detectRelationships] reads the children of
    the missing parent; by then the component is in the registry, where it
    stays, and the caller never gets its identifier. *)
Theorem registerComponent_detached_element_throws
    (pg : page) (i : instance) (cfg : jsval) (componentId : string) (e : nat)
    (b : manager)
    (He : element i = Some e)
    (Hparent : parentElement pg !! e = None) :
  exists b',
    registerComponent pg i cfg componentId b = (Throw, b')
    /\ map_get componentId (components b')
       = Some (Component i cfg (Relationships None [] []) [] "active")
    /\ same_mail b b'.
Proof.
  eexists. unfold registerComponent, detectRelationships.
  cbn [components set_components]. rewrite cc_map_get_set.
  rewrite bool_decide_eq_true_2 by reflexivity. cbn [instance_of]. rewrite He, Hparent.
  split; [reflexivity|]. cbn [components set_components]. rewrite cc_map_get_set.
  rewrite bool_decide_eq_true_2 by reflexivity.
  split; [reflexivity|]. repeat split.
Qed.

Lemma registerComponent_detached_element_throws_witness :
  exists b',
    registerComponent detached_page (plain_instance 0) VUndef "root" constructor
    = (Throw, b')
    /\ map_get "root" (components b')
       = Some (Component (plain_instance 0) VUndef (Relationships None [] []) [] "active")
    /\ same_mail constructor b'.
Proof.
  apply (registerComponent_detached_element_throws detached_page (plain_instance 0)
           VUndef "root" 0%nat constructor).
  - reflexivity.
  - reflexivity.
Defined.

(** *** Siblings *)

Lemma cc_elem_of_set_add (z w : string) (s : list string) :
  z ∈ set_add w s <-> z = w \/ z ∈ s.
Proof.
  unfold set_add. destruct (decide (w ∈ s)) as [Hw|Hw].
  - rewrite bool_decide_eq_true_2 by exact Hw. split; [auto|].
    intros [->|?]; assumption.
  - rewrite bool_decide_eq_false_2 by exact Hw. rewrite elem_of_app.
    rewrite list_elem_of_singleton. tauto.
Qed.

Lemma cc_elem_of_set_delete (z w : string) (s : list string) :
  z ∈ set_delete w s <-> z <> w /\ z ∈ s.
Proof. unfold set_delete. exact (list_elem_of_filter (fun y => y <> w) s z). Qed.

Lemma cc_set_delete_idempotent (w : string) (s : list string) :
  set_delete w (set_delete w s) = set_delete w s.
Proof.
  unfold set_delete.
  apply (list_filter_filter_l (fun y => y <> w) (fun y => y <> w)). auto.
Qed.

Lemma cc_siblings_of_registered (k : string) (c : component) (b : manager) :
  map_get k (components b) = Some c ->
  siblings_of k b = Some (siblings (relationships_of c)).
Proof. intros H. unfold siblings_of, field_of. rewrite H. reflexivity. Qed.

Lemma cc_symmetric_same (b b' : manager) :
  (forall k, siblings_of k b' = siblings_of k b) ->
  siblings_symmetric b -> siblings_symmetric b'.
Proof.
  intros Hsame Hsym x y sx Hx Hy. rewrite Hsame in Hx.
  destruct (Hsym x y sx Hx Hy) as (sy & Hsy & Hin).
  exists sy. rewrite Hsame. auto.
Qed.

Lemma cc_symmetric_components (b b' : manager) :
  components b' = components b ->
  siblings_symmetric b -> siblings_symmetric b'.
Proof.
  intros Hc. apply cc_symmetric_same. intros k.
  apply cc_field_components, Hc.
Qed.

Lemma cc_symmetric_setParentChild (p c : string) (b : manager) :
  siblings_symmetric b -> siblings_symmetric (setParentChild p c b).
Proof.
  unfold setParentChild.
  destruct (map_get p (components b)); [|auto].
  destruct (map_get c (components b)); [|auto].
  apply cc_symmetric_same. intros k. unfold siblings_of.
  rewrite cc_field_update_keep by reflexivity.
  apply cc_field_update_keep. reflexivity.
Qed.

Lemma cc_siblings_of_setSiblings (a c : string) (ca cc : component) (k : string)
    (b : manager) :
  map_get a (components b) = Some ca ->
  map_get c (components b) = Some cc ->
  siblings_of k (setSiblings a c b)
  = (fun s =>
       (if bool_decide (k = c) then set_add a else fun s => s)
         ((if bool_decide (k = a) then set_add c else fun s => s) s))
    <$> siblings_of k b.
Proof.
  intros Ha Hc. unfold setSiblings. rewrite Ha, Hc. unfold siblings_of.
  rewrite (cc_field_update siblings (set_add a)) by reflexivity.
  rewrite (cc_field_update siblings (set_add c)) by reflexivity.
  destruct (bool_decide (k = c)), (bool_decide (k = a));
    destruct (field_of siblings k b); reflexivity.
Qed.

Lemma cc_symmetric_setSiblings (a c : string) (b : manager) :
  siblings_symmetric b -> siblings_symmetric (setSiblings a c b).
Proof.
  intros Hsym.
  destruct (map_get a (components b)) as [ca|] eqn:Ha;
    [|unfold setSiblings; rewrite Ha; exact Hsym].
  destruct (map_get c (components b)) as [cc|] eqn:Hc;
    [|unfold setSiblings; rewrite Ha, Hc; exact Hsym].
  intros x y sx' Hx Hy.
  rewrite (cc_siblings_of_setSiblings a c ca cc x b Ha Hc) in Hx.
  rewrite (cc_siblings_of_setSiblings a c ca cc y b Ha Hc).
  destruct (siblings_of x b) as [sx|] eqn:Hsx; [|discriminate].
  cbn in Hx. injection Hx as <-.
  assert (Hcases : y ∈ sx \/ (x = a /\ y = c) \/ (x = c /\ y = a)).
  { repeat case_bool_decide; rewrite ?cc_elem_of_set_add in Hy; tauto. }
  assert (Hgrow : forall k s z,
            z ∈ s ->
            z ∈ (if bool_decide (k = c) then set_add a else fun s => s)
                  ((if bool_decide (k = a) then set_add c else fun s => s) s)).
  { intros k s z Hz.
    destruct (bool_decide (k = c)), (bool_decide (k = a));
      rewrite ?cc_elem_of_set_add; auto. }
  destruct Hcases as [Hin|[[-> ->]|[-> ->]]].
  - destruct (Hsym x y sx Hsx Hin) as (sy & Hsy & Hxy).
    rewrite Hsy. eexists. split; [reflexivity|]. apply Hgrow, Hxy.
  - rewrite (cc_siblings_of_registered c cc b Hc). eexists. split; [reflexivity|].
    rewrite (bool_decide_eq_true_2 (c = c)) by reflexivity.
    apply cc_elem_of_set_add. auto.
  - rewrite (cc_siblings_of_registered a ca b Ha). eexists. split; [reflexivity|].
    rewrite (bool_decide_eq_true_2 (a = a)) by reflexivity.
    destruct (bool_decide (a = c)); rewrite ?cc_elem_of_set_add; auto.
Qed.

Lemma cc_symmetric_unregisterComponent (componentId : string) (b : manager) :
  siblings_symmetric b -> siblings_symmetric (unregisterComponent componentId b).
Proof.
  intros Hsym.
  destruct (map_get componentId (components b)) as [c|] eqn:Hc;
    [|unfold unregisterComponent; rewrite Hc; exact Hsym].
  assert (Hafter : forall k,
            siblings_of k (unregisterComponent componentId b)
            = if bool_decide (k = componentId) then None
              else if bool_decide (k ∈ siblings (relationships_of c))
                   then set_delete componentId <$> siblings_of k b
                   else siblings_of k b).
  { intros k. unfold siblings_of.
    apply (cc_field_unregisterComponent siblings (set_delete componentId)
             componentId k c b Hc).
    - reflexivity.
    - reflexivity.
    - apply cc_set_delete_idempotent. }
  intros x y sx' Hx Hy. rewrite Hafter in Hx. rewrite Hafter.
  destruct (decide (x = componentId)) as [->|Hxne];
    [rewrite bool_decide_eq_true_2 in Hx by reflexivity; discriminate|].
  rewrite (bool_decide_eq_false_2 (x = componentId)) in Hx by exact Hxne.
  destruct (siblings_of x b) as [sx|] eqn:Hsx;
    [|destruct (bool_decide (x ∈ siblings (relationships_of c))); discriminate].
  assert (Hy' : y ∈ sx /\ y <> componentId).
  { destruct (decide (x ∈ siblings (relationships_of c))) as [Hxc|Hxc].
    - rewrite bool_decide_eq_true_2 in Hx by exact Hxc.
      cbn in Hx. injection Hx as <-. apply cc_elem_of_set_delete in Hy. tauto.
    - rewrite bool_decide_eq_false_2 in Hx by exact Hxc.
      injection Hx as <-. split; [exact Hy|]. intros ->.
      destruct (Hsym x componentId sx Hsx Hy) as (sy & Hsy & Hin).
      rewrite (cc_siblings_of_registered componentId c b Hc) in Hsy.
      injection Hsy as <-. contradiction. }
  destruct Hy' as [Hin Hyne].
  destruct (Hsym x y sx Hsx Hin) as (sy & Hsy & Hxy).
  rewrite (bool_decide_eq_false_2 (y = componentId)) by exact Hyne.
  rewrite Hsy.
  destruct (bool_decide (y ∈ siblings (relationships_of c))).
  - eexists. split; [reflexivity|]. apply cc_elem_of_set_delete. auto.
  - eexists. split; [reflexivity|]. exact Hxy.
Qed.

Lemma cc_symmetric_sibling_loop (componentId : string) (e : nat) (l : list nat) :
  forall b,
    siblings_symmetric b ->
    siblings_symmetric
      (foldl
         (fun b siblingElement =>
            if bool_decide (siblingElement <> e) then
              match findComponentByElement siblingElement b with
              | Some siblingId => setSiblings componentId siblingId b
              | None => b
              end
            else b)
         b l).
Proof.
  induction l as [|x l IH]; intros b Hsym; [exact Hsym|].
  cbn [foldl]. apply IH.
  destruct (bool_decide (x <> e)); [|exact Hsym].
  destruct (findComponentByElement x b); [|exact Hsym].
  apply cc_symmetric_setSiblings, Hsym.
Qed.

Lemma cc_symmetric_detectRelationships (pg : page) (componentId : string) (b : manager) :
  siblings_symmetric b ->
  siblings_symmetric (snd (detectRelationships pg componentId b)).
Proof.
  intros Hsym. unfold detectRelationships.
  destruct (map_get componentId (components b)) as [c|]; [|exact Hsym].
  destruct (element (instance_of c)) as [e|]; [|exact Hsym].
  destruct (parentElement pg !! e) as [p|]; [|exact Hsym].
  cbn [snd]. apply cc_symmetric_sibling_loop.
  destruct (findComponentByElement p b); [|exact Hsym].
  apply cc_symmetric_setParentChild, Hsym.
Qed.

Lemma cc_symmetric_registerComponent (pg : page) (i : instance) (cfg : jsval)
    (componentId : string) (b : manager) :
  map_get componentId (components b) = None ->
  siblings_symmetric b ->
  siblings_symmetric (snd (registerComponent pg i cfg componentId b)).
Proof.
  intros Hfresh Hsym. unfold registerComponent.
  match goal with
  | |- context [detectRelationships pg componentId ?b1] =>
      assert (H1 : siblings_symmetric b1);
      [|pose proof (cc_symmetric_detectRelationships pg componentId b1 H1) as H;
        destruct (detectRelationships pg componentId b1) as [[u|] b2];
        cbn [snd] in *; exact H]
  end.
  assert (Hset : forall k,
            siblings_of k
              (set_components
                 (map_set componentId
                    (Component i cfg (Relationships None [] []) [] "active")
                    (components b)) b)
            = if bool_decide (k = componentId) then Some [] else siblings_of k b).
  { intros k. unfold siblings_of. apply cc_field_set. }
  intros x y sx Hx Hy. rewrite Hset in Hx. rewrite Hset.
  destruct (decide (x = componentId)) as [->|Hxne].
  - rewrite bool_decide_eq_true_2 in Hx by reflexivity. injection Hx as <-.
    apply not_elem_of_nil in Hy. contradiction.
  - rewrite bool_decide_eq_false_2 in Hx by exact Hxne.
    destruct (Hsym x y sx Hx Hy) as (sy & Hsy & Hxy).
    destruct (decide (y = componentId)) as [->|Hyne].
    + unfold siblings_of, field_of in Hsy. rewrite Hfresh in Hsy. discriminate.
    + rewrite bool_decide_eq_false_2 by exact Hyne. eauto.
Qed.

(** The methods that send messages leave the registry as it is. *)
Lemma cc_components_deliverMessage (m : message) (b : manager) :
  components (snd (deliverMessage m b)) = components b.
Proof.
  unfold deliverMessage. destruct (target_of m b) as [[recipient c]|]; [|reflexivity].
  unfold handleMessage. destruct (faulty (instance_of c)); reflexivity.
Qed.

Lemma cc_components_broadcast (fromId : string) (m : message) (b : manager) :
  components (broadcast fromId m b) = components b.
Proof.
  unfold broadcast.
  destruct (cc_broadcast_loop fromId m (components b) b) as (H1 & _). exact H1.
Qed.

Lemma cc_components_sendMessage (fromId : string) (r : request) (messageId : string)
    (now : Z) (b : manager) :
  components (snd (sendMessage fromId r messageId now b)) = components b.
Proof.
  unfold sendMessage. destruct (truthy (r_to r)).
  - apply cc_components_deliverMessage.
  - apply cc_components_broadcast.
Qed.

Lemma cc_components_sendToParent (fromId : string) (r : request) (messageId : string)
    (now : Z) (b : manager) :
  components (snd (sendToParent fromId r messageId now b)) = components b.
Proof.
  unfold sendToParent. destruct (map_get fromId (components b)) as [c|]; [|reflexivity].
  destruct (truthy (parent (relationships_of c))); [|reflexivity].
  apply cc_components_sendMessage.
Qed.

Lemma cc_components_send_each (fromId : string) (r : request)
    (stamp : nat -> string * Z) (childIds : list string) :
  forall k b, components (snd (send_each fromId r childIds stamp k b)) = components b.
Proof.
  induction childIds as [|childId rest IH]; intros k b; [reflexivity|].
  cbn [send_each].
  match goal with
  | |- context [sendMessage ?f ?q ?i ?n b] =>
      pose proof (cc_components_sendMessage f q i n b) as H;
      destruct (sendMessage f q i n b) as [[u|] b']
  end; cbn [snd] in *.
  - rewrite IH. exact H.
  - exact H.
Qed.

Lemma cc_components_sendToChildren (fromId : string) (r : request)
    (stamp : nat -> string * Z) (b : manager) :
  components (snd (sendToChildren fromId r stamp b)) = components b.
Proof.
  unfold sendToChildren. destruct (map_get fromId (components b)); [|reflexivity].
  apply cc_components_send_each.
Qed.

Lemma cc_components_deliver_each (messages : list message) :
  forall b, components (snd (deliver_each messages b)) = components b.
Proof.
  induction messages as [|m rest IH]; intros b; [reflexivity|].
  cbn [deliver_each].
  pose proof (cc_components_deliverMessage m b) as H.
  destruct (deliverMessage m b) as [[u|] b']; cbn [snd] in *.
  - rewrite IH. exact H.
  - exact H.
Qed.

Lemma cc_components_processMessageQueue (componentId : string) (b : manager) :
  components (snd (processMessageQueue componentId b)) = components b.
Proof.
  unfold processMessageQueue.
  destruct (messageQueue b !! Some componentId) as [messages|]; [|reflexivity].
  pose proof (cc_components_deliver_each messages b) as H.
  destruct (deliver_each messages b) as [[u|] b']; cbn [snd] in *; exact H.
Qed.

Lemma cc_step_symmetric (b b' : manager) :
  step b b' -> siblings_symmetric b -> siblings_symmetric b'.
Proof.
  intros Hstep Hsym. destruct Hstep.
  - apply cc_symmetric_registerComponent; assumption.
  - apply cc_symmetric_unregisterComponent, Hsym.
  - apply cc_symmetric_setParentChild, Hsym.
  - apply cc_symmetric_setSiblings, Hsym.
  - apply (cc_symmetric_components b); [|exact Hsym].
    unfold createChannel. destruct (channels b !! channelName); reflexivity.
  - apply (cc_symmetric_same b); [|exact Hsym].
    intros k. apply cc_field_subscribeToChannel.
  - apply (cc_symmetric_same b); [|exact Hsym].
    intros k. apply cc_field_unsubscribeFromChannel.
  - apply (cc_symmetric_components b); [|exact Hsym].
    apply cc_components_sendMessage.
  - apply (cc_symmetric_components b); [|exact Hsym].
    apply cc_components_broadcast.
  - apply (cc_symmetric_components b); [|exact Hsym].
    apply cc_components_sendToParent.
  - apply (cc_symmetric_components b); [|exact Hsym].
    apply cc_components_sendToChildren.
  - apply (cc_symmetric_components b); [|exact Hsym].
    apply cc_components_processMessageQueue.
Qed.

Lemma cc_family_reachable : reachable family.
Proof.
  unfold reachable, family.
  eapply rtc_l; [apply (step_registerComponent family_page (plain_instance 0) VUndef "a");
                 reflexivity|].
  eapply rtc_l; [apply (step_registerComponent family_page (plain_instance 1) VUndef "b");
                 reflexivity|].
  eapply rtc_l; [apply (step_registerComponent family_page (plain_instance 2) VUndef "c");
                 reflexivity|].
  apply rtc_refl.
Qed.

(** X25: In every state that calls of the methods of the manager reach
    from a new manager (components registered under identifiers not in
    use), being siblings goes both ways and a sibling is registered:
    whenever [y] is among the siblings of a registered [x], [y] is
    registered and [x] is among the siblings of [y].  Removing a component
    removes it from the siblings of all others. *)
Theorem siblings_stay_symmetric (b : manager) (Hreach : reachable b) :
  siblings_symmetric b.
Proof.
  assert (Hgen : forall b0 b1,
            rtc step b0 b1 -> siblings_symmetric b0 -> siblings_symmetric b1).
  { intros b0 b1 Hrtc. induction Hrtc as [|b0 b1 b2 Hstep _ IH]; [auto|].
    intros H0. apply IH. exact (cc_step_symmetric b0 b1 Hstep H0). }
  apply (Hgen constructor b Hreach).
  intros x y sx Hx. discriminate.
Qed.

Lemma siblings_stay_symmetric_witness :
  reachable (unregisterComponent "b" family)
  /\ siblings_symmetric (unregisterComponent "b" family).
Proof.
  assert (Hreach : reachable (unregisterComponent "b" family)).
  { eapply rtc_r; [exact cc_family_reachable|]. apply step_unregisterComponent. }
  split; [exact Hreach|]. apply (siblings_stay_symmetric _ Hreach).
Defined.

End Broker.
